(* ===== verification/_CoqProject ===== *)
-Q . S2P
Prelude.v
Vector.v
Engine.v
Hair.v
HairCreate.v
HairClear.v
HairUpdate.v
LuaApi.v
HairSetup.v
CreateFacts.v
Scenario.v
CreateSpec.v
ClearFacts.v
ClearSpec.v
CreateClear.v
UpdateSpec.v
Lifecycle.v
GetSetupSpec.v
SetupRoundtrip.v
