(* ===== verification/Prelude.v ===== *)
(** * A verification development of OpenTomb's hair rig (src/src/hair.cpp)

    ** The program

    [hair.cpp] builds and drives the secondary-motion rig ("hair") of a
    character.  It has four entry points, one global physics world and an
    owning entity:
    - [Hair_Create] (lines 3-245) checks its inputs, then allocates a
      container, one collision shape and one rigid body per mesh of the hair
      model (loop with a [uint8_t] counter, lines 54-114), and
      [element_count * joints_per_body] generic 6-DOF constraints between
      consecutive bodies (two nested loops, lines 132-242).  It registers
      every body and constraint with the dynamics world.
    - [Hair_Update] (lines 295-341) runs every tick.  It differentiates the
      owner's pose against the pose cached in the hair, caches the new pose,
      and imposes [-100 * (char_vel + body_vel)] as the linear velocity of
      the root body and of the owner's anchor body.  Then it looks the room
      up again.
    - [Hair_Clear] (lines 247-293) unregisters and deletes every body, shape
      and constraint, frees the arrays and the container, and zeroes the
      fields.
    - [Hair_GetSetup] (lines 343-426) reads the tuning table that the Lua
      function [getHairSetup] returns, through the Lua stack.

    ** The library

    The model files (one per component, in [_CoqProject] order):
    - [Prelude] (this file): the [hair_scope] notations and the execution
      monad [M].  It threads an explicit state and ends in [exec]:
      [Returns], [Undefined] (C++ undefined behaviour: a NULL or dangling
      pointer, an array read out of range, an out-of-range conversion) or
      [Diverges].  It also has the weakest precondition [wp] and the
      predicate [ub] of a run that reaches undefined behaviour, with their
      rules; the bounded loop [for_loop] over a [w]-bit counter and its
      reference [iter_range], with termination, divergence and equivalence
      lemmas; the freed-heap helpers ([free_all], [not_in]); and the [hair]
      hint databases and tactics.
    - [Vector]: [btVector3] over [Q], its operations and their [Proper]
      instances for [vec_eq]; [btScalar[16]] matrices and [Mat4_Mat4_mul].
    - [Engine]: Bullet and the engine, modelled from the spec.  This is the
      heap of objects (bodies, shapes, motion states, constraints,
      containers), the world's registration lists, entities and models,
      and the [Collaborators] type class ([M_PI], [btCos], [btSin], the
      inertia computation, the room lookup).
    - [Hair]: [hair_t], [hair_element_t], [hair_setup_t], the state [st]
      (engine plus the hair pointer), the heap primitives ([alloc],
      [read_body], [update_body], [delete_obj], [world_removeConstraint],
      ...) and their [wp] rules on a state written field by field ([mkst]).
    - [HairCreate]: [Hair_Create], one definition per source block.
    - [HairClear]: [Hair_Clear], its two release loops and its resets.
    - [HairUpdate]: [Hair_Update], the guard and one frame.
    - [LuaApi]: the Lua C API calls [Hair_GetSetup] makes, from their
      documentation: the virtual stack, tables, [lua_GetScalarField],
      [lua_CallAndLog], and the float-to-unsigned conversions.
    - [HairSetup]: [Hair_GetSetup] over the state [gs] (Lua stack and the
      caller's setup record), one definition per block.

    The proof files:
    - [CreateFacts] runs [Hair_Create] symbolically to its final state
      [created_state] ([Hair_Create_returns]).  [CreateSpec] reads the
      claims C1-C13 off that state: shape, stop parameters, joint links and
      limits, masses, gravity, body setup, start transform, the world, the
      frame, rejection, and divergence past 255 meshes.
    - [ClearFacts] and [ClearSpec]: [Hair_Clear] releases exactly the rig
      (C14), is idempotent (C15), and has no NULL check (C16).
      [CreateClear]: a created rig with joints cannot be torn down without
      a use after free (C17), and a rig without joints is torn down
      leaving every motion state allocated (C28).
    - [UpdateSpec]: one frame of [Hair_Update] (C18), two frames at rest
      (C19), its guard (C20) and its read of bone tag 14 (C21).
      [Lifecycle]: the first frame after [Hair_Create] (C22).
    - [GetSetupSpec]: a direct reading [decode_setup] of the script's table
      and the refinement theorem that the stack-machine code computes it
      and restores the stack (C23).  [SetupRoundtrip]: a setup written as a
      table reads back (C24), a missing damping pair or number is not
      reported (C25, C26), and [joints_per_body] past 255 is undefined
      (C27).
    - [Scenario]: the concrete scene the witnesses evaluate on.

    ** Scalars, integers and fuel

    [btScalar] is modelled by the rationals [Q].  Statements about scalars
    are therefore exact: the tail body's mass is exactly [tail_weight], where
    floats are only close to it.  Every Q-valued equality is stated with
    [==] or holds syntactically.  Only [0 < M_PI] is assumed of the
    interface's [M_PI], so the angle-limit theorems hold for any value of
    pi.  Loop counters keep their width.  The [uint8_t] counter of the body
    loop wraps at 256, so that loop is a [for_loop] with fuel [2^8 + 1].
    This fuel covers every count that terminates, and running out of fuel
    there means real divergence (lemma [for_loop_diverges]).  The
    [uint16_t] joint counter uses fuel [2^16 + 1]; its count is at most
    [255 * 255], so it never wraps.  The [int] counters of [Hair_Clear] run
    to counts below [2^16] and are [iter_range].  The [v_index] counter of
    [Hair_GetSetup] is [iter_range] below [2^31] and undefined from there.

    ** Not modelled

    Rendering and the Bullet solver (only the fields of bodies and
    constraints that [hair.cpp] writes are kept).  The Lua interpreter is
    not modelled beyond the stack, the tables it hands back and a script
    given as a function of its argument.  The size of [head_vertex_map] is
    not in [src/], so its writes are not bounded. *)

From Stdlib Require Export String.
From stdpp Require Export base list gmap.
From Stdlib Require Export QArith Qabs Lqa ZArith.

Declare Scope hair_scope.
Delimit Scope hair_scope with hair.
Open Scope Q_scope.

(** ** Execution results and the state monad *)

(** The outcome of running a piece of C++: it returns a value, it reaches
    undefined behaviour, or it never returns. *)
Inductive exec (A : Type) : Type :=
| Returns (a : A)
| Undefined (what : string)
| Diverges.
Arguments Returns {A} a.
Arguments Undefined {A} what.
Arguments Diverges {A}.

(** A computation over an explicit state [St]. *)
Definition M (St A : Type) : Type := St -> exec (A * St).

Definition Mret {St A} (a : A) : M St A := fun s => Returns (a, s).

Definition Mbind {St A B} (m : M St A) (k : A -> M St B) : M St B :=
  fun s =>
    match m s with
    | Returns (a, s') => k a s'
    | Undefined w => Undefined w
    | Diverges => Diverges
    end.

Definition mget {St} : M St St := fun s => Returns (s, s).
Definition mput {St} (s : St) : M St unit := fun _ => Returns (tt, s).
Definition mmodify {St} (f : St -> St) : M St unit := fun s => Returns (tt, f s).
Definition undefined {St A} (what : string) : M St A := fun _ => Undefined what.
Definition diverge {St A} : M St A := fun _ => Diverges.

(** A value that C++ reads through a pointer or an index: [None] is
    undefined behaviour. *)
Definition deref {St A} (what : string) (o : option A) : M St A :=
  match o with Some a => Mret a | None => undefined what end.

Notation "'do' x <- m ; k" := (Mbind m (fun x => k))
  (at level 20, x name, m at level 100, k at level 200) : hair_scope.
Notation "'do' ' p <- m ; k" := (Mbind m (fun x => match x with p => k end))
  (at level 20, p pattern, m at level 100, k at level 200) : hair_scope.
Notation "m ;; k" := (Mbind m (fun _ => k))
  (at level 100, k at level 200, right associativity) : hair_scope.

Open Scope hair_scope.

(** ** Unsigned machine integers *)

(** The value of a [w]-bit unsigned variable after storing [x]. *)
Definition wrap (w : Z) (x : Z) : Z := (x mod 2 ^ w)%Z.

(** ** Counter loops

    [for (uintW_t i = i0; i < bound; i++) body] with a [w]-bit counter, an
    accumulator of local variables [A] and a state [St].  The fuel bounds the
    number of iterations. *)
Section ForLoop.
Context {St A : Type}.
Variable w : Z.
Variable bound : Z.
Variable body : Z -> A -> M St A.

Fixpoint for_loop (fuel : nat) (i : Z) (a : A) : M St A :=
  match fuel with
  | O => diverge
  | S f =>
      if (i <? bound)%Z then Mbind (body i a) (for_loop f (wrap w (i + 1)))
      else Mret a
  end.

(** The reference semantics: the body on [i0], [i0+1], ..., [i0+n-1]. *)
Fixpoint iter_range (n : nat) (i : Z) (a : A) : M St A :=
  match n with
  | O => Mret a
  | S n' => Mbind (body i a) (iter_range n' (i + 1))
  end.
End ForLoop.

(** ** Automation *)

Create HintDb hair discriminated.
Create Rewrite HintDb hair_rw.

Lemma Mbind_Returns {St A B} (m : M St A) (k : A -> M St B) s a s' :
  m s = Returns (a, s') -> Mbind m k s = k a s'.
Proof. unfold Mbind. intros ->. reflexivity. Qed.

Lemma Mbind_Mret {St A B} (a : A) (k : A -> M St B) s : Mbind (Mret a) k s = k a s.
Proof. reflexivity. Qed.

Lemma Mbind_assoc {St A B C} (m : M St A) (k : A -> M St B) (k' : B -> M St C) s :
  Mbind (Mbind m k) k' s = Mbind m (fun a => Mbind (k a) k') s.
Proof. unfold Mbind. destruct (m s) as [[a s']| |]; reflexivity. Qed.

#[export] Hint Rewrite @Mbind_Mret @Mbind_assoc : hair_rw.

(** Unfold one monadic step whose first computation is known to return. *)
Ltac mstep H := rewrite (Mbind_Returns _ _ _ _ _ H).

(** Split every [let '(x, y) := e in ...] of the goal on [e]. *)
Ltac destruct_pairs :=
  repeat match goal with |- context [match ?x with pair _ _ => _ end] => destruct x end.

(** ** The counter-loop lemmas *)

Lemma wrap_small w x : (0 <= x < 2 ^ w)%Z -> wrap w x = x.
Proof. unfold wrap. apply Z.mod_small. Qed.

Lemma wrap_range w x : (0 <= w)%Z -> (0 <= wrap w x < 2 ^ w)%Z.
Proof. intros Hw. unfold wrap. apply Z.mod_pos_bound. lia. Qed.

#[export] Hint Resolve wrap_range : hair.

Section LoopLemmas.
Context {St A : Type}.
Variable w : Z.
Variable bound : Z.
Variable body : Z -> A -> M St A.

(** Below the width, the bounded loop runs the body on [i .. bound-1]. *)
Lemma for_loop_iter_range fuel i a :
  (0 <= i <= bound)%Z -> (bound < 2 ^ w)%Z -> (Z.to_nat (bound - i) < fuel)%nat ->
  forall s, for_loop w bound body fuel i a s = iter_range body (Z.to_nat (bound - i)) i a s.
Proof.
  revert i a. induction fuel as [|f IH]; intros i a Hi Hb Hf s; [lia|].
  simpl. destruct (Z.ltb_spec i bound) as [Hlt|Hge].
  - replace (Z.to_nat (bound - i)) with (S (Z.to_nat (bound - (i + 1)))) by lia.
    simpl. unfold Mbind. destruct (body i a s) as [[a' s']| |]; [|reflexivity..].
    rewrite wrap_small by lia. apply IH; lia.
  - replace (Z.to_nat (bound - i)) with O by lia. reflexivity.
Qed.

(** At or above the width, the counter never reaches the bound: if the body
    always returns, the loop diverges whatever the fuel. *)
Lemma for_loop_diverges (P : A -> St -> Prop) :
  (0 <= w)%Z -> (2 ^ w <= bound)%Z ->
  (forall k a s, (0 <= k < 2 ^ w)%Z -> P a s ->
     exists a' s', body k a s = Returns (a', s') /\ P a' s') ->
  forall fuel i a s, (0 <= i < 2 ^ w)%Z -> P a s ->
    for_loop w bound body fuel i a s = Diverges.
Proof.
  intros Hw Hb Hbody fuel. induction fuel as [|f IH]; intros i a s Hi HP; [reflexivity|].
  simpl. destruct (Z.ltb_spec i bound) as [_|]; [|lia].
  destruct (Hbody i a s Hi HP) as (a' & s' & Hr & HP').
  unfold Mbind. rewrite Hr. apply IH; [apply wrap_range; lia | exact HP'].
Qed.

(** Hoare-style invariant rule for [iter_range]: an invariant indexed by the
    number of iterations done, that every iteration re-establishes. *)
Lemma iter_range_inv (P : nat -> A -> St -> Prop) n i :
  (forall k a s, (k < n)%nat -> P k a s ->
     exists a' s', body (i + Z.of_nat k) a s = Returns (a', s') /\ P (S k) a' s') ->
  forall a s, P O a s -> exists a' s', iter_range body n i a s = Returns (a', s') /\ P n a' s'.
Proof.
  intros Hstep. enough (forall m j a s, (m + j = n)%nat -> P j a s ->
    exists a' s', iter_range body m (i + Z.of_nat j) a s = Returns (a', s') /\ P n a' s') as H.
  { intros a s HP. specialize (H n O a s). rewrite Z.add_0_r in H. apply H; [lia|exact HP]. }
  induction m as [|m IH]; intros j a s Hmj HP.
  - simpl. exists a, s. split; [reflexivity|]. replace n with j by lia. exact HP.
  - simpl. destruct (Hstep j a s ltac:(lia) HP) as (a' & s' & Hr & HP').
    unfold Mbind. rewrite Hr.
    replace (i + Z.of_nat j + 1)%Z with (i + Z.of_nat (S j))%Z by lia.
    apply IH; [lia|exact HP'].
Qed.
End LoopLemmas.

(** ** Iterated subtraction and addition of a scalar

    A [btScalar] updated by [x -= step] or [x += step] once per iteration. *)
Fixpoint iter_sub (x step : Q) (n : nat) : Q :=
  match n with O => x | S n' => iter_sub x step n' - step end.

Fixpoint iter_add (x step : Q) (n : nat) : Q :=
  match n with O => x | S n' => iter_add x step n' + step end.

Lemma iter_sub_closed x step n : iter_sub x step n == x - inject_Z (Z.of_nat n) * step.
Proof.
  induction n as [|n IH]; simpl iter_sub.
  - simpl. ring.
  - rewrite IH, Nat2Z.inj_succ, <- Z.add_1_r, inject_Z_plus. simpl. ring.
Qed.

Lemma iter_add_closed x step n : iter_add x step n == x + inject_Z (Z.of_nat n) * step.
Proof.
  induction n as [|n IH]; simpl iter_add.
  - simpl. ring.
  - rewrite IH, Nat2Z.inj_succ, <- Z.add_1_r, inject_Z_plus. simpl. ring.
Qed.

#[export] Hint Rewrite iter_sub_closed iter_add_closed : hair_rw.

(** ** Weakest preconditions

    [wp m Q s]: run from [s], [m] returns a value [a] in a state [s'] with
    [Q a s'].  Proofs about the entry points walk through their code with
    the rules below, one statement at a time. *)
Definition wp {St A} (m : M St A) (Q : A -> St -> Prop) (s : St) : Prop :=
  match m s with Returns (a, s') => Q a s' | _ => False end.

Section Wp.
Context {St A B : Type}.

Lemma wp_run (m : M St A) Q s : wp m Q s -> exists a s', m s = Returns (a, s') /\ Q a s'.
Proof. unfold wp. destruct (m s) as [[a s']| |]; [eauto|done..]. Qed.

Lemma wp_returns (m : M St A) a0 s0 s :
  wp m (fun a s' => a = a0 /\ s' = s0) s -> m s = Returns (a0, s0).
Proof. unfold wp. destruct (m s) as [[a s']| |]; [intros [-> ->]; reflexivity|done..]. Qed.

Lemma wp_intro (m : M St A) (Q : A -> St -> Prop) s a s' :
  m s = Returns (a, s') -> Q a s' -> wp m Q s.
Proof. unfold wp. intros -> HQ. exact HQ. Qed.

Lemma wp_mono (m : M St A) (Q Q' : A -> St -> Prop) s :
  wp m Q s -> (forall a s', Q a s' -> Q' a s') -> wp m Q' s.
Proof. unfold wp. destruct (m s) as [[a s']| |]; auto. Qed.

Lemma wp_bind (m : M St A) (k : A -> M St B) Q s :
  wp m (fun a s' => wp (k a) Q s') s -> wp (Mbind m k) Q s.
Proof. unfold wp, Mbind. destruct (m s) as [[a s']| |]; auto. Qed.

Lemma wp_ret (a : A) (Q : A -> St -> Prop) s : Q a s -> wp (Mret a) Q s.
Proof. done. Qed.

Lemma wp_modify (f : St -> St) (Q : unit -> St -> Prop) s : Q tt (f s) -> wp (mmodify f) Q s.
Proof. done. Qed.

Lemma wp_deref w (o : option A) a (Q : A -> St -> Prop) s :
  o = Some a -> Q a s -> wp (deref w o) Q s.
Proof. intros ->. done. Qed.

(** The invariant rule for [iter_range], in [wp] form. *)
Lemma wp_iter_range (body : Z -> A -> M St A) (P : nat -> A -> St -> Prop) n i a s :
  (forall k a s, (k < n)%nat -> P k a s -> wp (body (i + Z.of_nat k)%Z a) (P (S k)) s) ->
  P O a s -> wp (iter_range body n i a) (P n) s.
Proof.
  intros Hstep HP.
  destruct (iter_range_inv body P n i) with (a := a) (s := s) as (a' & s' & Hr & HP'); [|exact HP|].
  - intros k b t Hk Hb. apply wp_run, Hstep; assumption.
  - eapply wp_intro; eassumption.
Qed.
End Wp.

(** One statement forward: a bind, then the rule of the statement. *)
Ltac wp_step :=
  match goal with
  | |- wp (Mbind _ _) _ _ => apply wp_bind
  | |- wp (Mret _) _ _ => apply wp_ret
  | |- wp (mmodify _) _ _ => apply wp_modify
  end.

(** The bounded loop and its reference have the same [wp] below the width. *)
Lemma wp_for_loop {St A} w bound (body : Z -> A -> M St A) fuel i a Q s :
  (0 <= i <= bound)%Z -> (bound < 2 ^ w)%Z -> (Z.to_nat (bound - i) < fuel)%nat ->
  wp (for_loop w bound body fuel i a) Q s <-> wp (iter_range body (Z.to_nat (bound - i)) i a) Q s.
Proof. intros Hi Hb Hf. unfold wp. rewrite for_loop_iter_range by assumption. reflexivity. Qed.

(** ** Reaching undefined behaviour

    [ub m s]: running [m] from [s] ends in undefined behaviour.  A run
    reaches it when its prefix returns (a [wp]) to a point where the rest
    is undefined. *)
Definition ub {St A} (m : M St A) (s : St) : Prop := exists w, m s = Undefined w.

Section Ub.
Context {St A B : Type}.

Lemma ub_after (m : M St A) (k : A -> M St B) s :
  wp m (fun a s' => ub (k a) s') s -> ub (Mbind m k) s.
Proof. unfold wp, ub, Mbind. destruct (m s) as [[a s']| |]; done. Qed.

Lemma ub_here (m : M St A) (k : A -> M St B) s : ub m s -> ub (Mbind m k) s.
Proof. unfold ub, Mbind. intros [w ->]. eauto. Qed.

(** A loop whose first iteration is undefined. *)
Lemma ub_iter_range_first (body : Z -> A -> M St A) n i a (k : A -> M St B) s :
  (0 < n)%nat -> ub (body i a) s -> ub (Mbind (iter_range body n i a) k) s.
Proof.
  destruct n as [|n]; [lia|]. intros _ [w Hw]. exists w.
  unfold Mbind at 1. cbn [iter_range]. unfold Mbind at 1. rewrite Hw. reflexivity.
Qed.

Lemma ub_undefined w (s : St) : ub (undefined w : M St A) s.
Proof. exists w. reflexivity. Qed.
End Ub.

(** ** Lists of pointers and freed heaps *)

Definition opt_list {A} (o : option A) : list A := match o with Some x => [x] | None => [] end.

(** The heap once each address of [ls] is released, in order. *)
Fixpoint free_all {V} (ls : list nat) (m : gmap nat V) : gmap nat V :=
  match ls with [] => m | l :: ls' => free_all ls' (delete l m) end.

Lemma free_all_lookup {V} ls (m : gmap nat V) l :
  free_all ls m !! l = if decide (l ∈ ls) then None else m !! l.
Proof.
  revert m. induction ls as [|l' ls IH]; intros m; cbn [free_all].
  - case_decide; [set_solver|reflexivity].
  - rewrite IH. destruct (decide (l ∈ ls)) as [Hin|Hin], (decide (l ∈ l' :: ls)) as [Hin'|Hin'];
      try reflexivity; rewrite ?elem_of_cons in Hin'; [tauto|..].
    + destruct Hin' as [->|]; [apply lookup_delete_eq|tauto].
    + apply lookup_delete_ne. intros ->. apply Hin'. left. reflexivity.
Qed.

Lemma free_all_app {V} ls1 ls2 (m : gmap nat V) : free_all (ls1 ++ ls2) m = free_all ls2 (free_all ls1 m).
Proof. revert m. induction ls1; intros m; simpl; auto. Qed.

(** Keeping the entries whose key is not in [B]. *)
Definition not_in (B : list nat) (l : nat) : bool := negb (bool_decide (l ∈ B)).

Lemma filter_filter_andb {A} (f g : A -> bool) xs :
  List.filter f (List.filter g xs) = List.filter (fun x => g x && f x) xs.
Proof.
  induction xs as [|x xs IH]; simpl; [reflexivity|].
  destruct (g x); simpl; [destruct (f x)|]; rewrite ?IH; reflexivity.
Qed.

Lemma filter_not_in_snoc {A} (key : A -> nat) B b xs :
  List.filter (fun x => negb (key x =? b)%nat) (List.filter (fun x => not_in B (key x)) xs) =
  List.filter (fun x => not_in (B ++ [b]) (key x)) xs.
Proof.
  rewrite filter_filter_andb. apply filter_ext. intros x. unfold not_in.
  destruct (bool_decide_reflect (key x ∈ B ++ [b])) as [Hx|Hx];
    rewrite elem_of_app, list_elem_of_singleton in Hx;
    destruct (bool_decide_reflect (key x ∈ B)), (Nat.eqb_spec (key x) b);
    first [reflexivity | exfalso; tauto].
Qed.

Lemma filter_not_in_nil {A} (key : A -> nat) xs :
  List.filter (fun x => not_in [] (key x)) xs = xs.
Proof. induction xs as [|x xs IH]; simpl; [reflexivity|]. rewrite IH. reflexivity. Qed.
