(* ===== verification/Vector.v ===== *)
(** * Vectors and matrices of the engine's math library

    [btVector3] (Bullet) over [Q], with the operations [hair.cpp] uses
    ([+], [-], scaling), and the column-major [btScalar[16]] matrices of
    the engine with [Mat4_Mat4_mul].  Equality of vectors is the pointwise
    [Qeq]: [vec_eq] is an equivalence and every operation is [Proper] for
    it, so statements about computed vectors rewrite with setoid rewriting. *)

From S2P Require Import Prelude.
From Stdlib Require Import Setoid Morphisms.

(** ** [btVector3] *)

Record btVector3 := Vec3 { vx : Q; vy : Q; vz : Q }.

Definition vzero : btVector3 := Vec3 0 0 0.

(** [a + b], [a - b] and [a * k] ([operator*=] with a scalar). *)
Definition vadd (a b : btVector3) : btVector3 :=
  Vec3 (vx a + vx b) (vy a + vy b) (vz a + vz b).
Definition vsub (a b : btVector3) : btVector3 :=
  Vec3 (vx a - vx b) (vy a - vy b) (vz a - vz b).
Definition vscale (a : btVector3) (k : Q) : btVector3 :=
  Vec3 (vx a * k) (vy a * k) (vz a * k).

Definition vec_eq (a b : btVector3) : Prop :=
  vx a == vx b /\ vy a == vy b /\ vz a == vz b.

Definition vec_eqb (a b : btVector3) : bool :=
  Qeq_bool (vx a) (vx b) && Qeq_bool (vy a) (vy b) && Qeq_bool (vz a) (vz b).

Infix "+v" := vadd (at level 50, left associativity) : hair_scope.
Infix "-v" := vsub (at level 50, left associativity) : hair_scope.
Infix "*v" := vscale (at level 40, left associativity) : hair_scope.
Infix "=v=" := vec_eq (at level 70, no associativity) : hair_scope.

(** ** [btScalar[16]] matrices, column-major as OpenGL's *)

Definition mat4 := list Q.

Definition mat_at (m : mat4) (k : nat) : Q := nth k m 0.

(** [Mat4_Mat4_mul(result, src1, src2)]: [result = src1 * src2]. *)
Definition Mat4_Mat4_mul (src1 src2 : mat4) : mat4 :=
  map (fun k =>
         let c := (k / 4)%nat in
         let r := (k mod 4)%nat in
         fold_right Qplus 0
           (map (fun i => mat_at src1 (i * 4 + r) * mat_at src2 (c * 4 + i)) (seq 0 4)))
      (seq 0 16).

(** The translation column [m[12..14]] and the sample of the first row
    [m[0], m[4], m[8]] that [hair.cpp] reads out of a transform. *)
Definition mat_origin (m : mat4) : btVector3 :=
  Vec3 (mat_at m 12) (mat_at m 13) (mat_at m 14).

(** ** Setoid structure *)

#[export] Instance vec_eq_Equivalence : Equivalence vec_eq.
Proof.
  split.
  - intros a. repeat split; reflexivity.
  - intros a b (Hx & Hy & Hz). repeat split; symmetry; assumption.
  - intros a b c (Hx & Hy & Hz) (Hx' & Hy' & Hz').
    repeat split; etransitivity; eassumption.
Qed.

#[export] Instance vadd_Proper : Proper (vec_eq ==> vec_eq ==> vec_eq) vadd.
Proof.
  intros a a' (Ha1 & Ha2 & Ha3) b b' (Hb1 & Hb2 & Hb3).
  unfold vadd. repeat split; simpl; [rewrite Ha1, Hb1 | rewrite Ha2, Hb2 | rewrite Ha3, Hb3]; reflexivity.
Qed.

#[export] Instance vsub_Proper : Proper (vec_eq ==> vec_eq ==> vec_eq) vsub.
Proof.
  intros a a' (Ha1 & Ha2 & Ha3) b b' (Hb1 & Hb2 & Hb3).
  unfold vsub. repeat split; simpl; [rewrite Ha1, Hb1 | rewrite Ha2, Hb2 | rewrite Ha3, Hb3]; reflexivity.
Qed.

#[export] Instance vscale_Proper : Proper (vec_eq ==> Qeq ==> vec_eq) vscale.
Proof.
  intros a a' (Ha1 & Ha2 & Ha3) k k' Hk.
  unfold vscale. repeat split; simpl; [rewrite Ha1 | rewrite Ha2 | rewrite Ha3]; rewrite Hk; reflexivity.
Qed.

Lemma vec_eqb_spec a b : vec_eqb a b = true <-> a =v= b.
Proof.
  unfold vec_eqb, vec_eq. rewrite !andb_true_iff, !Qeq_bool_iff. tauto.
Qed.

#[export] Instance vec_eq_dec : RelDecision vec_eq.
Proof.
  intros a b. destruct (vec_eqb a b) eqn:E.
  - left. apply vec_eqb_spec, E.
  - right. intros H%vec_eqb_spec. congruence.
Defined.

(** Componentwise vector identities, closed by [ring] on each axis. *)
Ltac vec_ring := unfold vec_eq, vadd, vsub, vscale, vzero; simpl; repeat split; ring.

Lemma vsub_diag a : a -v a =v= vzero.
Proof. vec_ring. Qed.

Lemma vscale_zero k : vzero *v k =v= vzero.
Proof. vec_ring. Qed.

Lemma vadd_zero_l a : vzero +v a =v= a.
Proof. vec_ring. Qed.

#[export] Hint Resolve vsub_diag vscale_zero vadd_zero_l : hair.
