(* ===== verification/Engine.v ===== *)
(** * The collaborators of [hair.cpp]

    None of this is under [src/]: it is modelled from the spec (section 6,
    "External interfaces") and keeps only what [hair.cpp] reads or writes.
    - The C++ heap, a [gmap] from addresses to the objects that [new] or
      [Container_Create] allocate: rigid bodies, their motion states,
      collision shapes, 6-DOF constraints and engine containers.  An
      address is never reused.  [delete]/[free] remove the object.
    - The dynamics world [bt_engine_dynamicsWorld]: the ordered lists of
      registered bodies (with collision group and mask) and constraints
      (with the flag that disables collisions between linked bodies), and
      the world gravity.
    - The entities and the skeletal models of [engine_world].
    - The [Collaborators] type class: the pure functions of the engine and
      of Bullet that [hair.cpp] calls ([M_PI], [btCos], [btSin],
      [calculateLocalInertia], [Room_FindPosCogerrence]).  Their
      implementation is not modelled; only [0 < M_PI] is assumed. *)

From S2P Require Import Prelude Vector.

(** ** Bullet objects *)

(** [btCollisionObject]'s activation states. *)
Inductive activation_state :=
| ACTIVE_TAG | ISLAND_SLEEPING | WANTS_DEACTIVATION | DISABLE_DEACTIVATION | DISABLE_SIMULATION.

(** The collision filter values that [hair.cpp] passes to [addRigidBody]. *)
Inductive collision_group := COLLISION_GROUP_KINEMATIC.
Inductive collision_mask := COLLISION_MASK_NONE.

(** [BT_CSfromMesh(mesh, ...)]: a collision shape built from a mesh. *)
Record btCollisionShape := { shape_mesh_id : nat }.

(** A [btRigidBody], with the fields that [hair.cpp] sets.  [rb_static] is
    Bullet's [CF_STATIC_OBJECT] flag, which the constructor sets when the
    mass is zero. *)
Record btRigidBody := {
  rb_mass : Q;
  rb_motion_state : nat;
  rb_shape : nat;
  rb_local_inertia : btVector3;
  rb_static : bool;
  rb_gravity : btVector3;
  rb_lin_damping : Q;
  rb_ang_damping : Q;
  rb_restitution : Q;
  rb_friction : Q;
  rb_activation : activation_state;
  rb_lin_vel : btVector3;
  rb_ang_vel : btVector3 }.

(** [btTransform] as [hair.cpp] builds it: [setIdentity], then [setOrigin]
    and [getBasis().setEulerZYX(z, y, x)]; the basis is kept as its Euler
    angles. *)
Record btTransform := { tr_origin : btVector3; tr_euler_zyx : btVector3 }.

Definition transform_identity : btTransform := {| tr_origin := vzero; tr_euler_zyx := vzero |}.

(** A [btGeneric6DofConstraint] between bodies [c_rbA] and [c_rbB].  The
    six per-axis stop parameters and the limits are [None] while they keep
    Bullet's default. *)
Record btGeneric6DofConstraint := {
  c_rbA : nat;
  c_rbB : nat;
  c_frameInA : btTransform;
  c_frameInB : btTransform;
  c_useLinearReferenceFrameA : bool;
  c_stop_cfm : list (option Q);
  c_stop_erp : list (option Q);
  c_linear_lower : option btVector3;
  c_linear_upper : option btVector3;
  c_angular_lower : option btVector3;
  c_angular_upper : option btVector3;
  c_solver_iterations : option Z;
  c_dbg_draw_size : option Q }.

(** Engine object kinds, [container->object_type]. *)
Inductive object_type := OBJECT_STATIC_MESH | OBJECT_ROOM_BASE | OBJECT_ENTITY | OBJECT_HAIR | OBJECT_BULLET_MISC.

(** [engine_container_t]: the scene handle of an object. *)
Record engine_container := { cont_room : option nat; cont_object_type : option object_type }.

Inductive heap_obj :=
| OBody (b : btRigidBody)
| OMotionState (tr : mat4)
| OShape (s : btCollisionShape)
| OJoint (c : btGeneric6DofConstraint)
| OContainer (c : engine_container).

(** ** Entities and models of [engine_world] *)

Record ss_bone_tag := { full_transform : mat4 }.

(** An entity: its world [transform], its skeleton's bone tags [bf.bone_tags]
    ([bf.bone_tag_count] is their number) and the bodies [bt_body] of its
    bones, as heap addresses ([None] is NULL). *)
Record entity := {
  e_transform : mat4;
  e_bone_tags : list ss_bone_tag;
  e_bt_body : list (option nat) }.

Definition bone_tag_count (e : entity) : nat := length (e_bone_tags e).

(** A mesh and its bounding box.  [bb_min] and [bb_max] are [btScalar[3]]
    fields that follow each other in [base_mesh_s]; [bm_after_bb_max] is
    the scalar stored right after [bb_max].  [bb_min_at] and [bb_max_at]
    read [bb_min[k]] and [bb_max[k]] through that layout, index 3 included. *)
Record base_mesh := {
  mesh_id : nat;
  bb_min : btVector3;
  bb_max : btVector3;
  bm_after_bb_max : Q }.

Definition vec_at (v : btVector3) (k : nat) : Q :=
  match k with O => vx v | S O => vy v | _ => vz v end.

Definition bb_min_at (m : base_mesh) (k : nat) : Q :=
  if (k <? 3)%nat then vec_at (bb_min m) k else vx (bb_max m).

Definition bb_max_at (m : base_mesh) (k : nat) : Q :=
  if (k <? 3)%nat then vec_at (bb_max m) k else bm_after_bb_max m.

Record mesh_tree_tag := { mesh_base : base_mesh }.

Record skeletal_model := { mesh_count : nat; mesh_tree : list mesh_tree_tag }.

(** ** The engine state *)

Record engine := {
  heap : gmap nat heap_obj;
  next_addr : nat;
  world_bodies : list (nat * collision_group * collision_mask);
  world_constraints : list (nat * bool);
  world_gravity : btVector3;
  entities : gmap nat entity;
  models : gmap Z skeletal_model }.

(** Record updates of the engine. *)
Definition set_heap (e : engine) (h : gmap nat heap_obj) (n : nat) : engine :=
  {| heap := h; next_addr := n; world_bodies := world_bodies e;
     world_constraints := world_constraints e; world_gravity := world_gravity e;
     entities := entities e; models := models e |}.

Definition set_world (e : engine) (wb : list (nat * collision_group * collision_mask))
    (wc : list (nat * bool)) : engine :=
  {| heap := heap e; next_addr := next_addr e; world_bodies := wb;
     world_constraints := wc; world_gravity := world_gravity e;
     entities := entities e; models := models e |}.

(** [new T(...)]: the object at the next free address. *)
Definition heap_alloc (e : engine) (o : heap_obj) : nat * engine :=
  (next_addr e, set_heap e (<[next_addr e := o]> (heap e)) (S (next_addr e))).

Definition heap_write (e : engine) (l : nat) (o : heap_obj) : engine :=
  set_heap e (<[l := o]> (heap e)) (next_addr e).

(** [delete p] / [free(p)]. *)
Definition heap_free (e : engine) (l : nat) : engine :=
  set_heap e (delete l (heap e)) (next_addr e).

(** [World_GetModelByID(&engine_world, id)]. *)
Definition World_GetModelByID (e : engine) (id : Z) : option skeletal_model :=
  models e !! id.

(** ** The Bullet calls *)

(** [new btRigidBody(mass, motionState, shape, localInertia)]: Bullet's
    defaults for every field the construction info does not set. *)
Definition new_btRigidBody (mass : Q) (ms shape : nat) (inertia : btVector3) : btRigidBody :=
  {| rb_mass := mass; rb_motion_state := ms; rb_shape := shape;
     rb_local_inertia := inertia; rb_static := Qeq_bool mass 0;
     rb_gravity := vzero; rb_lin_damping := 0; rb_ang_damping := 0;
     rb_restitution := 0; rb_friction := 1 # 2; rb_activation := ACTIVE_TAG;
     rb_lin_vel := vzero; rb_ang_vel := vzero |}.

Definition rb_with (b : btRigidBody) (g : btVector3) (ld ad rest fr : Q)
    (act : activation_state) (lv : btVector3) : btRigidBody :=
  {| rb_mass := rb_mass b; rb_motion_state := rb_motion_state b; rb_shape := rb_shape b;
     rb_local_inertia := rb_local_inertia b; rb_static := rb_static b;
     rb_gravity := g; rb_lin_damping := ld; rb_ang_damping := ad;
     rb_restitution := rest; rb_friction := fr; rb_activation := act;
     rb_lin_vel := lv; rb_ang_vel := rb_ang_vel b |}.

Definition setGravity (b : btRigidBody) (g : btVector3) : btRigidBody :=
  rb_with b g (rb_lin_damping b) (rb_ang_damping b) (rb_restitution b) (rb_friction b)
    (rb_activation b) (rb_lin_vel b).
Definition setDamping (b : btRigidBody) (lin ang : Q) : btRigidBody :=
  rb_with b (rb_gravity b) lin ang (rb_restitution b) (rb_friction b) (rb_activation b) (rb_lin_vel b).
Definition setRestitution (b : btRigidBody) (r : Q) : btRigidBody :=
  rb_with b (rb_gravity b) (rb_lin_damping b) (rb_ang_damping b) r (rb_friction b)
    (rb_activation b) (rb_lin_vel b).
Definition setFriction (b : btRigidBody) (f : Q) : btRigidBody :=
  rb_with b (rb_gravity b) (rb_lin_damping b) (rb_ang_damping b) (rb_restitution b) f
    (rb_activation b) (rb_lin_vel b).
Definition forceActivationState (b : btRigidBody) (a : activation_state) : btRigidBody :=
  rb_with b (rb_gravity b) (rb_lin_damping b) (rb_ang_damping b) (rb_restitution b)
    (rb_friction b) a (rb_lin_vel b).
Definition setLinearVelocity (b : btRigidBody) (v : btVector3) : btRigidBody :=
  rb_with b (rb_gravity b) (rb_lin_damping b) (rb_ang_damping b) (rb_restitution b)
    (rb_friction b) (rb_activation b) v.

(** [activate()]: back to [ACTIVE_TAG] unless deactivation or simulation is
    disabled, and never for a static object. *)
Definition activate (b : btRigidBody) : btRigidBody :=
  match rb_activation b with
  | DISABLE_DEACTIVATION | DISABLE_SIMULATION => b
  | _ => if rb_static b then b else forceActivationState b ACTIVE_TAG
  end.

(** [addRigidBody(body, group, mask)]: a non-static body receives the world
    gravity, then the body is appended to the world's collision objects. *)
Definition addRigidBody (e : engine) (l : nat) (g : collision_group) (m : collision_mask) : engine :=
  let e' := match heap e !! l with
            | Some (OBody b) =>
                if rb_static b then e else heap_write e l (OBody (setGravity b (world_gravity e)))
            | _ => e
            end in
  set_world e' (world_bodies e' ++ [(l, g, m)]) (world_constraints e').

Definition removeRigidBody (e : engine) (l : nat) : engine :=
  set_world e (List.filter (fun x => negb (x.1.1 =? l)%nat) (world_bodies e))
    (world_constraints e).

Definition addConstraint (e : engine) (l : nat) (disable : bool) : engine :=
  set_world e (world_bodies e) (world_constraints e ++ [(l, disable)]).

Definition removeConstraint (e : engine) (l : nat) : engine :=
  set_world e (world_bodies e)
    (List.filter (fun x => negb (x.1 =? l)%nat) (world_constraints e)).

(** [new btGeneric6DofConstraint(rbA, rbB, frameInA, frameInB, useLinearReferenceFrameA)]. *)
Definition new_btGeneric6DofConstraint (a b : nat) (fa fb : btTransform) (linA : bool)
    : btGeneric6DofConstraint :=
  {| c_rbA := a; c_rbB := b; c_frameInA := fa; c_frameInB := fb;
     c_useLinearReferenceFrameA := linA;
     c_stop_cfm := replicate 6 None; c_stop_erp := replicate 6 None;
     c_linear_lower := None; c_linear_upper := None;
     c_angular_lower := None; c_angular_upper := None;
     c_solver_iterations := None; c_dbg_draw_size := None |}.

Inductive constraint_param := BT_CONSTRAINT_STOP_CFM | BT_CONSTRAINT_STOP_ERP.

(** [setParam(num, value, axis)] for an axis in [0 .. 5]. *)
Definition setParam (c : btGeneric6DofConstraint) (p : constraint_param) (v : Q) (axis : nat)
    : btGeneric6DofConstraint :=
  {| c_rbA := c_rbA c; c_rbB := c_rbB c; c_frameInA := c_frameInA c; c_frameInB := c_frameInB c;
     c_useLinearReferenceFrameA := c_useLinearReferenceFrameA c;
     c_stop_cfm := if p is BT_CONSTRAINT_STOP_CFM then <[axis := Some v]> (c_stop_cfm c) else c_stop_cfm c;
     c_stop_erp := if p is BT_CONSTRAINT_STOP_ERP then <[axis := Some v]> (c_stop_erp c) else c_stop_erp c;
     c_linear_lower := c_linear_lower c; c_linear_upper := c_linear_upper c;
     c_angular_lower := c_angular_lower c; c_angular_upper := c_angular_upper c;
     c_solver_iterations := c_solver_iterations c; c_dbg_draw_size := c_dbg_draw_size c |}.

(** The limit setters, [setOverrideNumSolverIterations] and [setDbgDrawSize]. *)
Definition set_limits (c : btGeneric6DofConstraint) (ll lu al au : btVector3) (iters : option Z)
    (dbg : Q) : btGeneric6DofConstraint :=
  {| c_rbA := c_rbA c; c_rbB := c_rbB c; c_frameInA := c_frameInA c; c_frameInB := c_frameInB c;
     c_useLinearReferenceFrameA := c_useLinearReferenceFrameA c;
     c_stop_cfm := c_stop_cfm c; c_stop_erp := c_stop_erp c;
     c_linear_lower := Some ll; c_linear_upper := Some lu;
     c_angular_lower := Some al; c_angular_upper := Some au;
     c_solver_iterations := if iters is Some n then Some n else c_solver_iterations c;
     c_dbg_draw_size := Some dbg |}.

(** [Container_Create()]: a fresh container with no room and no type. *)
Definition Container_Create_obj : engine_container :=
  {| cont_room := None; cont_object_type := None |}.

(** ** The interface to the engine's pure functions *)

Class Collaborators := {
  M_PI : Q;
  M_PI_pos : 0 < M_PI;
  btCos : Q -> Q;
  btSin : Q -> Q;
  (** [shape->calculateLocalInertia(mass, inertia)] *)
  calculateLocalInertia : btCollisionShape -> Q -> btVector3;
  (** [Room_FindPosCogerrence(pos, room)] *)
  Room_FindPosCogerrence : btVector3 -> option nat -> option nat
}.

(** [M_PI_2] and Bullet's [SIMD_HALF_PI]: both are half of pi. *)
Definition M_PI_2 `{Collaborators} : Q := M_PI / 2.
Definition SIMD_HALF_PI `{Collaborators} : Q := M_PI * (1 # 2).

(** [BT_CSfromMesh(mesh, true, true, false)]. *)
Definition BT_CSfromMesh (m : base_mesh) : btCollisionShape := {| shape_mesh_id := mesh_id m |}.

(** ** Heap lemmas shared by the components *)

Lemma heap_alloc_lookup e o l :
  heap (heap_alloc e o).2 !! l = if decide (l = next_addr e) then Some o else heap e !! l.
Proof. simpl. rewrite lookup_insert. repeat case_decide; congruence. Qed.

Lemma heap_write_lookup e l o l' :
  heap (heap_write e l o) !! l' = if decide (l' = l) then Some o else heap e !! l'.
Proof. simpl. rewrite lookup_insert. repeat case_decide; congruence. Qed.

Lemma heap_free_lookup e l l' :
  heap (heap_free e l) !! l' = if decide (l' = l) then None else heap e !! l'.
Proof. simpl. rewrite lookup_delete. repeat case_decide; congruence. Qed.

Lemma addRigidBody_body e l b g m :
  heap e !! l = Some (OBody b) ->
  addRigidBody e l g m =
    set_world (if rb_static b then e else heap_write e l (OBody (setGravity b (world_gravity e))))
      (world_bodies e ++ [(l, g, m)]) (world_constraints e).
Proof. intros Hl. unfold addRigidBody. rewrite Hl. destruct (rb_static b); reflexivity. Qed.

Lemma set_world_heap e wb wc : heap (set_world e wb wc) = heap e.
Proof. reflexivity. Qed.
