(* ===== verification/Hair.v ===== *)
(** * The structures of [hair.h] and the state of the entry points

    [hair.h] is not under [src/]: the fields below are the ones [hair.cpp]
    reads and writes, with the meaning the spec gives them (section 3).
    Arrays that [calloc] allocates ([elements], [joints]) are kept as lists
    held by the hair; the empty list stands for NULL.  The hair itself is
    reached through a pointer: [hr] is [None] when that pointer is NULL.

    The state [st] pairs the engine with the hair.  The primitives at the
    end ([get_hair], [alloc], [read_body], ...) lift the engine operations
    into the monad [M st]; a NULL or dangling pointer, or a read out of an
    array's range, is [Undefined]. *)

From S2P Require Import Prelude Vector Engine.

(** [hair_element_t]: the mesh, collision shape and body of one segment. *)
Record hair_element_t := { he_mesh : option base_mesh; he_shape : option nat; he_body : option nat }.

(** A [calloc]ed element: all pointers NULL. *)
Definition hair_element_zero : hair_element_t := {| he_mesh := None; he_shape := None; he_body := None |}.

Record hair_t := {
  container : option nat;
  owner_char : option nat;
  owner_body : Z;
  owner_char_pos : btVector3;
  owner_char_ang : btVector3;
  owner_body_pos : btVector3;
  owner_body_ang : btVector3;
  root_index : nat;
  tail_index : nat;
  element_count : nat;
  elements : list hair_element_t;
  joint_count : nat;
  joints : list (option nat) }.

(** [hair_setup_t]: the configuration that [Hair_GetSetup] fills. *)
Record hair_setup_t := {
  model : Z;
  link_body : Z;
  vertex_map_count : Z;
  root_weight : Q;
  tail_weight : Q;
  hair_damping : Q * Q;
  hair_inertia : Q;
  hair_friction : Q;
  hair_restitution : Q;
  joints_per_body : Z;
  joint_overlap : Q;
  joint_radius : Q;
  joint_cfm : Q;
  joint_erp : Q;
  head_offset : btVector3;
  root_angle : btVector3;
  head_vertex_map : gmap Z Z }.

(** A zero-filled [hair_t], as a [calloc]ed hair is before [Hair_Create]. *)
Definition hair_zero : hair_t :=
  {| container := None; owner_char := None; owner_body := 0;
     owner_char_pos := vzero; owner_char_ang := vzero;
     owner_body_pos := vzero; owner_body_ang := vzero;
     root_index := 0; tail_index := 0; element_count := 0; elements := [];
     joint_count := 0; joints := [] |}.

(** ** The state of the entry points *)

Record st := { eng : engine; hr : option hair_t }.

Definition set_eng (s : st) (e : engine) : st := {| eng := e; hr := hr s |}.
Definition set_hr (s : st) (h : hair_t) : st := {| eng := eng s; hr := Some h |}.

(** [hair->...]: reading through the hair pointer. *)
Definition get_hair : M st hair_t := fun s => deref "hair" (hr s) s.

Definition put_hair (h : hair_t) : M st unit := mmodify (fun s => set_hr s h).

Definition get_eng : M st engine := fun s => Returns (eng s, s).

Definition modify_eng (f : engine -> engine) : M st unit := mmodify (fun s => set_eng s (f (eng s))).

(** [new T(...)] *)
Definition alloc (o : heap_obj) : M st nat :=
  fun s => let '(l, e') := heap_alloc (eng s) o in Returns (l, set_eng s e').

(** [*p] for a body or a constraint; anything else is undefined. *)
Definition read_body (l : nat) : M st btRigidBody :=
  fun s => match heap (eng s) !! l with
           | Some (OBody b) => Returns (b, s)
           | _ => Undefined "body pointer"
           end.

Definition read_joint (l : nat) : M st btGeneric6DofConstraint :=
  fun s => match heap (eng s) !! l with
           | Some (OJoint c) => Returns (c, s)
           | _ => Undefined "constraint pointer"
           end.

Definition read_container (l : nat) : M st engine_container :=
  fun s => match heap (eng s) !! l with
           | Some (OContainer c) => Returns (c, s)
           | _ => Undefined "container pointer"
           end.

(** [p->method(...)] on a body, a constraint or a container. *)
Definition update_body (l : nat) (f : btRigidBody -> btRigidBody) : M st unit :=
  do b <- read_body l; modify_eng (fun e => heap_write e l (OBody (f b))).

Definition update_joint (l : nat) (f : btGeneric6DofConstraint -> btGeneric6DofConstraint) : M st unit :=
  do c <- read_joint l; modify_eng (fun e => heap_write e l (OJoint (f c))).

Definition update_container (l : nat) (f : engine_container -> engine_container) : M st unit :=
  do c <- read_container l; modify_eng (fun e => heap_write e l (OContainer (f c))).

(** [hair->owner_char]: the entity behind the owner pointer. *)
Definition get_owner (h : hair_t) : M st entity :=
  fun s => match owner_char h with
           | Some p => deref "owner_char" (entities (eng s) !! p) s
           | None => Undefined "owner_char is NULL"
           end.

(** ** Field updates of the hair *)

Definition hair_set_elements (h : hair_t) (els : list hair_element_t) : hair_t :=
  {| container := container h; owner_char := owner_char h; owner_body := owner_body h;
     owner_char_pos := owner_char_pos h; owner_char_ang := owner_char_ang h;
     owner_body_pos := owner_body_pos h; owner_body_ang := owner_body_ang h;
     root_index := root_index h; tail_index := tail_index h; element_count := element_count h;
     elements := els; joint_count := joint_count h; joints := joints h |}.

Definition hair_set_joints (h : hair_t) (jc : nat) (js : list (option nat)) : hair_t :=
  {| container := container h; owner_char := owner_char h; owner_body := owner_body h;
     owner_char_pos := owner_char_pos h; owner_char_ang := owner_char_ang h;
     owner_body_pos := owner_body_pos h; owner_body_ang := owner_body_ang h;
     root_index := root_index h; tail_index := tail_index h; element_count := element_count h;
     elements := elements h; joint_count := jc; joints := js |}.

Definition hair_set_pose (h : hair_t) (cp ca bp ba : btVector3) : hair_t :=
  {| container := container h; owner_char := owner_char h; owner_body := owner_body h;
     owner_char_pos := cp; owner_char_ang := ca; owner_body_pos := bp; owner_body_ang := ba;
     root_index := root_index h; tail_index := tail_index h; element_count := element_count h;
     elements := elements h; joint_count := joint_count h; joints := joints h |}.

(** [hair->elements[i].field = v]: an in-range store into the array, and
    undefined behaviour out of range. *)
Definition set_element (i : nat) (f : hair_element_t -> hair_element_t) : M st unit :=
  do h <- get_hair;
  do el <- deref "elements[i]" (elements h !! i);
  put_hair (hair_set_elements h (<[i := f el]> (elements h))).

Definition element_at (h : hair_t) (i : nat) : M st hair_element_t :=
  deref "elements[i]" (elements h !! i).

Definition joint_at (h : hair_t) (i : nat) : M st (option nat) :=
  deref "joints[i]" (joints h !! i).

(** [hair->joints[k] = p] *)
Definition set_joint (k : nat) (p : option nat) : M st unit :=
  do h <- get_hair;
  do _ <- joint_at h k;
  put_hair (hair_set_joints h (joint_count h) (<[k := p]> (joints h))).

(** [p->field] for the entity at address [p]. *)
Definition deref_entity (p : nat) : M st entity :=
  fun s => deref "entity pointer" (entities (eng s) !! p) s.

(** ** Lemmas on the primitives *)

Lemma get_hair_run s h : hr s = Some h -> get_hair s = Returns (h, s).
Proof. unfold get_hair. intros ->. reflexivity. Qed.

Lemma alloc_run o s :
  alloc o s = Returns (next_addr (eng s), set_eng s (heap_alloc (eng s) o).2).
Proof. reflexivity. Qed.

Lemma read_body_run l b s : heap (eng s) !! l = Some (OBody b) -> read_body l s = Returns (b, s).
Proof. unfold read_body. intros ->. reflexivity. Qed.

Lemma read_joint_run l c s : heap (eng s) !! l = Some (OJoint c) -> read_joint l s = Returns (c, s).
Proof. unfold read_joint. intros ->. reflexivity. Qed.

Lemma update_body_run l b f s :
  heap (eng s) !! l = Some (OBody b) ->
  update_body l f s = Returns (tt, set_eng s (heap_write (eng s) l (OBody (f b)))).
Proof. intros H. unfold update_body. rewrite (Mbind_Returns _ _ _ _ _ (read_body_run _ _ _ H)). reflexivity. Qed.

Lemma update_joint_run l c f s :
  heap (eng s) !! l = Some (OJoint c) ->
  update_joint l f s = Returns (tt, set_eng s (heap_write (eng s) l (OJoint (f c)))).
Proof. intros H. unfold update_joint. rewrite (Mbind_Returns _ _ _ _ _ (read_joint_run _ _ _ H)). reflexivity. Qed.

#[export] Hint Resolve get_hair_run read_body_run read_joint_run : hair.

(** ** [wp] rules of the primitives

    The rules are stated on a state written field by field ([mkst]), so that
    each statement rewrites one field and the state term grows linearly
    along a run. *)

Definition mkst (hp : gmap nat heap_obj) (na : nat) (wb : list (nat * collision_group * collision_mask))
    (wc : list (nat * bool)) (g : btVector3) (en : gmap nat entity) (md : gmap Z skeletal_model)
    (h : option hair_t) : st :=
  {| eng := {| heap := hp; next_addr := na; world_bodies := wb; world_constraints := wc;
               world_gravity := g; entities := en; models := md |}; hr := h |}.

Lemma st_eta s :
  s = mkst (heap (eng s)) (next_addr (eng s)) (world_bodies (eng s)) (world_constraints (eng s))
           (world_gravity (eng s)) (entities (eng s)) (models (eng s)) (hr s).
Proof. destruct s as [[] ?]. reflexivity. Qed.

Section WpPrimitives.
Implicit Types (hp : gmap nat heap_obj) (na : nat) (wb : list (nat * collision_group * collision_mask))
  (wc : list (nat * bool)) (g : btVector3) (en : gmap nat entity) (md : gmap Z skeletal_model).

Lemma wp_get_hair (Q : hair_t -> st -> Prop) hp na wb wc g en md h :
  Q h (mkst hp na wb wc g en md (Some h)) -> wp get_hair Q (mkst hp na wb wc g en md (Some h)).
Proof. done. Qed.

Lemma wp_put_hair (Q : unit -> st -> Prop) hp na wb wc g en md oh h :
  Q tt (mkst hp na wb wc g en md (Some h)) -> wp (put_hair h) Q (mkst hp na wb wc g en md oh).
Proof. done. Qed.

Lemma wp_get_eng (Q : engine -> st -> Prop) hp na wb wc g en md oh :
  Q (eng (mkst hp na wb wc g en md oh)) (mkst hp na wb wc g en md oh) ->
  wp get_eng Q (mkst hp na wb wc g en md oh).
Proof. done. Qed.

Lemma wp_alloc (Q : nat -> st -> Prop) o hp na wb wc g en md oh :
  Q na (mkst (<[na := o]> hp) (S na) wb wc g en md oh) -> wp (alloc o) Q (mkst hp na wb wc g en md oh).
Proof. done. Qed.

Lemma wp_update_body (Q : unit -> st -> Prop) l b f hp na wb wc g en md oh :
  hp !! l = Some (OBody b) ->
  Q tt (mkst (<[l := OBody (f b)]> hp) na wb wc g en md oh) ->
  wp (update_body l f) Q (mkst hp na wb wc g en md oh).
Proof. intros Hl HQ. unfold update_body, read_body, wp, Mbind. simpl. rewrite Hl. exact HQ. Qed.

Lemma wp_update_joint (Q : unit -> st -> Prop) l c f hp na wb wc g en md oh :
  hp !! l = Some (OJoint c) ->
  Q tt (mkst (<[l := OJoint (f c)]> hp) na wb wc g en md oh) ->
  wp (update_joint l f) Q (mkst hp na wb wc g en md oh).
Proof. intros Hl HQ. unfold update_joint, read_joint, wp, Mbind. simpl. rewrite Hl. exact HQ. Qed.

Lemma wp_update_container (Q : unit -> st -> Prop) l c f hp na wb wc g en md oh :
  hp !! l = Some (OContainer c) ->
  Q tt (mkst (<[l := OContainer (f c)]> hp) na wb wc g en md oh) ->
  wp (update_container l f) Q (mkst hp na wb wc g en md oh).
Proof. intros Hl HQ. unfold update_container, read_container, wp, Mbind. simpl. rewrite Hl. exact HQ. Qed.

Lemma wp_addRigidBody (Q : unit -> st -> Prop) l b gr mk hp na wb wc g en md oh :
  hp !! l = Some (OBody b) ->
  Q tt (mkst (if rb_static b then hp else <[l := OBody (setGravity b g)]> hp) na
             (wb ++ [(l, gr, mk)]) wc g en md oh) ->
  wp (modify_eng (fun e => addRigidBody e l gr mk)) Q (mkst hp na wb wc g en md oh).
Proof. intros Hl HQ. unfold modify_eng, wp, mmodify, addRigidBody. simpl. rewrite Hl. destruct (rb_static b); exact HQ. Qed.

Lemma wp_addConstraint (Q : unit -> st -> Prop) l dis hp na wb wc g en md oh :
  Q tt (mkst hp na wb (wc ++ [(l, dis)]) g en md oh) ->
  wp (modify_eng (fun e => addConstraint e l dis)) Q (mkst hp na wb wc g en md oh).
Proof. done. Qed.

Lemma wp_set_element (Q : unit -> st -> Prop) i f el h0 L hp na wb wc g en md :
  L !! i = Some el ->
  Q tt (mkst hp na wb wc g en md (Some (hair_set_elements h0 (<[i := f el]> L)))) ->
  wp (set_element i f) Q (mkst hp na wb wc g en md (Some (hair_set_elements h0 L))).
Proof. intros Hel HQ. unfold set_element, wp, Mbind, get_hair. simpl. rewrite Hel. exact HQ. Qed.

Lemma wp_element_at (Q : hair_element_t -> st -> Prop) h i el s :
  elements h !! i = Some el -> Q el s -> wp (element_at h i) Q s.
Proof. intros Hel HQ. unfold element_at. rewrite Hel. exact HQ. Qed.

Lemma wp_joint_at (Q : option nat -> st -> Prop) h i p s :
  joints h !! i = Some p -> Q p s -> wp (joint_at h i) Q s.
Proof. intros Hj HQ. unfold joint_at. rewrite Hj. exact HQ. Qed.

Lemma wp_set_joint (Q : unit -> st -> Prop) k p q h0 jc J hp na wb wc g en md :
  J !! k = Some q ->
  Q tt (mkst hp na wb wc g en md (Some (hair_set_joints h0 jc (<[k := p]> J)))) ->
  wp (set_joint k p) Q (mkst hp na wb wc g en md (Some (hair_set_joints h0 jc J))).
Proof. intros Hj HQ. unfold set_joint, joint_at, wp, Mbind, get_hair. simpl. rewrite Hj. exact HQ. Qed.

Lemma wp_deref_entity (Q : entity -> st -> Prop) p ent hp na wb wc g en md oh :
  en !! p = Some ent -> Q ent (mkst hp na wb wc g en md oh) ->
  wp (deref_entity p) Q (mkst hp na wb wc g en md oh).
Proof. intros He HQ. unfold deref_entity, wp. simpl. rewrite He. exact HQ. Qed.

Lemma wp_get_owner (Q : entity -> st -> Prop) h p ent hp na wb wc g en md oh :
  owner_char h = Some p -> en !! p = Some ent -> Q ent (mkst hp na wb wc g en md oh) ->
  wp (get_owner h) Q (mkst hp na wb wc g en md oh).
Proof. intros Hp He HQ. unfold get_owner, wp. rewrite Hp. simpl. rewrite He. exact HQ. Qed.
End WpPrimitives.

(** One statement of an entry point, forward, chosen by the head of the
    statement; the side conditions that need the caller's facts are left
    as goals. *)
Ltac hstep :=
  match goal with
  | |- wp (Mbind _ _) _ _ => apply wp_bind
  | |- wp (Mret _) _ _ => apply wp_ret
  | |- wp get_hair _ (mkst _ _ _ _ _ _ _ (Some _)) => apply wp_get_hair
  | |- wp (put_hair _) _ _ => apply wp_put_hair
  | |- wp get_eng _ _ => apply wp_get_eng
  | |- wp (alloc _) _ _ => apply wp_alloc
  | |- wp (modify_eng (fun e => addConstraint e _ _)) _ _ => apply wp_addConstraint
  | |- wp (deref _ _) _ _ => eapply wp_deref; [simpl; reflexivity |]
  end.

(** ** Views of a state

    What the hair's slots point to: the body of element [i], its motion
    state, and joint [k], as objects of the heap. *)
Definition heap_body (e : engine) (a : nat) : option btRigidBody :=
  match heap e !! a with Some (OBody b) => Some b | _ => None end.

Definition heap_joint (e : engine) (a : nat) : option btGeneric6DofConstraint :=
  match heap e !! a with Some (OJoint c) => Some c | _ => None end.

Definition heap_motion (e : engine) (a : nat) : option mat4 :=
  match heap e !! a with Some (OMotionState tr) => Some tr | _ => None end.

Definition hair_body (s : st) (i : nat) : option btRigidBody :=
  match hr s with
  | Some h => match elements h !! i with
              | Some {| he_body := Some a |} => heap_body (eng s) a
              | _ => None
              end
  | None => None
  end.

Definition hair_motion (s : st) (i : nat) : option mat4 :=
  match hair_body s i with Some b => heap_motion (eng s) (rb_motion_state b) | None => None end.

Definition hair_joint (s : st) (k : nat) : option btGeneric6DofConstraint :=
  match hr s with
  | Some h => match joints h !! k with Some (Some a) => heap_joint (eng s) a | _ => None end
  | None => None
  end.

Lemma hair_set_elements_eta h : hair_set_elements h (elements h) = h.
Proof. destruct h; reflexivity. Qed.

(** The address in [elements[i].body]. *)
Definition element_body_addr (h : hair_t) (i : nat) : option nat :=
  match elements h !! i with Some e => he_body e | None => None end.

(** ** Releasing objects *)

(** [delete p] on an object of the heap; deleting a pointer that names no
    object (never allocated, or already deleted) is undefined. *)
Definition delete_obj (l : nat) : M st unit :=
  fun s => match heap (eng s) !! l with
           | Some _ => Returns (tt, set_eng s (heap_free (eng s) l))
           | None => Undefined "delete of a dangling pointer"
           end.

(** [free(p)]: nothing on NULL. *)
Definition free_ptr (p : option nat) : M st unit :=
  match p with Some l => delete_obj l | None => Mret tt end.

(** [dynamicsWorld->removeConstraint(c)]: Bullet takes the constraint out
    of the world and out of the constraint lists of its two bodies, which
    it reaches through the constraint: both must still be bodies. *)
Definition world_removeConstraint (l : nat) : M st unit :=
  do c <- read_joint l;
  do _ <- read_body (c_rbA c);
  do _ <- read_body (c_rbB c);
  modify_eng (fun e => removeConstraint e l).

Section WpRelease.
Implicit Types (hp : gmap nat heap_obj) (na : nat) (wb : list (nat * collision_group * collision_mask))
  (wc : list (nat * bool)) (g : btVector3) (en : gmap nat entity) (md : gmap Z skeletal_model).

Lemma wp_delete_obj (Q : unit -> st -> Prop) l o hp na wb wc g en md oh :
  hp !! l = Some o -> Q tt (mkst (delete l hp) na wb wc g en md oh) ->
  wp (delete_obj l) Q (mkst hp na wb wc g en md oh).
Proof. intros Hl HQ. unfold delete_obj, wp. simpl. rewrite Hl. exact HQ. Qed.

Lemma ub_delete_obj l hp na wb wc g en md oh :
  hp !! l = None -> ub (delete_obj l) (mkst hp na wb wc g en md oh).
Proof. intros Hl. unfold delete_obj, ub. simpl. rewrite Hl. eauto. Qed.

Lemma wp_removeRigidBody (Q : unit -> st -> Prop) l hp na wb wc g en md oh :
  Q tt (mkst hp na (List.filter (fun x => negb (x.1.1 =? l)%nat) wb) wc g en md oh) ->
  wp (modify_eng (fun e => removeRigidBody e l)) Q (mkst hp na wb wc g en md oh).
Proof. done. Qed.

Lemma wp_world_removeConstraint (Q : unit -> st -> Prop) l c ba bb hp na wb wc g en md oh :
  hp !! l = Some (OJoint c) -> hp !! c_rbA c = Some (OBody ba) -> hp !! c_rbB c = Some (OBody bb) ->
  Q tt (mkst hp na wb (List.filter (fun x => negb (x.1 =? l)%nat) wc) g en md oh) ->
  wp (world_removeConstraint l) Q (mkst hp na wb wc g en md oh).
Proof.
  intros Hl Ha Hb HQ. unfold world_removeConstraint, read_joint, read_body, wp, Mbind. simpl.
  rewrite Hl. simpl. rewrite Ha. simpl. rewrite Hb. exact HQ.
Qed.

(** Removing a constraint one of whose bodies was deleted is undefined. *)
Lemma ub_world_removeConstraint_B l c hp na wb wc g en md oh :
  hp !! l = Some (OJoint c) -> hp !! c_rbB c = None -> (exists ba, hp !! c_rbA c = Some (OBody ba)) ->
  ub (world_removeConstraint l) (mkst hp na wb wc g en md oh).
Proof.
  intros Hl Hb [ba Ha]. unfold world_removeConstraint, read_joint, read_body, ub, Mbind. simpl.
  rewrite Hl. simpl. rewrite Ha. simpl. rewrite Hb. eauto.
Qed.
End WpRelease.
