(* ===== verification/HairCreate.v ===== *)
(** * [Hair_Create] (src/src/hair.cpp, lines 3-245)

    One definition per block of the function, composed as the function
    composes them:
    - [Hair_Create_guard]: the early returns of lines 7-15;
    - [Hair_Create_init]: the container and the fields of lines 19-52;
    - [Hair_Create_element]: one iteration of the body loop (lines 56-113),
      run by [Hair_Create_elements] under its [uint8_t] counter (line 54);
    - [Hair_Create_joints_alloc]: the joint array (lines 122-130);
    - [Hair_Create_joint]: one joint (lines 152-240), run [joints_per_body]
      times by [Hair_Create_joint_group] (lines 134-241), itself run by
      [Hair_Create_joints] under its [uint16_t] counter (line 132).
    The theorems are in [HairCreateProofs]. *)

From S2P Require Import Prelude Vector Engine Hair.

Section Create.
Context `{Collaborators}.

(** Lines 7-15: no parent, no setup, a link body out of the skeleton, no
    body at the link bone, or no model with meshes: return [false]. *)
Definition Hair_Create_guard (setup : option hair_setup_t) (parent_entity : option nat)
    : M st (option (hair_setup_t * nat * skeletal_model)) :=
  match parent_entity, setup with
  | Some pe, Some su =>
      do ent <- deref_entity pe;
      if (Z.of_nat (bone_tag_count ent) <=? link_body su)%Z then Mret None else
      do b <- deref "bt_body[link_body]" (e_bt_body ent !! Z.to_nat (link_body su));
      match b with
      | None => Mret None
      | Some _ =>
          do e <- get_eng;
          match World_GetModelByID e (model su) with
          | None => Mret None
          | Some m => if (mesh_count m =? 0)%nat then Mret None else Mret (Some (su, pe, m))
          end
      end
  | _, _ => Mret None
  end.

(** Lines 19-52: the container, the owner and its pose (position from
    [transform[12..14]], angle sample from [transform[0]], [[4]], [[8]]),
    the element array ([calloc]: every pointer NULL), the root and tail
    indices.  Returns [weight_step]. *)
Definition Hair_Create_init (setup : hair_setup_t) (pe : nat) (m : skeletal_model) : M st Q :=
  do cont <- alloc (OContainer Container_Create_obj);
  update_container cont (fun c => {| cont_room := None; cont_object_type := Some OBJECT_HAIR |}) ;;
  do h <- get_hair;
  do ent <- deref_entity pe;
  do bt <- deref "bone_tags[owner_body]" (e_bone_tags ent !! Z.to_nat (link_body setup));
  let t := e_transform ent in
  let ft := full_transform bt in
  let n := mesh_count m in
  put_hair {| container := Some cont; owner_char := Some pe; owner_body := link_body setup;
              owner_char_pos := Vec3 (mat_at t 12) (mat_at t 13) (mat_at t 14);
              owner_char_ang := Vec3 (mat_at t 0) (mat_at t 4) (mat_at t 8);
              owner_body_pos := Vec3 (mat_at ft 12) (mat_at ft 13) (mat_at ft 14);
              owner_body_ang := Vec3 (mat_at ft 0) (mat_at ft 4) (mat_at ft 8);
              root_index := 0; tail_index := n - 1;
              element_count := n; elements := replicate n hair_element_zero;
              joint_count := joint_count h; joints := joints h |} ;;
  Mret ((root_weight setup - tail_weight setup) / inject_Z (Z.of_nat n)).

(** Lines 56-113, iteration [i] of the body loop, with the local
    [current_weight] threaded through: mesh, shape, inertia from the weight
    before the decrement, body with the weight after it, gravity, damping,
    restitution, friction, activation, registration in the world. *)
Definition Hair_Create_element (setup : hair_setup_t) (m : skeletal_model) (weight_step : Q)
    (i : Z) (current_weight : Q) : M st Q :=
  let k := Z.to_nat i in
  do mt <- deref "mesh_tree[i]" (mesh_tree m !! k);
  set_element k (fun el => {| he_mesh := Some (mesh_base mt); he_shape := he_shape el;
                              he_body := he_body el |}) ;;
  do h <- get_hair;
  do el <- element_at h k;
  do mesh <- deref "elements[i].mesh" (he_mesh el);
  do sh <- alloc (OShape (BT_CSfromMesh mesh));
  set_element k (fun el => {| he_mesh := he_mesh el; he_shape := Some sh; he_body := he_body el |}) ;;
  let localInertia := calculateLocalInertia (BT_CSfromMesh mesh) (current_weight * hair_inertia setup) in
  let current_weight := current_weight - weight_step in
  do h <- get_hair;
  do owner <- get_owner h;
  do bt <- deref "bone_tags[root_index]" (e_bone_tags owner !! root_index h);
  let tr := Mat4_Mat4_mul (e_transform owner) (full_transform bt) in
  do ms <- alloc (OMotionState tr);
  do b <- alloc (OBody (new_btRigidBody current_weight ms sh localInertia));
  set_element k (fun el => {| he_mesh := he_mesh el; he_shape := he_shape el; he_body := Some b |}) ;;
  do e <- get_eng;
  update_body b (fun rb => setGravity rb (world_gravity e *v (1 # 10))) ;;
  update_body b (fun rb => setDamping rb (hair_damping setup).1 (hair_damping setup).2) ;;
  update_body b (fun rb => setRestitution rb (hair_restitution setup)) ;;
  update_body b (fun rb => setFriction rb (hair_friction setup)) ;;
  update_body b (fun rb => forceActivationState rb DISABLE_DEACTIVATION) ;;
  modify_eng (fun e => addRigidBody e b COLLISION_GROUP_KINEMATIC COLLISION_MASK_NONE) ;;
  update_body b activate ;;
  Mret current_weight.

(** Fuel of a loop over an [uintW_t] counter: one more than its range. *)
Definition loop_fuel (w : Z) : nat := S (Z.to_nat (2 ^ w)).

(** Line 54: [for(uint8_t i=0; i<hair->element_count; i++)]. *)
Definition Hair_Create_elements (setup : hair_setup_t) (m : skeletal_model) (weight_step : Q)
    : M st Q :=
  do h <- get_hair;
  for_loop 8 (Z.of_nat (element_count h)) (Hair_Create_element setup m weight_step)
    (loop_fuel 8) 0 (root_weight setup).

(** Lines 122-130: [joint_count], the [calloc]ed joint array, and
    [step = 2 * M_PI / joints_per_body]. *)
Definition Hair_Create_joints_alloc (setup : hair_setup_t) : M st Q :=
  do h <- get_hair;
  let jc := (element_count h * Z.to_nat (joints_per_body setup))%nat in
  put_hair (hair_set_joints h jc (replicate jc None)) ;;
  Mret ((M_PI * 2) / inject_Z (joints_per_body setup)).

(** Lines 195-207: the six stop CFM and the six stop ERP parameters. *)
Definition set_stop_params (c : btGeneric6DofConstraint) (cfm erp : Q) : btGeneric6DofConstraint :=
  let c := fold_left (fun c ax => setParam c BT_CONSTRAINT_STOP_CFM cfm ax) (seq 0 6) c in
  fold_left (fun c ax => setParam c BT_CONSTRAINT_STOP_ERP erp ax) (seq 0 6) c.

(** Lines 209-232: the limits of a joint of the first group and of any
    other joint (angular lower, angular upper, solver iterations). *)
Definition root_joint_limits : btVector3 * btVector3 * option Z :=
  (Vec3 (- SIMD_HALF_PI) 0 (- SIMD_HALF_PI * (4 # 10)),
   Vec3 (- SIMD_HALF_PI * (3 # 10)) 0 (SIMD_HALF_PI * (4 # 10)), Some 100%Z).

Definition chain_joint_limits : btVector3 * btVector3 * option Z :=
  (Vec3 (- SIMD_HALF_PI * (1 # 2)) 0 (- SIMD_HALF_PI * (1 # 2)),
   Vec3 (SIMD_HALF_PI * (1 # 2)) 0 (SIMD_HALF_PI * (1 # 2)), None).

(** Lines 152-156: the joint position on the circle, when there are
    several joints per body. *)
Definition joint_position (setup : hair_setup_t) (d body_width body_depth : Q) (jx jy : Q) : Q * Q :=
  if (1 <? joints_per_body setup)%Z then
    (btCos d * ((body_depth * (1 # 2)) * joint_radius setup),
     btSin d * ((body_width * (1 # 2)) * joint_radius setup))
  else (jx, jy).

(** Lines 158-185: the two frames and the previous body of joint group
    [i]. *)
Definition joint_frames (setup : hair_setup_t) (pe : nat) (i : Z) (jx jy : Q)
    : M st (btTransform * btTransform * option nat) :=
  if (i =? 0)%Z then
    do ent <- deref_entity pe;
    do h <- get_hair;
    do pb <- deref "bt_body[owner_body]" (e_bt_body ent !! Z.to_nat (owner_body h));
    Mret ({| tr_origin := head_offset setup +v Vec3 jx 0 jy; tr_euler_zyx := root_angle setup |},
          {| tr_origin := Vec3 jx 0 jy; tr_euler_zyx := Vec3 0 (- M_PI_2) 0 |}, pb)
  else
    do h <- get_hair;
    do prev <- element_at h (Z.to_nat (i - 1));
    do pm <- deref "elements[i-1].mesh" (he_mesh prev);
    let body_length := Qabs (bb_max_at pm 1 - bb_min_at pm 1) * joint_overlap setup in
    Mret ({| tr_origin := Vec3 jx body_length jy; tr_euler_zyx := Vec3 0 M_PI_2 0 |},
          {| tr_origin := Vec3 jx 0 jy; tr_euler_zyx := Vec3 0 M_PI_2 0 |}, he_body prev).

(** Lines 152-240, joint [j] of group [i], with the locals [d],
    [curr_joint], [joint_x] and [joint_y] threaded through.  The stop
    parameters go to [joints[i]] (lines 195-207); everything else goes to
    [joints[curr_joint]]. *)
Definition Hair_Create_joint (setup : hair_setup_t) (pe : nat) (step : Q) (i : Z)
    (body_width body_depth : Q) (j : Z) (acc : Q * nat * Q * Q) : M st (Q * nat * Q * Q) :=
  let '(d, curr_joint, jx0, jy0) := acc in
  let '(jx, jy) := joint_position setup d body_width body_depth jx0 jy0 in
  do '(localA, localB, prev_body) <- joint_frames setup pe i jx jy;
  do pb <- deref "*prev_body" prev_body;
  do h <- get_hair;
  do el <- element_at h (Z.to_nat i);
  do cb <- deref "*elements[i].body" (he_body el);
  do c <- alloc (OJoint (new_btGeneric6DofConstraint pb cb localA localB true));
  set_joint curr_joint (Some c) ;;
  do h <- get_hair;
  do ji <- joint_at h (Z.to_nat i);
  do ji <- deref "joints[i]" ji;
  update_joint ji (fun c => set_stop_params c (joint_cfm setup) (joint_erp setup)) ;;
  let '(al, au, iters) := if (i =? 0)%Z then root_joint_limits else chain_joint_limits in
  update_joint c (fun c => set_limits c vzero vzero al au iters 5) ;;
  modify_eng (fun e => addConstraint e c true) ;;
  Mret (d + step, S curr_joint, jx, jy).

(** Lines 134-241: group [i], with [curr_joint] threaded through: the
    width and depth of the mesh's box (read as [bb[0]] and [bb[3]]), then
    [for(int j=0; j<joints_per_body; j++, d += step)]. *)
Definition Hair_Create_joint_group (setup : hair_setup_t) (pe : nat) (step : Q) (i : Z)
    (curr_joint : nat) : M st nat :=
  do h <- get_hair;
  do el <- element_at h (Z.to_nat i);
  do mesh <- deref "elements[i].mesh" (he_mesh el);
  let body_width := Qabs (bb_max_at mesh 0 - bb_min_at mesh 0) in
  let body_depth := Qabs (bb_max_at mesh 3 - bb_min_at mesh 3) in
  do '(_, cj, _, _) <- iter_range (Hair_Create_joint setup pe step i body_width body_depth)
                          (Z.to_nat (joints_per_body setup)) 0 (0, curr_joint, 0, 0);
  Mret cj.

(** Line 132: [for(uint16_t i=0; i<hair->element_count; i++)]. *)
Definition Hair_Create_joints (setup : hair_setup_t) (pe : nat) (step : Q) : M st nat :=
  do h <- get_hair;
  for_loop 16 (Z.of_nat (element_count h)) (Hair_Create_joint_group setup pe step)
    (loop_fuel 16) 0 0%nat.

(** [bool Hair_Create(hair_p hair, hair_setup_p setup, entity_p parent_entity)]. *)
Definition Hair_Create (setup : option hair_setup_t) (parent_entity : option nat) : M st bool :=
  do g <- Hair_Create_guard setup parent_entity;
  match g with
  | None => Mret false
  | Some (su, pe, m) =>
      do weight_step <- Hair_Create_init su pe m;
      do _ <- Hair_Create_elements su m weight_step;
      do step <- Hair_Create_joints_alloc su;
      do _ <- Hair_Create_joints su pe step;
      Mret true
  end.
End Create.
