(* ===== verification/HairClear.v ===== *)
(** * [Hair_Clear] (src/src/hair.cpp, lines 247-293)

    The teardown, statement by statement: the element loop (lines 249-262)
    unregisters and deletes each body and deletes each shape; the element
    array is freed (263-265); the joint loop (267-275) unregisters and
    deletes each constraint; the joint array (276-278) and the container
    (280-281) are freed; the owner, the cached pose and the indices are
    reset (283-292).

    Both loops run an [int] counter from 0 to a count that the body does
    not change and that is at most [2^16] ([element_count] comes from a
    [uint8_t] loop, [joint_count] from a product of two bytes): they never
    overflow and are [iter_range] over the count read before the loop.

    The motion state each body was built with ([new btDefaultMotionState]
    at line 79) is never deleted; nothing here reaches it. *)

From S2P Require Import Prelude Vector Engine Hair.

(** An element with its body pointer set to NULL, and with its shape
    pointer set to NULL. *)
Definition element_drop_body (el : hair_element_t) : hair_element_t :=
  {| he_mesh := he_mesh el; he_shape := he_shape el; he_body := None |}.

Definition element_drop_shape (el : hair_element_t) : hair_element_t :=
  {| he_mesh := he_mesh el; he_shape := None; he_body := he_body el |}.

(** Lines 251-261, iteration [i] of the element loop. *)
Definition Hair_Clear_element (i : Z) (_ : unit) : M st unit :=
  let k := Z.to_nat i in
  do h <- get_hair;
  do el <- element_at h k;
  (match he_body el with
   | Some b =>
       modify_eng (fun e => removeRigidBody e b) ;;
       delete_obj b ;;
       set_element k element_drop_body
   | None => Mret tt
   end) ;;
  do h <- get_hair;
  do el <- element_at h k;
  match he_shape el with
  | Some sh => delete_obj sh ;; set_element k element_drop_shape
  | None => Mret tt
  end.

(** Lines 269-274, iteration [i] of the joint loop. *)
Definition Hair_Clear_joint (i : Z) (_ : unit) : M st unit :=
  let k := Z.to_nat i in
  do h <- get_hair;
  do jp <- joint_at h k;
  match jp with
  | Some c => world_removeConstraint c ;; delete_obj c ;; set_joint k None
  | None => Mret tt
  end.

(** Lines 263-265: [free(elements); elements = NULL; element_count = 0].
    The array itself is the hair's list; freeing it is dropping it. *)
Definition hair_drop_elements (h : hair_t) : hair_t :=
  {| container := container h; owner_char := owner_char h; owner_body := owner_body h;
     owner_char_pos := owner_char_pos h; owner_char_ang := owner_char_ang h;
     owner_body_pos := owner_body_pos h; owner_body_ang := owner_body_ang h;
     root_index := root_index h; tail_index := tail_index h; element_count := 0;
     elements := []; joint_count := joint_count h; joints := joints h |}.

(** Lines 281-292: the container pointer, the owner, the cached pose and
    the indices. *)
Definition hair_reset (h : hair_t) : hair_t :=
  {| container := None; owner_char := None; owner_body := 0;
     owner_char_pos := vzero; owner_char_ang := vzero;
     owner_body_pos := vzero; owner_body_ang := vzero;
     root_index := 0; tail_index := 0; element_count := element_count h;
     elements := elements h; joint_count := joint_count h; joints := joints h |}.

(** [void Hair_Clear(hair_p hair)]. *)
Definition Hair_Clear : M st unit :=
  do h <- get_hair;
  iter_range Hair_Clear_element (element_count h) 0 tt ;;
  do h <- get_hair;
  put_hair (hair_drop_elements h) ;;
  do h <- get_hair;
  iter_range Hair_Clear_joint (joint_count h) 0 tt ;;
  do h <- get_hair;
  put_hair (hair_set_joints h 0 []) ;;
  do h <- get_hair;
  free_ptr (container h) ;;
  do h <- get_hair;
  put_hair (hair_reset h).
