(* ===== verification/HairUpdate.v ===== *)
(** * [Hair_Update] (src/src/hair.cpp, lines 295-341)

    Once per frame the hair follows its owner: the owner's new pose is
    sampled from the entity's transform and from bone tag 14, the motion
    since the last frame is the difference with the pose the hair stored,
    and the mixed velocity, scaled by [-100], is given to the root body of
    the hair and to the owner's body.  The stored pose is replaced by the
    new one, and the container's room is looked up again from the new
    position.  The angular mix is computed but, as in the source, never
    applied (lines 335-336 are commented out). *)

From S2P Require Import Prelude Vector Engine Hair.

Section Update.
Context `{Collaborators}.

(** The angle sample of lines 305-306: [m[8]], [m[4]], [m[0]], in this
    order (the reverse of the sample [Hair_Create] stores, lines 31 and 34). *)
Definition mat_ang (m : mat4) : btVector3 := Vec3 (mat_at m 8) (mat_at m 4) (mat_at m 0).

(** Lines 310-325: the motion since the last frame, summed over the
    character and the body and scaled by [-100]. *)
Definition mix_vel (h : hair_t) (new_char_pos new_body_pos : btVector3) : btVector3 :=
  let char_vel := owner_char_pos h -v new_char_pos in
  let body_vel := owner_body_pos h -v new_body_pos in
  (char_vel +v body_vel) *v (-100).

Definition mix_ang (h : hair_t) (new_char_ang new_body_ang : btVector3) : btVector3 :=
  let char_ang := owner_char_ang h -v new_char_ang in
  let body_ang := owner_body_ang h -v new_body_ang in
  (char_ang +v body_ang) *v (-100).

(** [hair->container->room = Room_FindPosCogerrence(pos, hair->container->room)] *)
Definition set_room (pos : btVector3) (c : engine_container) : engine_container :=
  {| cont_room := Room_FindPosCogerrence pos (cont_room c); cont_object_type := cont_object_type c |}.

(** Lines 299-340, once the guard of line 297 has passed.  Every pointer
    the function follows is dereferenced: the owner, its bone tag 14, the
    root element and its body, the owner's body at [owner_body], and the
    container. *)
Definition Hair_Update_body (h : hair_t) : M st unit :=
  do ent <- get_owner h;
  do bt <- deref "bone_tags[14]" (e_bone_tags ent !! 14%nat);
  let new_char_pos := mat_origin (e_transform ent) in
  let new_body_pos := mat_origin (full_transform bt) in
  let new_char_ang := mat_ang (e_transform ent) in
  let new_body_ang := mat_ang (full_transform bt) in
  let mv := mix_vel h new_char_pos new_body_pos in
  put_hair (hair_set_pose h new_char_pos new_char_ang new_body_pos new_body_ang) ;;
  do el <- element_at h (root_index h);
  do rb <- deref "elements[root_index].body" (he_body el);
  update_body rb (fun b => setLinearVelocity b mv) ;;
  do ob <- deref "bt_body[owner_body]"
             (if (0 <=? owner_body h)%Z then e_bt_body ent !! Z.to_nat (owner_body h) else None);
  do ob <- deref "bt_body[owner_body] is NULL" ob;
  update_body ob (fun b => setLinearVelocity b mv) ;;
  do c <- deref "hair->container" (container h);
  update_container c (set_room new_char_pos).

(** Line 297: nothing to do for a NULL hair or a hair without elements. *)
Definition Hair_Update : M st unit :=
  fun s => match hr s with
           | None => Mret tt s
           | Some h => if (element_count h <? 1)%nat then Mret tt s else Hair_Update_body h s
           end.

End Update.
