(* ===== verification/LuaApi.v ===== *)
(** * The part of the Lua C API that [Hair_GetSetup] calls

    The engine's scripting state is not under [src/]: this file models,
    from the documented behaviour of the Lua 5 C API and of the engine's
    helpers [lua_CallAndLog] and [lua_GetScalarField], the calls the
    configuration reader makes.  The virtual stack is a list with its top
    first; a value is nil, a number, a string, a function (by an
    identifier: calling it is the environment's [lua_call]) or a table (an
    association list, the first binding of a key wins).  Numeric strings
    are not converted to numbers. *)

From S2P Require Import Prelude.

Inductive lua_key := KStr (s : string) | KInt (n : Z).

Inductive lua_value :=
| LNil
| LNumber (q : Q)
| LString (s : string)
| LFunction (id : nat)
| LTable (t : list (lua_key * lua_value)).

#[export] Instance lua_key_eq_dec : EqDecision lua_key.
Proof. solve_decision. Defined.

(** The script side: its global variables and what calling a function
    returns ([None] when the call raises an error). *)
Record lua_env := {
  lua_global : string -> lua_value;
  lua_call : nat -> list lua_value -> option lua_value }.

(** The state of [Hair_GetSetup]: the virtual stack and the setup it writes. *)
Record gs (Out : Type) := mkgs { lua_stack : list lua_value; gs_out : Out }.
Arguments mkgs {Out} lua_stack gs_out.
Arguments lua_stack {Out} g.
Arguments gs_out {Out} g.

(** [t[k]], a raw read. *)
Definition rawget (t : list (lua_key * lua_value)) (k : lua_key) : lua_value :=
  match List.find (fun kv => bool_decide (kv.1 = k)) t with Some (_, v) => v | None => LNil end.

(** [lua_tonumber]: a number, or [0]. *)
Definition lua_tonumber (v : lua_value) : Q := match v with LNumber q => q | _ => 0 end.

Section Api.
Context {Out : Type} (env : lua_env).

Definition set_stack (l : list lua_value) : M (gs Out) unit :=
  mmodify (fun g => mkgs l (gs_out g)).

Definition lua_push (v : lua_value) : M (gs Out) unit :=
  mmodify (fun g => mkgs (v :: lua_stack g) (gs_out g)).

Definition lua_gettop : M (gs Out) nat := fun g => Returns (length (lua_stack g), g).

(** [lua_settop(L, n)]: cut the stack to [n] slots, or pad it with nil. *)
Definition lua_settop (n : nat) : M (gs Out) unit :=
  mmodify (fun g => let l := lua_stack g in
    mkgs (if (n <=? length l)%nat then drop (length l - n) l else replicate (n - length l) LNil ++ l)
         (gs_out g)).

Definition lua_pop (n : nat) : M (gs Out) unit :=
  mmodify (fun g => mkgs (drop n (lua_stack g)) (gs_out g)).

Definition lua_getglobal (name : string) : M (gs Out) unit := lua_push (lua_global env name).

Definition lua_pushinteger (z : Z) : M (gs Out) unit := lua_push (LNumber (inject_Z z)).

Definition top_value (g : gs Out) : lua_value := match lua_stack g with v :: _ => v | [] => LNil end.

Definition lua_isfunction : M (gs Out) bool :=
  fun g => Returns (match top_value g with LFunction _ => true | _ => false end, g).

Definition lua_istable : M (gs Out) bool :=
  fun g => Returns (match top_value g with LTable _ => true | _ => false end, g).

(** [lua_getfield(L, -1, key)] on a table at the top. *)
Definition lua_getfield (key : string) : M (gs Out) unit :=
  fun g => lua_push (match top_value g with LTable t => rawget t (KStr key) | _ => LNil end) g.

(** [lua_GetScalarField(L, key)]: the number at [key] of the table at the
    top, [0] when the top is not a table or the field is not a number; the
    stack is left as it was. *)
Definition lua_GetScalarField (k : lua_key) : M (gs Out) Q :=
  fun g => Returns (match top_value g with LTable t => lua_tonumber (rawget t k) | _ => 0 end, g).

(** [lua_CallAndLog(L, nargs, 1, 0)]: a protected call of the function
    below the [nargs] arguments; on success its one result replaces them,
    on an error the call reports it and leaves neither. *)
Definition lua_CallAndLog (nargs : nat) : M (gs Out) bool :=
  fun g =>
    let l := lua_stack g in
    let args := rev (take nargs l) in
    let rest := drop (S nargs) l in
    match l !! nargs with
    | Some (LFunction f) =>
        match lua_call env f args with
        | Some v => Returns (true, mkgs (v :: rest) (gs_out g))
        | None => Returns (false, mkgs rest (gs_out g))
        end
    | _ => Returns (false, mkgs rest (gs_out g))
    end.

(** Reading and writing the output record. *)
Definition get_out : M (gs Out) Out := fun g => Returns (gs_out g, g).
Definition modify_out (f : Out -> Out) : M (gs Out) unit := mmodify (fun g => mkgs (lua_stack g) (f (gs_out g))).
End Api.

(** [(uintW_t)x] for a float [x]: the value truncated toward zero, and
    undefined when the truncated value does not fit the [w]-bit type. *)
Definition float_to_uint_opt (w : Z) (x : Q) : option Z :=
  let z := Z.quot (Qnum x) (Zpos (Qden x)) in
  if ((0 <=? z) && (z <? 2 ^ w))%Z then Some z else None.

Definition float_to_uint {St} (w : Z) (x : Q) : M St Z :=
  match float_to_uint_opt w x with
  | Some z => Mret z
  | None => undefined "float to unsigned conversion out of range"
  end.
