(* ===== verification/HairSetup.v ===== *)
(** * [Hair_GetSetup] (src/src/hair.cpp, lines 343-426)

    The configuration of hair [hair_entry_index] is the table the script
    function [getHairSetup] returns.  The reader copies its fields into
    the caller's [hair_setup_t] (the output record of the state [gs]),
    block by block as the source does:
    - [GetSetup_ids]: [model], [link_body], [v_count] (lines 358-360);
    - [GetSetup_props]: the [props] table and its [hair_damping] pair
      (lines 362-385);
    - [GetSetup_vertex_map]: the [v_index] array (lines 387-396);
    - [GetSetup_vec]: the [offset] and [root_angle] triples (398-416).
    A block whose table is missing makes the result [false] and leaves
    the fields of that block as they were; a missing number reads as [0].
    The Lua stack is restored at the end (line 424). *)

From S2P Require Import Prelude Vector Engine Hair LuaApi.

(** ** Field updates of [hair_setup_t] *)

Definition setup_set_ids (su : hair_setup_t) (m lb vc : Z) : hair_setup_t :=
  {| model := m; link_body := lb; vertex_map_count := vc;
     root_weight := root_weight su; tail_weight := tail_weight su; hair_damping := hair_damping su;
     hair_inertia := hair_inertia su; hair_friction := hair_friction su;
     hair_restitution := hair_restitution su; joints_per_body := joints_per_body su;
     joint_overlap := joint_overlap su; joint_radius := joint_radius su; joint_cfm := joint_cfm su;
     joint_erp := joint_erp su; head_offset := head_offset su; root_angle := root_angle su;
     head_vertex_map := head_vertex_map su |}.

Definition setup_set_props (su : hair_setup_t) (rw tw inertia friction restitution radius overlap : Q)
    (jpb : Z) (cfm erp : Q) : hair_setup_t :=
  {| model := model su; link_body := link_body su; vertex_map_count := vertex_map_count su;
     root_weight := rw; tail_weight := tw; hair_damping := hair_damping su;
     hair_inertia := inertia; hair_friction := friction; hair_restitution := restitution;
     joints_per_body := jpb; joint_overlap := overlap; joint_radius := radius;
     joint_cfm := cfm; joint_erp := erp; head_offset := head_offset su; root_angle := root_angle su;
     head_vertex_map := head_vertex_map su |}.

Definition setup_with (su : hair_setup_t) (damping : Q * Q) (offset angle : btVector3) (vmap : gmap Z Z)
    : hair_setup_t :=
  {| model := model su; link_body := link_body su; vertex_map_count := vertex_map_count su;
     root_weight := root_weight su; tail_weight := tail_weight su; hair_damping := damping;
     hair_inertia := hair_inertia su; hair_friction := hair_friction su;
     hair_restitution := hair_restitution su; joints_per_body := joints_per_body su;
     joint_overlap := joint_overlap su; joint_radius := joint_radius su; joint_cfm := joint_cfm su;
     joint_erp := joint_erp su; head_offset := offset; root_angle := angle; head_vertex_map := vmap |}.

Section GetSetup.
Variable env : lua_env.

Notation G := (M (gs hair_setup_t)).

Definition scalar (k : string) : G Q := lua_GetScalarField (KStr k).
Definition scalar_i (i : Z) : G Q := lua_GetScalarField (KInt i).

(** Lines 358-360. *)
Definition GetSetup_ids : G unit :=
  do m <- scalar "model"; do m <- float_to_uint 32 m;
  do lb <- scalar "link_body"; do lb <- float_to_uint 32 lb;
  do vc <- scalar "v_count"; do vc <- float_to_uint 32 vc;
  modify_out (fun su => setup_set_ids su m lb vc).

(** Lines 376-382: [hair_damping[0]] and [[1]] when the table is there. *)
Definition GetSetup_damping : G unit :=
  lua_getfield "hair_damping" ;;
  do t <- lua_istable;
  (if t then
     do d0 <- scalar_i 1; do d1 <- scalar_i 2;
     modify_out (fun su => setup_with su (d0, d1) (head_offset su) (root_angle su) (head_vertex_map su))
   else Mret tt) ;;
  lua_pop 1.

(** Lines 362-385: the [props] table, [false] when it is missing. *)
Definition GetSetup_props : G bool :=
  lua_getfield "props" ;;
  do t <- lua_istable;
  do ok <-
    (if t then
       do rw <- scalar "root_weight"; do tw <- scalar "tail_weight";
       do hi <- scalar "hair_inertia"; do hf <- scalar "hair_friction";
       do hb <- scalar "hair_bouncing"; do jr <- scalar "joint_radius";
       do jo <- scalar "joint_overlap";
       do jpb <- scalar "joints_per_body"; do jpb <- float_to_uint 8 jpb;
       do cfm <- scalar "joint_cfm"; do erp <- scalar "joint_erp";
       modify_out (fun su => setup_set_props su rw tw hi hf hb jr jo jpb cfm erp) ;;
       GetSetup_damping ;;
       Mret true
     else Mret false);
  lua_pop 1 ;;
  Mret ok.

(** Line 392, iteration [i] (from 1): [head_vertex_map[i-1]]. *)
Definition GetSetup_vertex (i : Z) (_ : unit) : G unit :=
  do v <- scalar_i i; do v <- float_to_uint 32 v;
  modify_out (fun su => setup_with su (hair_damping su) (head_offset su) (root_angle su)
                          (<[(i - 1)%Z := v]> (head_vertex_map su))).

(** Lines 387-396: the [v_index] array, [vertex_map_count] entries; the
    [int] counter overflows before it passes a count of [2^31] or more. *)
Definition GetSetup_vertex_map : G bool :=
  lua_getfield "v_index" ;;
  do t <- lua_istable;
  do ok <-
    (if t then
       do su <- get_out;
       if (2 ^ 31 <=? vertex_map_count su)%Z then undefined "int loop counter overflow"
       else iter_range GetSetup_vertex (Z.to_nat (vertex_map_count su)) 1 tt ;; Mret true
     else Mret false);
  lua_pop 1 ;;
  Mret ok.

(** Lines 398-416 (each of two blocks): a three-number table [key], stored by [store]. *)
Definition GetSetup_vec (key : string) (store : hair_setup_t -> btVector3 -> hair_setup_t) : G bool :=
  lua_getfield key ;;
  do t <- lua_istable;
  do ok <-
    (if t then
       do x <- scalar_i 1; do y <- scalar_i 2; do z <- scalar_i 3;
       modify_out (fun su => store su (Vec3 x y z)) ;; Mret true
     else Mret false);
  lua_pop 1 ;;
  Mret ok.

Definition store_offset (su : hair_setup_t) (v : btVector3) : hair_setup_t :=
  setup_with su (hair_damping su) v (root_angle su) (head_vertex_map su).
Definition store_root_angle (su : hair_setup_t) (v : btVector3) : hair_setup_t :=
  setup_with su (hair_damping su) (head_offset su) v (head_vertex_map su).

(** Lines 358-416: the blocks run on the returned table, the result the
    conjunction of theirs. *)
Definition GetSetup_table : G bool :=
  GetSetup_ids ;;
  do ok1 <- GetSetup_props;
  do ok2 <- GetSetup_vertex_map;
  do ok3 <- GetSetup_vec "offset" store_offset;
  do ok4 <- GetSetup_vec "root_angle" store_root_angle;
  Mret (ok1 && ok2 && ok3 && ok4).

(** [bool Hair_GetSetup(uint32_t hair_entry_index, hair_setup_p hair_setup)]. *)
Definition Hair_GetSetup (hair_entry_index : Z) : G bool :=
  do top <- lua_gettop;
  lua_getglobal env "getHairSetup" ;;
  do f <- lua_isfunction;
  do result <-
    (if f then
       lua_pushinteger hair_entry_index ;;
       do called <- lua_CallAndLog env 1;
       if called then
         do t <- lua_istable;
         if t then GetSetup_table else Mret false
       else Mret false
     else Mret false);
  lua_settop top ;;
  Mret result.
End GetSetup.
