(* ===== verification/CreateFacts.v ===== *)
(** * Properties of [Hair_Create]

    - The contract of section 4.1 of the spec as a predicate [create_pre],
      and atomicity: when it fails, [Hair_Create] returns [false] and leaves
      the whole state unchanged.
    - The run of a successful call, phase by phase: guard, initialisation,
      body loop, joint array, joint loops.  Each loop is proved with an
      invariant indexed by the iterations done ([wp_iter_range]), after the
      bounded [uintW_t] loop is shown equal to its reference
      ([for_loop_iter_range]). *)

From S2P Require Import Prelude Vector Engine Hair HairCreate.

(** ** The contract *)

(** An entity whose arrays have one entry per bone. *)
Definition entity_wf (ent : entity) : Prop :=
  length (e_bt_body ent) = bone_tag_count ent.

(** The preconditions of section 4.1: an owner with a body at the anchor
    bone, and a model with at least one mesh. *)
Definition create_pre (e : engine) (setup : option hair_setup_t) (parent : option nat) : Prop :=
  exists su p ent ob m,
    setup = Some su /\ parent = Some p /\ entities e !! p = Some ent /\
    (0 <= link_body su < Z.of_nat (bone_tag_count ent))%Z /\
    e_bt_body ent !! Z.to_nat (link_body su) = Some (Some ob) /\
    models e !! model su = Some m /\ (0 < mesh_count m)%nat.

(** The pointers [Hair_Create] dereferences before its checks can fail:
    a parent pointer names an entity whose [bt_body] array has one slot per
    bone, and [link_body] is not negative (a negative index reads before
    the array). *)
Definition parent_valid (e : engine) (parent : option nat) : Prop :=
  match parent with
  | Some p => match entities e !! p with Some ent => entity_wf ent | None => False end
  | None => True
  end.

Definition link_nonneg (setup : option hair_setup_t) : Prop :=
  match setup with Some su => (0 <= link_body su)%Z | None => True end.

(** [create_pre] as a test, for a decision procedure. *)
Definition create_preb (e : engine) (setup : option hair_setup_t) (parent : option nat) : bool :=
  match setup, parent with
  | Some su, Some p =>
      match entities e !! p with
      | Some ent =>
          bool_decide (0 <= link_body su < Z.of_nat (bone_tag_count ent))%Z &&
          match e_bt_body ent !! Z.to_nat (link_body su) with Some (Some _) => true | _ => false end &&
          match models e !! model su with Some m => bool_decide (0 < mesh_count m)%nat | None => false end
      | None => false
      end
  | _, _ => false
  end.

Lemma create_preb_spec e setup parent : create_preb e setup parent = true <-> create_pre e setup parent.
Proof.
  unfold create_preb, create_pre. split.
  - destruct setup as [su|], parent as [p|]; try discriminate.
    destruct (entities e !! p) as [ent|] eqn:He; [|discriminate].
    destruct (e_bt_body ent !! _) as [[ob|]|] eqn:Hb; rewrite ?andb_false_r; [|discriminate..].
    destruct (models e !! model su) as [m|] eqn:Hm; rewrite ?andb_false_r; [|discriminate].
    rewrite andb_true_r. intros [Hl%bool_decide_eq_true_1 Hn%bool_decide_eq_true_1]%andb_true_iff.
    exists su, p, ent, ob, m. auto 10.
  - intros (su & p & ent & ob & m & -> & -> & He & Hl & Hb & Hm & Hn).
    rewrite He, Hb, Hm, andb_true_r. apply andb_true_iff. split; apply bool_decide_eq_true_2; assumption.
Qed.

Lemma create_preb_false e setup parent : create_preb e setup parent = false -> ~ create_pre e setup parent.
Proof. intros E Hp. apply create_preb_spec in Hp. congruence. Qed.

#[global] Instance create_pre_dec e setup parent : Decision (create_pre e setup parent).
Proof.
  destruct (create_preb e setup parent) eqn:E; [left | right]; rewrite <- create_preb_spec; congruence.
Defined.

Section Guard.
Context `{Collaborators}.

Lemma guard_none_run setup parent s :
  parent_valid (eng s) parent -> link_nonneg setup -> ~ create_pre (eng s) setup parent ->
  Hair_Create_guard setup parent s = Returns (None, s).
Proof.
  intros Hent Hlink Hpre. unfold Hair_Create_guard.
  destruct parent as [p|], setup as [su|]; try reflexivity. simpl in Hent, Hlink.
  destruct (entities (eng s) !! p) as [ent|] eqn:He; [|contradiction]. rename Hent into Hwf.
  unfold Mbind, deref_entity, deref. rewrite He. simpl.
  destruct (Z.leb_spec (Z.of_nat (bone_tag_count ent)) (link_body su)) as [|Hlt]; [reflexivity|].
  destruct (e_bt_body ent !! Z.to_nat (link_body su)) as [[ob|]|] eqn:Hb.
  - simpl. unfold World_GetModelByID.
    destruct (models (eng s) !! model su) as [m|] eqn:Hm; [|reflexivity].
    destruct (Nat.eqb_spec (mesh_count m) 0); [reflexivity|].
    exfalso. apply Hpre. exists su, p, ent, ob, m. repeat split; auto; lia.
  - reflexivity.
  - exfalso. apply lookup_ge_None in Hb. unfold entity_wf in Hwf. lia.
Qed.

Lemma guard_some_run su p ent ob m s :
  entities (eng s) !! p = Some ent ->
  (0 <= link_body su < Z.of_nat (bone_tag_count ent))%Z ->
  e_bt_body ent !! Z.to_nat (link_body su) = Some (Some ob) ->
  models (eng s) !! model su = Some m -> (0 < mesh_count m)%nat ->
  Hair_Create_guard (Some su) (Some p) s = Returns (Some (su, p, m), s).
Proof.
  intros He Hl Hb Hm Hn. unfold Hair_Create_guard, Mbind, deref_entity, deref.
  rewrite He. simpl. destruct (Z.leb_spec (Z.of_nat (bone_tag_count ent)) (link_body su)); [lia|].
  rewrite Hb. simpl. unfold World_GetModelByID. rewrite Hm.
  destruct (Nat.eqb_spec (mesh_count m) 0); [lia|reflexivity].
Qed.
End Guard.

(** ** The run of a successful call *)

(** *** Addresses

    [Hair_Create] allocates, from the first free address [n0] on: the
    container at [n0], then for each segment [j] its shape, motion state
    and body at [shape_addr n0 j], [motion_addr n0 j] and [body_addr n0 j],
    then the joints one after the other. *)

(** The mesh of segment [j] ([mesh_tree[j].mesh_base]). *)
Definition dummy_mesh : base_mesh := {| mesh_id := 0; bb_min := vzero; bb_max := vzero; bm_after_bb_max := 0 |}.
Definition mesh_at (m : skeletal_model) (j : nat) : base_mesh :=
  from_option mesh_base dummy_mesh (mesh_tree m !! j).

Definition shape_addr (n0 j : nat) : nat := S n0 + 3 * j.
Definition motion_addr (n0 j : nat) : nat := S (S n0 + 3 * j).
Definition body_addr (n0 j : nat) : nat := S (S (S n0 + 3 * j)).

Section Elements.
Context `{Collaborators}.
Variables (su : hair_setup_t) (m : skeletal_model) (g : btVector3) (tr : mat4) (step : Q) (n0 : nat).

Definition created_body (cw : Q) (mesh : base_mesh) (ms sh : nat) : btRigidBody :=
  let b := new_btRigidBody (cw - step) ms sh (calculateLocalInertia (BT_CSfromMesh mesh) (cw * hair_inertia su)) in
  let b := forceActivationState (setFriction (setRestitution
             (setDamping (setGravity b (g *v (1 # 10))) (hair_damping su).1 (hair_damping su).2)
             (hair_restitution su)) (hair_friction su)) DISABLE_DEACTIVATION in
  activate (if rb_static b then b else setGravity b g).

Definition elem_body (j : nat) : btRigidBody :=
  created_body (iter_sub (root_weight su) step j) (mesh_at m j) (motion_addr n0 j) (shape_addr n0 j).

Fixpoint heap_elems (hp : gmap nat heap_obj) (k : nat) : gmap nat heap_obj :=
  match k with
  | O => hp
  | S j => <[body_addr n0 j := OBody (elem_body j)]>
             (<[motion_addr n0 j := OMotionState tr]>
                (<[shape_addr n0 j := OShape (BT_CSfromMesh (mesh_at m j))]> (heap_elems hp j)))
  end.

Definition elems_list (k : nat) : list hair_element_t :=
  imap (fun j mt => if decide (j < k)%nat
                    then {| he_mesh := Some (mesh_base mt); he_shape := Some (shape_addr n0 j);
                            he_body := Some (body_addr n0 j) |}
                    else hair_element_zero) (mesh_tree m).

Definition bodies_registered (k : nat) : list (nat * collision_group * collision_mask) :=
  map (fun j => (body_addr n0 j, COLLISION_GROUP_KINEMATIC, COLLISION_MASK_NONE)) (seq 0 k).

Lemma elems_list_step k mt :
  mesh_tree m !! k = Some mt ->
  <[k := {| he_mesh := Some (mesh_base mt); he_shape := Some (shape_addr n0 k);
            he_body := Some (body_addr n0 k) |}]> (elems_list k) = elems_list (S k).
Proof.
  intros Hk. apply list_eq. intros i. unfold elems_list.
  destruct (decide (i = k)) as [->|Hne].
  - rewrite list_lookup_insert_eq.
    2:{ rewrite length_imap. eapply lookup_lt_Some; eauto. }
    rewrite list_lookup_imap, Hk. simpl. case_decide; [reflexivity|lia].
  - rewrite list_lookup_insert_ne by congruence. rewrite !list_lookup_imap.
    destruct (mesh_tree m !! i); simpl; [|reflexivity].
    repeat case_decide; try reflexivity; lia.
Qed.

Lemma elems_list_step_eq k mt el :
  mesh_tree m !! k = Some mt ->
  el = {| he_mesh := Some (mesh_base mt); he_shape := Some (shape_addr n0 k); he_body := Some (body_addr n0 k) |} ->
  <[k := el]> (elems_list k) = elems_list (S k).
Proof. intros Hk ->. apply elems_list_step, Hk. Qed.

Lemma elems_list_lookup k i mt :
  mesh_tree m !! i = Some mt -> (i < k)%nat ->
  elems_list k !! i = Some {| he_mesh := Some (mesh_base mt); he_shape := Some (shape_addr n0 i);
                              he_body := Some (body_addr n0 i) |}.
Proof. intros Hi Hik. unfold elems_list. rewrite list_lookup_imap, Hi. simpl. case_decide; [reflexivity|lia]. Qed.

Lemma elems_list_lookup_zero k mt :
  mesh_tree m !! k = Some mt -> elems_list k !! k = Some hair_element_zero.
Proof. intros Hk. unfold elems_list. rewrite list_lookup_imap, Hk. simpl. case_decide; [lia|reflexivity]. Qed.

Lemma elems_list_0 : elems_list 0 = replicate (length (mesh_tree m)) hair_element_zero.
Proof.
  apply list_eq. intros i. unfold elems_list. rewrite list_lookup_imap.
  destruct (mesh_tree m !! i) eqn:E; simpl.
  - rewrite lookup_replicate_2; [reflexivity|]. apply lookup_lt_Some in E. lia.
  - apply lookup_ge_None in E. symmetry. apply lookup_replicate_None. lia.
Qed.

Lemma bodies_registered_S k :
  bodies_registered (S k) = bodies_registered k ++
    [(body_addr n0 k, COLLISION_GROUP_KINEMATIC, COLLISION_MASK_NONE)].
Proof. unfold bodies_registered. rewrite seq_S, map_app. reflexivity. Qed.
End Elements.

Definition hair_container : engine_container := {| cont_room := None; cont_object_type := Some OBJECT_HAIR |}.

Definition init_hair (h : hair_t) (su : hair_setup_t) (p : nat) (ent : entity) (btl : ss_bone_tag)
    (m : skeletal_model) (cont : nat) : hair_t :=
  let t := e_transform ent in let ft := full_transform btl in let n := mesh_count m in
  {| container := Some cont; owner_char := Some p; owner_body := link_body su;
     owner_char_pos := Vec3 (mat_at t 12) (mat_at t 13) (mat_at t 14);
     owner_char_ang := Vec3 (mat_at t 0) (mat_at t 4) (mat_at t 8);
     owner_body_pos := Vec3 (mat_at ft 12) (mat_at ft 13) (mat_at ft 14);
     owner_body_ang := Vec3 (mat_at ft 0) (mat_at ft 4) (mat_at ft 8);
     root_index := 0; tail_index := n - 1; element_count := n; elements := replicate n hair_element_zero;
     joint_count := joint_count h; joints := joints h |}.

Section Init.
Context `{Collaborators}.
Lemma init_run su p ent btl m h hp n0 wb wc g en md :
  en !! p = Some ent ->
  e_bone_tags ent !! Z.to_nat (link_body su) = Some btl ->
  wp (Hair_Create_init su p m)
    (fun ws s' => ws = (root_weight su - tail_weight su) / inject_Z (Z.of_nat (mesh_count m)) /\
       s' = mkst (<[n0 := OContainer hair_container]> hp) (S n0) wb wc g en md
                 (Some (init_hair h su p ent btl m n0)))
    (mkst hp n0 wb wc g en md (Some h)).
Proof.
  intros He Hb. unfold Hair_Create_init.
  repeat hstep.
  eapply wp_update_container; [apply lookup_insert_eq|].
  repeat hstep.
  eapply wp_deref_entity; [exact He|].
  repeat hstep. eapply wp_deref; [exact Hb|].
  repeat hstep. split; [reflexivity|].
  rewrite insert_insert_eq. reflexivity.
Qed.
End Init.

Section ElementStep.
Context `{Collaborators}.
Variables (su : hair_setup_t) (m : skeletal_model) (p : nat) (ent : entity) (bt0 : ss_bone_tag)
          (h1 : hair_t) (step : Q) (n0 : nat) (hp1 : gmap nat heap_obj)
          (wb1 : list (nat * collision_group * collision_mask)) (wc1 : list (nat * bool))
          (g : btVector3) (en : gmap nat entity) (md : gmap Z skeletal_model).
Hypothesis Hent : en !! p = Some ent.
Hypothesis Hbt0 : e_bone_tags ent !! 0%nat = Some bt0.
Hypothesis Howner : owner_char h1 = Some p.
Hypothesis Hroot : root_index h1 = 0%nat.

Definition elems_state (k : nat) : st :=
  mkst (heap_elems su m g (Mat4_Mat4_mul (e_transform ent) (full_transform bt0)) step n0 hp1 k)
       (S n0 + 3 * k) (wb1 ++ bodies_registered n0 k) wc1 g en md
       (Some (hair_set_elements h1 (elems_list m n0 k))).

Definition elems_inv (k : nat) (cw : Q) (s : st) : Prop :=
  cw = iter_sub (root_weight su) step k /\ s = elems_state k.

Let tr := Mat4_Mat4_mul (e_transform ent) (full_transform bt0).

(** One iteration of the body loop from any state where the hair is [h1]
    with element array [L]: three allocations, the element updated, the
    body registered. *)
Lemma element_run (i : Z) cw mt el hp na wb wc L :
  mesh_tree m !! Z.to_nat i = Some mt -> L !! Z.to_nat i = Some el ->
  wp (Hair_Create_element su m step i cw)
    (fun cw' s' => cw' = cw - step /\
       s' = mkst (<[S (S na) := OBody (created_body su g step cw (mesh_base mt) (S na) na)]>
                   (<[S na := OMotionState tr]> (<[na := OShape (BT_CSfromMesh (mesh_base mt))]> hp)))
                 (S (S (S na))) (wb ++ [(S (S na), COLLISION_GROUP_KINEMATIC, COLLISION_MASK_NONE)])
                 wc g en md
                 (Some (hair_set_elements h1 (<[Z.to_nat i := {| he_mesh := Some (mesh_base mt);
                     he_shape := Some na; he_body := Some (S (S na)) |}]> L))))
    (mkst hp na wb wc g en md (Some (hair_set_elements h1 L))).
Proof.
  intros Hmt Hel.
  assert (Hlen : (Z.to_nat i < length L)%nat) by (eapply lookup_lt_Some; eauto).
  unfold Hair_Create_element.
  repeat hstep. eapply wp_deref; [exact Hmt|].
  repeat hstep. eapply wp_set_element; [exact Hel|].
  repeat hstep. eapply wp_element_at; [apply list_lookup_insert_eq; exact Hlen |].
  repeat hstep. eapply wp_set_element; [apply list_lookup_insert_eq; exact Hlen |].
  repeat hstep. eapply wp_get_owner; [exact Howner | exact Hent |].
  repeat hstep. cbn [root_index hair_set_elements]. rewrite Hroot. eapply wp_deref; [exact Hbt0|].
  repeat hstep. eapply wp_set_element; [apply list_lookup_insert_eq; rewrite length_insert; exact Hlen |].
  repeat hstep.
  do 5 (eapply wp_update_body; [apply lookup_insert_eq |]; repeat hstep).
  eapply wp_addRigidBody; [apply lookup_insert_eq |]. repeat hstep.
  cbn [rb_static setGravity setDamping setRestitution setFriction forceActivationState rb_with new_btRigidBody].
  destruct (Qeq_bool (cw - step) 0) eqn:Hst.
  all: eapply wp_update_body; [rewrite ?lookup_insert_eq; reflexivity |]; repeat hstep.
  all: split; [reflexivity|].
  all: unfold mkst; rewrite !list_insert_insert_eq, ?insert_insert_eq; unfold created_body.
  all: cbn [rb_static setGravity setDamping setRestitution setFriction forceActivationState rb_with new_btRigidBody];
       rewrite Hst; reflexivity.
Qed.

Lemma element_step k cw s :
  (k < length (mesh_tree m))%nat -> elems_inv k cw s ->
  wp (Hair_Create_element su m step (0 + Z.of_nat k) cw) (elems_inv (S k)) s.
Proof.
  intros Hk (-> & ->).
  destruct (lookup_lt_is_Some_2 _ _ Hk) as [mt Hmt].
  assert (Hmk : mesh_at m k = mesh_base mt) by (unfold mesh_at; rewrite Hmt; reflexivity).
  assert (Hk' : Z.to_nat (0 + Z.of_nat k) = k) by lia.
  eapply wp_mono; [unfold elems_state; eapply element_run; rewrite Hk'; [exact Hmt | eapply elems_list_lookup_zero; eauto]|].
  intros cw' s' [-> ->]. split; [reflexivity|].
  unfold elems_state, mkst. rewrite Hk'.
  rewrite (elems_list_step_eq _ _ _ _ _ Hmt) by (unfold shape_addr, body_addr; f_equal; f_equal; lia).
  rewrite bodies_registered_S, app_assoc. cbn [heap_elems]. unfold elem_body. rewrite Hmk.
  repeat f_equal; unfold shape_addr, motion_addr, body_addr; lia.
Qed.
End ElementStep.

Section ElementsLoop.
Context `{Collaborators}.
Variables (su : hair_setup_t) (m : skeletal_model) (p : nat) (ent : entity) (bt0 : ss_bone_tag)
          (h1 : hair_t) (step : Q) (n0 : nat) (hp1 : gmap nat heap_obj)
          (wb1 : list (nat * collision_group * collision_mask)) (wc1 : list (nat * bool))
          (g : btVector3) (en : gmap nat entity) (md : gmap Z skeletal_model).
Hypothesis Hent : en !! p = Some ent.
Hypothesis Hbt0 : e_bone_tags ent !! 0%nat = Some bt0.
Hypothesis Howner : owner_char h1 = Some p.
Hypothesis Hroot : root_index h1 = 0%nat.
Hypothesis Hlen : length (mesh_tree m) = mesh_count m.
Hypothesis Hcount : element_count h1 = mesh_count m.

(** The body loop runs its body once per mesh when the model has at most
    255 meshes, the range of its [uint8_t] counter. *)
Lemma elements_run :
  (mesh_count m <= 255)%nat ->
  wp (Hair_Create_elements su m step)
    (elems_inv su m ent bt0 h1 step n0 hp1 wb1 wc1 g en md (mesh_count m))
    (elems_state su m ent bt0 h1 step n0 hp1 wb1 wc1 g en md 0).
Proof.
  intros HN. unfold Hair_Create_elements, elems_state. hstep. apply wp_get_hair.
  cbn [element_count hair_set_elements]. rewrite Hcount.
  apply wp_for_loop; [lia | simpl; lia | unfold loop_fuel; simpl; lia |].
  replace (Z.to_nat (Z.of_nat (mesh_count m) - 0)) with (mesh_count m) by lia.
  apply wp_iter_range; [|split; reflexivity].
  intros k a s Hk Hinv. eapply element_step with (p := p); [exact Hent|exact Hbt0|exact Howner|exact Hroot|lia|exact Hinv].
Qed.
End ElementsLoop.

(** ** The joints

    Joint [k] belongs to group [i = k / joints_per_body] (the segment it
    attaches) and is the [j = k mod joints_per_body]-th of its group; it is
    allocated at [joint_addr n0 N k], after the [N] segments. *)

Lemma div_mod_pair i j n : (j < n)%nat -> ((i * n + j) / n = i /\ (i * n + j) mod n = j)%nat.
Proof.
  intros Hj. assert (Hd : ((i * n + j) / n = i)%nat).
  { rewrite Nat.div_add_l by lia. rewrite Nat.div_small by lia. lia. }
  split; [exact Hd|]. pose proof (Nat.div_mod_eq (i * n + j) n) as He. rewrite Hd in He. lia.
Qed.

Definition joint_addr (n0 N k : nat) : nat := S n0 + 3 * N + k.

Section JointObjects.
Context `{Collaborators}.
Variables (su : hair_setup_t) (m : skeletal_model) (n0 : nat) (ob : nat).

Definition jpb : nat := Z.to_nat (joints_per_body su).
Definition joint_step : Q := (M_PI * 2) / inject_Z (joints_per_body su).

Definition body_width (i : nat) : Q := Qabs (bb_max_at (mesh_at m i) 0 - bb_min_at (mesh_at m i) 0).
Definition body_depth (i : nat) : Q := Qabs (bb_max_at (mesh_at m i) 3 - bb_min_at (mesh_at m i) 3).

(** The position of joint [j] of group [i] on its circle. *)
Definition joint_pos (i j : nat) : Q * Q :=
  joint_position su (iter_add 0 joint_step j) (body_width i) (body_depth i) 0 0.

(** The two frames of a joint of group [i] at position [(jx, jy)]. *)
Definition expected_frames (i : nat) (jx jy : Q) : btTransform * btTransform :=
  if (i =? 0)%nat then
    ({| tr_origin := head_offset su +v Vec3 jx 0 jy; tr_euler_zyx := root_angle su |},
     {| tr_origin := Vec3 jx 0 jy; tr_euler_zyx := Vec3 0 (- M_PI_2) 0 |})
  else
    let body_length := Qabs (bb_max_at (mesh_at m (i - 1)) 1 - bb_min_at (mesh_at m (i - 1)) 1)
                       * joint_overlap su in
    ({| tr_origin := Vec3 jx body_length jy; tr_euler_zyx := Vec3 0 M_PI_2 0 |},
     {| tr_origin := Vec3 jx 0 jy; tr_euler_zyx := Vec3 0 M_PI_2 0 |}).

(** The body that joint group [i] hangs from: the owner's anchor body for
    the first group, the previous segment's body otherwise. *)
Definition prev_addr (i : nat) : nat := if (i =? 0)%nat then ob else body_addr n0 (i - 1).

(** Joint [j] of group [i] as [Hair_Create] leaves it, with its stop
    parameters set ([params]) or at Bullet's default. *)
Definition joint_obj_ij (i j : nat) (params : bool) : btGeneric6DofConstraint :=
  let '(jx, jy) := joint_pos i j in
  let '(fa, fb) := expected_frames i jx jy in
  let '(al, au, it) := if (i =? 0)%nat then root_joint_limits else chain_joint_limits in
  {| c_rbA := prev_addr i; c_rbB := body_addr n0 i; c_frameInA := fa; c_frameInB := fb;
     c_useLinearReferenceFrameA := true;
     c_stop_cfm := if params then replicate 6 (Some (joint_cfm su)) else replicate 6 None;
     c_stop_erp := if params then replicate 6 (Some (joint_erp su)) else replicate 6 None;
     c_linear_lower := Some vzero; c_linear_upper := Some vzero;
     c_angular_lower := Some al; c_angular_upper := Some au;
     c_solver_iterations := it; c_dbg_draw_size := Some 5 |}.

Definition joint_obj (k : nat) (params : bool) : btGeneric6DofConstraint :=
  joint_obj_ij (k / jpb) (k mod jpb) params.

Lemma set_limits_stop_params c cfm erp ll lu al au it d :
  set_limits (set_stop_params c cfm erp) ll lu al au it d =
  set_stop_params (set_limits c ll lu al au it d) cfm erp.
Proof. reflexivity. Qed.

Lemma set_stop_params_joint_obj k b :
  set_stop_params (joint_obj k b) (joint_cfm su) (joint_erp su) = joint_obj k true.
Proof.
  unfold joint_obj, joint_obj_ij.
  destruct_pairs.
  destruct b; reflexivity.
Qed.
(** The fields of joint [k]: the bodies it links, its stop parameters,
    its limits and its drawing size. *)
Lemma joint_obj_fields k b :
  let c := joint_obj k b in
  c_rbA c = prev_addr (k / jpb) /\ c_rbB c = body_addr n0 (k / jpb) /\
  c_stop_cfm c = (if b then replicate 6 (Some (joint_cfm su)) else replicate 6 None) /\
  c_stop_erp c = (if b then replicate 6 (Some (joint_erp su)) else replicate 6 None) /\
  c_linear_lower c = Some vzero /\ c_linear_upper c = Some vzero /\
  (c_angular_lower c, c_angular_upper c, c_solver_iterations c) =
    (let '(al, au, it) := if (k / jpb =? 0)%nat then root_joint_limits else chain_joint_limits in
     (Some al, Some au, it)) /\
  c_dbg_draw_size c = Some 5.
Proof. cbv zeta. unfold joint_obj, joint_obj_ij. destruct_pairs. repeat split. Qed.
End JointObjects.

Section JointHeap.
Context `{Collaborators}.
Variables (su : hair_setup_t) (m : skeletal_model) (n0 ob : nat) (hpE : gmap nat heap_obj).

Let J := joint_addr n0 (mesh_count m).

(** The heap once [c] joints exist, joint [k] with its stop parameters
    set when [ps k]. *)
Fixpoint heap_joints (c : nat) (ps : nat -> bool) : gmap nat heap_obj :=
  match c with
  | O => hpE
  | S k => <[J k := OJoint (joint_obj su m n0 ob k (ps k))]> (heap_joints k ps)
  end.

Lemma heap_joints_lookup c ps k :
  (k < c)%nat -> heap_joints c ps !! J k = Some (OJoint (joint_obj su m n0 ob k (ps k))).
Proof.
  induction c as [|c IH]; intros Hk; [lia|]. simpl.
  destruct (decide (k = c)) as [->|Hne]; [apply lookup_insert_eq|].
  rewrite lookup_insert_ne by (unfold J, joint_addr; lia). apply IH. lia.
Qed.

Lemma heap_joints_lookup_other c ps l :
  (forall k, (k < c)%nat -> l <> J k) -> heap_joints c ps !! l = hpE !! l.
Proof.
  induction c as [|c IH]; intros Hl; [reflexivity|]. simpl.
  rewrite lookup_insert_ne by (apply not_eq_sym, Hl; lia). apply IH. intros k Hk. apply Hl. lia.
Qed.

Lemma heap_joints_ext c ps ps' :
  (forall k, (k < c)%nat -> ps k = ps' k) -> heap_joints c ps = heap_joints c ps'.
Proof.
  induction c as [|c IH]; intros Hps; [reflexivity|]. simpl.
  rewrite Hps by lia. f_equal. apply IH. intros k Hk. apply Hps. lia.
Qed.

(** Setting the stop parameters of an existing joint [i]. *)
Lemma heap_joints_set c ps ps' i :
  (i < c)%nat -> (forall k, (k < c)%nat -> ps' k = if (k =? i)%nat then true else ps k) ->
  <[J i := OJoint (joint_obj su m n0 ob i true)]> (heap_joints c ps) = heap_joints c ps'.
Proof.
  revert ps'. induction c as [|c IH]; intros ps' Hi Hps; [lia|]. simpl.
  destruct (decide (i = c)) as [->|Hne].
  - rewrite insert_insert_eq. rewrite Hps, Nat.eqb_refl by lia. f_equal.
    apply heap_joints_ext. intros k Hk. rewrite Hps by lia.
    destruct (Nat.eqb_spec k c); [lia|reflexivity].
  - rewrite insert_insert_ne by (unfold J, joint_addr; lia).
    rewrite (IH ps') by (try lia; intros k Hk; apply Hps; lia).
    rewrite Hps by lia. destruct (Nat.eqb_spec c i); [lia|reflexivity].
Qed.
End JointHeap.


Section JointStep.
Context `{Collaborators}.
Variables (su : hair_setup_t) (m : skeletal_model) (p : nat) (ent : entity) (ob n0 : nat)
          (hpE : gmap nat heap_obj) (wbE : list (nat * collision_group * collision_mask))
          (wc1 : list (nat * bool)) (g : btVector3) (en : gmap nat entity) (md : gmap Z skeletal_model)
          (h1 : hair_t).
Hypothesis Hent : en !! p = Some ent.
Hypothesis Hob : e_bt_body ent !! Z.to_nat (owner_body h1) = Some (Some ob).
Hypothesis Hjpb : (0 <= joints_per_body su < 256)%Z.
Hypothesis Hlen : length (mesh_tree m) = mesh_count m.

Let N := mesh_count m.
Let JC := (N * jpb su)%nat.
Let J := joint_addr n0 N.
Let hE := hair_set_elements h1 (elems_list m n0 N).

Definition joint_slots (c : nat) : list (option nat) :=
  map (fun k => if (k <? c)%nat then Some (J k) else None) (seq 0 JC).

Definition constraints_registered (c : nat) : list (nat * bool) :=
  map (fun k => (J k, true)) (seq 0 c).

Definition joints_state (c : nat) (ps : nat -> bool) : st :=
  mkst (heap_joints su m n0 ob hpE c ps) (J c) wbE (wc1 ++ constraints_registered c) g en md
       (Some (hair_set_joints hE JC (joint_slots c))).

(** Stop parameters set while joint [j] of group [i] is next. *)
Definition psij (i j : nat) (k : nat) : bool := (k <? i)%nat || ((k =? i)%nat && (0 <? j)%nat).

Definition joint_inv (i j : nat) (acc : Q * nat * Q * Q) (s : st) : Prop :=
  exists jx jy, acc = (iter_add 0 (joint_step su) j, (i * jpb su + j)%nat, jx, jy) /\
    ((jpb su <= 1)%nat -> jx = 0 /\ jy = 0) /\ s = joints_state (i * jpb su + j) (psij i j).

Lemma joint_position_norm d w dp jx jy :
  ((jpb su <= 1)%nat -> jx = 0 /\ jy = 0) ->
  joint_position su d w dp jx jy = joint_position su d w dp 0 0.
Proof.
  intros Hz. unfold joint_position. destruct (Z.ltb_spec 1 (joints_per_body su)); [reflexivity|].
  destruct Hz as [-> ->]; [unfold jpb; lia | reflexivity].
Qed.

Lemma joint_frames_run i jx jy hp na wb wc L :
  (i < N)%nat ->
  wp (joint_frames su p (Z.of_nat i) jx jy)
    (fun r s' => r = ((expected_frames su m i jx jy).1, (expected_frames su m i jx jy).2,
                      Some (prev_addr n0 ob i)) /\
                 s' = mkst hp na wb wc g en md (Some (hair_set_joints hE JC L)))
    (mkst hp na wb wc g en md (Some (hair_set_joints hE JC L))).
Proof.
  intros Hi. unfold joint_frames, expected_frames, prev_addr.
  destruct (Nat.eqb_spec i 0) as [->|Hi0]; simpl.
  - repeat hstep. eapply wp_deref_entity; [exact Hent|]. repeat hstep. eapply wp_deref; [exact Hob|].
    repeat hstep. split; reflexivity.
  - destruct (Z.eqb_spec (Z.of_nat i) 0) as [|_]; [lia|].
    destruct (lookup_lt_is_Some_2 (mesh_tree m) (i - 1)) as [mt Hmt]; [lia|].
    repeat hstep. eapply wp_element_at.
    { cbn [elements hair_set_joints hE hair_set_elements]. unfold elems_list.
      replace (Z.to_nat (Z.of_nat i - 1)) with (i - 1)%nat by lia.
      rewrite list_lookup_imap, Hmt. simpl. case_decide; [reflexivity|lia]. }
    repeat hstep. unfold mesh_at. rewrite Hmt. split; reflexivity.
Qed.

Lemma joint_slots_lookup c k :
  (k < JC)%nat -> joint_slots c !! k = Some (if (k <? c)%nat then Some (J k) else None).
Proof. intros Hk. unfold joint_slots. rewrite list_lookup_fmap, lookup_seq_lt by exact Hk. reflexivity. Qed.

Lemma joint_slots_step c :
  (c < JC)%nat -> <[c := Some (J c)]> (joint_slots c) = joint_slots (S c).
Proof.
  intros Hc. apply list_eq. intros k. unfold joint_slots.
  destruct (decide (k = c)) as [->|Hne].
  - rewrite list_lookup_insert_eq by (rewrite length_map, length_seq; exact Hc).
    rewrite list_lookup_fmap, lookup_seq_lt by exact Hc. simpl.
    destruct (Nat.ltb_spec c (S c)); [reflexivity|lia].
  - rewrite list_lookup_insert_ne by congruence. rewrite !list_lookup_fmap.
    destruct (decide (k < JC)%nat).
    + rewrite lookup_seq_lt by assumption. simpl.
      destruct (Nat.ltb_spec k c), (Nat.ltb_spec k (S c)); try reflexivity; lia.
    + rewrite lookup_seq_ge by lia. reflexivity.
Qed.

Lemma constraints_registered_S c :
  constraints_registered (S c) = constraints_registered c ++ [(J c, true)].
Proof. unfold constraints_registered. rewrite seq_S, map_app. reflexivity. Qed.

(** Joint [j] of group [i] right after its creation and limits. *)
Definition joint_created (i j : nat) : btGeneric6DofConstraint :=
  let '(jx, jy) := joint_pos su m i j in
  let '(fa, fb) := expected_frames su m i jx jy in
  let '(al, au, it) := if (i =? 0)%nat then root_joint_limits else chain_joint_limits in
  set_limits (new_btGeneric6DofConstraint (prev_addr n0 ob i) (body_addr n0 i) fa fb true)
    vzero vzero al au it 5.

Lemma joint_obj_created i j b :
  (j < jpb su)%nat ->
  joint_obj su m n0 ob (i * jpb su + j) b =
    if b then set_stop_params (joint_created i j) (joint_cfm su) (joint_erp su) else joint_created i j.
Proof.
  intros Hj. unfold joint_obj. destruct (div_mod_pair i j (jpb su) Hj) as [-> ->].
  unfold joint_obj_ij, joint_created.
  unfold root_joint_limits, chain_joint_limits; destruct (i =? 0)%nat;
  destruct_pairs;
  destruct b; reflexivity.
Qed.

Lemma joint_obj_created_at k i j b :
  k = (i * jpb su + j)%nat -> (j < jpb su)%nat ->
  joint_obj su m n0 ob k b =
    if b then set_stop_params (joint_created i j) (joint_cfm su) (joint_erp su) else joint_created i j.
Proof. intros -> Hj. apply joint_obj_created, Hj. Qed.

Lemma psij_step i j c :
  c = (i * jpb su + j)%nat -> (j < jpb su)%nat ->
  forall k, (k < c)%nat -> psij i (S j) k = if (k =? i)%nat then true else psij i j k.
Proof.
  intros -> Hj k Hk. unfold psij.
  destruct (Nat.eqb_spec k i) as [->|]; [|reflexivity].
  rewrite Nat.ltb_irrefl. reflexivity.
Qed.

Lemma psij_self i j : psij i (S j) i = true.
Proof. unfold psij. rewrite Nat.ltb_irrefl, Nat.eqb_refl. reflexivity. Qed.

Lemma joint_pos_zero i j : (jpb su <= 1)%nat -> joint_pos su m i j = (0, 0).
Proof.
  intros Hle. unfold joint_pos, joint_position.
  destruct (Z.ltb_spec 1 (joints_per_body su)); [unfold jpb in Hle; lia|reflexivity].
Qed.

(** The heap after joint [c = i * jpb + j] is created, the stop
    parameters of [joints[i]] are set and the limits of joint [c] are set:
    when [i = c] the three writes go to the new joint. *)
Lemma joint_heap_self i j N0 al au it :
  i = (i * jpb su + j)%nat -> (j < jpb su)%nat ->
  set_limits N0 vzero vzero al au it 5 = joint_created i j ->
  <[J i := OJoint (set_limits (set_stop_params N0 (joint_cfm su) (joint_erp su)) vzero vzero al au it 5)]>
    (<[J i := OJoint (set_stop_params N0 (joint_cfm su) (joint_erp su))]>
      (<[J i := OJoint N0]> (heap_joints su m n0 ob hpE i (psij i j))))
  = heap_joints su m n0 ob hpE (S i) (psij i (S j)).
Proof.
  intros Hc Hj Hlim. cbn [heap_joints]. unfold J, N in *.
  rewrite !insert_insert_eq, psij_self, set_limits_stop_params, Hlim.
  rewrite (joint_obj_created_at i i j true Hc Hj). f_equal.
  apply heap_joints_ext. intros k Hk. unfold psij.
  destruct (Nat.eqb_spec k i); [lia|reflexivity].
Qed.

(** ... and when [i < c] they go to joint [i], created earlier. *)
Lemma joint_heap_prev i j c N0 al au it :
  c = (i * jpb su + j)%nat -> (j < jpb su)%nat -> (i < c)%nat ->
  set_limits N0 vzero vzero al au it 5 = joint_created i j ->
  <[J c := OJoint (set_limits N0 vzero vzero al au it 5)]>
    (<[J i := OJoint (set_stop_params (joint_obj su m n0 ob i (psij i j i)) (joint_cfm su) (joint_erp su))]>
      (<[J c := OJoint N0]> (heap_joints su m n0 ob hpE c (psij i j))))
  = heap_joints su m n0 ob hpE (S c) (psij i (S j)).
Proof.
  intros Hc Hj Hic Hlim. cbn [heap_joints]. unfold J, N in *.
  rewrite (insert_insert_ne _ (joint_addr n0 (mesh_count m) i)) by (unfold joint_addr; lia).
  rewrite insert_insert_eq, set_stop_params_joint_obj.
  rewrite (heap_joints_set _ _ _ _ _ c (psij i j) (psij i (S j)) i) by (try lia; exact (psij_step i j c Hc Hj)).
  replace (psij i (S j) c) with false
    by (unfold psij; destruct (Nat.ltb_spec c i), (Nat.eqb_spec c i); try lia; reflexivity).
  rewrite Hlim, (joint_obj_created_at c i j false Hc Hj). reflexivity.
Qed.

Lemma joint_step_run i j acc s :
  (i < N)%nat -> (j < jpb su)%nat -> joint_inv i j acc s ->
  wp (Hair_Create_joint su p (joint_step su) (Z.of_nat i) (body_width m i) (body_depth m i)
        (0 + Z.of_nat j) acc) (joint_inv i (S j)) s.
Proof.
  intros Hi Hj (jx & jy & -> & Hz & ->).
  remember (i * jpb su + j)%nat as c eqn:Hc.
  assert (Hcl : (c < JC)%nat) by (subst c; unfold JC, N; nia).
  assert (Hic : (i <= c)%nat) by (subst c; nia).
  unfold Hair_Create_joint. cbv beta iota.
  rewrite joint_position_norm by exact Hz. fold (joint_pos su m i j).
  destruct (joint_pos su m i j) as [jx' jy'] eqn:Hpos.
  unfold joints_state. apply wp_bind.
  eapply wp_mono; [apply joint_frames_run; exact Hi|]. intros r s' [-> ->]. cbv beta iota.
  destruct (lookup_lt_is_Some_2 (mesh_tree m) i) as [mt Hmt]; [lia|].
  rewrite Nat2Z.id.
  repeat hstep. eapply wp_element_at; [apply (elems_list_lookup _ _ _ _ _ Hmt); lia|].
  repeat hstep. eapply wp_set_joint; [exact (joint_slots_lookup c c Hcl)|].
  repeat hstep. eapply wp_joint_at.
  { cbn [joints hair_set_joints]. rewrite joint_slots_step by exact Hcl.
    etransitivity; [apply joint_slots_lookup; lia|]. destruct (Nat.ltb_spec i (S c)); [reflexivity|lia]. }
  repeat hstep.
  assert (Hz0 : (Z.of_nat i =? 0)%Z = (i =? 0)%nat) by (destruct (Z.eqb_spec (Z.of_nat i) 0), (Nat.eqb_spec i 0); lia).
  rewrite Hz0.
  destruct (if (i =? 0)%nat then root_joint_limits else chain_joint_limits) as [[al au] it] eqn:Hlim.
  assert (Hcr : set_limits (new_btGeneric6DofConstraint (prev_addr n0 ob i) (body_addr n0 i)
                 (expected_frames su m i jx' jy').1 (expected_frames su m i jx' jy').2 true)
                 vzero vzero al au it 5 = joint_created i j).
  { unfold joint_created. rewrite Hpos, Hlim. destruct (expected_frames su m i jx' jy'). reflexivity. }
  assert (Hacc : joint_inv i (S j) (iter_add 0 (joint_step su) j + joint_step su, S c, jx', jy')
    (mkst (heap_joints su m n0 ob hpE (S c) (psij i (S j))) (J (S c)) wbE
          (wc1 ++ constraints_registered (S c)) g en md
          (Some (hair_set_joints hE JC (joint_slots (S c)))))).
  { exists jx', jy'. split; [repeat f_equal; lia|]. split.
    - intros Hle. rewrite joint_pos_zero in Hpos by exact Hle. injection Hpos as <- <-. split; reflexivity.
    - unfold joints_state. repeat f_equal; lia. }
  destruct (decide (i = c)) as [Heq|Hne].
  - subst c. rewrite <- Heq.
    eapply wp_update_joint; [apply lookup_insert_eq|]. repeat hstep.
    eapply wp_update_joint; [apply lookup_insert_eq|]. repeat hstep.
    rewrite <- Heq in Hacc. rewrite <- (joint_heap_self i j _ al au it Heq Hj Hcr) in Hacc.
    rewrite <- joint_slots_step, constraints_registered_S, app_assoc in Hacc by lia.
    unfold J, N in *. replace (joint_addr n0 (mesh_count m) (S i)) with (S (joint_addr n0 (mesh_count m) i))
      in Hacc by (unfold joint_addr; lia). exact Hacc.
  - eapply wp_update_joint.
    { rewrite lookup_insert_ne by (unfold J, joint_addr; lia). unfold J, N. apply heap_joints_lookup. lia. }
    repeat hstep.
    eapply wp_update_joint.
    { rewrite lookup_insert_ne by (unfold J, joint_addr; lia). apply lookup_insert_eq. }
    repeat hstep.
    rewrite <- (joint_heap_prev i j c _ al au it Hc Hj ltac:(lia) Hcr) in Hacc.
    rewrite <- joint_slots_step, constraints_registered_S, app_assoc in Hacc by exact Hcl.
    unfold J, N in *. replace (joint_addr n0 (mesh_count m) (S c)) with (S (joint_addr n0 (mesh_count m) c))
      in Hacc by (unfold joint_addr; lia). exact Hacc.
Qed.

Lemma joint_group_run i :
  (i < N)%nat ->
  wp (Hair_Create_joint_group su p (joint_step su) (0 + Z.of_nat i) (i * jpb su)%nat)
     (fun cj s => cj = (S i * jpb su)%nat /\ s = joints_state (S i * jpb su) (psij (S i) 0))
     (joints_state (i * jpb su) (psij i 0)).
Proof.
  intros Hi. destruct (lookup_lt_is_Some_2 (mesh_tree m) i) as [mt Hmt]; [lia|].
  assert (Hmk : mesh_at m i = mesh_base mt) by (unfold mesh_at; rewrite Hmt; reflexivity).
  unfold Hair_Create_joint_group. replace (Z.to_nat (0 + Z.of_nat i)) with i by lia.
  unfold joints_state at 2.
  repeat hstep. eapply wp_element_at; [apply (elems_list_lookup _ _ _ _ _ Hmt); lia|].
  repeat hstep. rewrite <- Hmk. fold (body_width m i) (body_depth m i).
  replace (0 + Z.of_nat i)%Z with (Z.of_nat i) by lia.
  eapply wp_mono.
  { apply (wp_iter_range _ (joint_inv i)).
    - intros j acc s Hj Hinv. apply joint_step_run; [exact Hi | exact Hj | exact Hinv].
    - exists 0, 0. split; [repeat f_equal; lia|]. split; [auto|].
      unfold joints_state. rewrite Nat.add_0_r. reflexivity. }
  intros acc s (jx & jy & -> & _ & ->). cbv beta iota. hstep. change (Z.to_nat (joints_per_body su)) with (jpb su). split; [nia|].
  unfold joints_state. replace (i * jpb su + jpb su)%nat with (S i * jpb su)%nat by nia.
  rewrite (heap_joints_ext _ _ _ _ _ _ (psij i (jpb su)) (psij (S i) 0)); [reflexivity|].
  intros k Hk. unfold psij.
  destruct (Nat.ltb_spec k i), (Nat.eqb_spec k i), (Nat.ltb_spec k (S i)), (Nat.eqb_spec k (S i)),
    (Nat.ltb_spec 0 (jpb su)); simpl; try reflexivity; nia.
Qed.

Hypothesis Hcount : element_count h1 = N.

Lemma joints_run :
  (N <= 255)%nat ->
  wp (Hair_Create_joints su p (joint_step su))
     (fun cj s => cj = (N * jpb su)%nat /\ s = joints_state (N * jpb su) (psij N 0))
     (joints_state 0 (psij 0 0)).
Proof.
  intros HN. unfold Hair_Create_joints. unfold joints_state at 2.
  hstep. apply wp_get_hair. cbn [element_count hair_set_joints hE hair_set_elements]. rewrite Hcount.
  apply wp_for_loop; [lia | simpl; lia | unfold loop_fuel; simpl; lia |].
  replace (Z.to_nat (Z.of_nat N - 0)) with N by lia.
  eapply wp_mono.
  { apply (wp_iter_range _ (fun i cj s => cj = (i * jpb su)%nat /\ s = joints_state (i * jpb su) (psij i 0))).
    - intros i cj s Hi [-> ->]. apply joint_group_run, Hi.
    - split; reflexivity. }
  intros cj s [-> ->]. split; reflexivity.
Qed.
End JointStep.

(** ** The whole run *)

Section CreateRun.
Context `{Collaborators}.
Variables (su : hair_setup_t) (p : nat) (ent : entity) (ob : nat) (m : skeletal_model)
          (btl bt0 : ss_bone_tag) (hp : gmap nat heap_obj) (n0 : nat)
          (wb : list (nat * collision_group * collision_mask)) (wc : list (nat * bool))
          (g : btVector3) (en : gmap nat entity) (md : gmap Z skeletal_model) (h0 : hair_t).
Hypothesis Hent : en !! p = Some ent.
Hypothesis Hlink : (0 <= link_body su < Z.of_nat (bone_tag_count ent))%Z.
Hypothesis Hob : e_bt_body ent !! Z.to_nat (link_body su) = Some (Some ob).
Hypothesis Hbtl : e_bone_tags ent !! Z.to_nat (link_body su) = Some btl.
Hypothesis Hbt0 : e_bone_tags ent !! 0%nat = Some bt0.
Hypothesis Hm : md !! model su = Some m.
Hypothesis Hmc : (0 < mesh_count m <= 255)%nat.
Hypothesis Hlen : length (mesh_tree m) = mesh_count m.
Hypothesis Hjpb : (0 <= joints_per_body su < 256)%Z.

Definition weight_step : Q := (root_weight su - tail_weight su) / inject_Z (Z.of_nat (mesh_count m)).
Definition start_transform : mat4 := Mat4_Mat4_mul (e_transform ent) (full_transform bt0).
Definition created_hair_init : hair_t := init_hair h0 su p ent btl m n0.
Definition created_heap_elems : gmap nat heap_obj :=
  heap_elems su m g start_transform weight_step n0 (<[n0 := OContainer hair_container]> hp) (mesh_count m).
Definition created_bodies : list (nat * collision_group * collision_mask) :=
  wb ++ bodies_registered n0 (mesh_count m).

(** The state a successful [Hair_Create] leaves. *)
Definition created_state : st :=
  joints_state su m ob n0 created_heap_elems created_bodies wc g en md created_hair_init
    (mesh_count m * jpb su) (psij (mesh_count m) 0).

Lemma init_elems_state0 :
  mkst (<[n0 := OContainer hair_container]> hp) (S n0) wb wc g en md (Some created_hair_init) =
  elems_state su m ent bt0 created_hair_init weight_step n0 (<[n0 := OContainer hair_container]> hp)
    wb wc g en md 0.
Proof.
  unfold elems_state, mkst. rewrite elems_list_0, Hlen, app_nil_r.
  replace (S n0 + 3 * 0)%nat with (S n0) by lia. reflexivity.
Qed.

Lemma joint_slots_0 : joint_slots su m n0 0 = replicate (mesh_count m * jpb su) None.
Proof.
  apply list_eq. intros k. unfold joint_slots. rewrite list_lookup_fmap.
  destruct (decide (k < mesh_count m * jpb su)%nat).
  - rewrite lookup_seq_lt, lookup_replicate_2 by assumption. reflexivity.
  - rewrite lookup_seq_ge by lia. symmetry. apply lookup_replicate_None. lia.
Qed.

Theorem Hair_Create_run :
  wp (Hair_Create (Some su) (Some p)) (fun r s => r = true /\ s = created_state)
     (mkst hp n0 wb wc g en md (Some h0)).
Proof.
  unfold Hair_Create. apply wp_bind.
  eapply wp_intro; [eapply guard_some_run; simpl; eauto; lia|]. cbv beta iota.
  apply wp_bind. eapply wp_mono; [apply init_run; eauto|]. intros ws s [-> ->].
  fold created_hair_init. rewrite init_elems_state0.
  apply wp_bind. eapply wp_mono; [eapply elements_run; eauto; lia|]. intros cw s [_ ->].
  apply wp_bind. unfold Hair_Create_joints_alloc, elems_state. repeat hstep.
  cbn [element_count hair_set_elements created_hair_init init_hair].
  change (Z.to_nat (joints_per_body su)) with (jpb su). rewrite <- joint_slots_0.
  replace (mkst _ _ _ wc g en md _) with
    (joints_state su m ob n0 created_heap_elems created_bodies wc g en md created_hair_init 0 (psij 0 0)).
  2:{ unfold joints_state, mkst. rewrite app_nil_r. f_equal. f_equal. unfold joint_addr. lia. }
  eapply wp_mono; [eapply joints_run with (ent := ent); eauto; lia|]. intros cj s [_ ->].
  hstep. split; reflexivity.
Qed.
Lemma Hair_Create_returns :
  Hair_Create (Some su) (Some p) (mkst hp n0 wb wc g en md (Some h0)) = Returns (true, created_state).
Proof. apply wp_returns, Hair_Create_run. Qed.
End CreateRun.

(** ** Reading the created state *)

Section Lookups.
Context `{Collaborators}.
Variables (su : hair_setup_t) (m : skeletal_model) (g : btVector3) (tr : mat4) (step : Q) (n0 : nat)
          (hp : gmap nat heap_obj).

Lemma heap_elems_lookup_other k l :
  (forall j, (j < k)%nat -> l <> shape_addr n0 j /\ l <> motion_addr n0 j /\ l <> body_addr n0 j) ->
  heap_elems su m g tr step n0 hp k !! l = hp !! l.
Proof.
  induction k as [|k IH]; intros Hl; [reflexivity|]. simpl.
  destruct (Hl k ltac:(lia)) as (H1 & H2 & H3).
  rewrite !lookup_insert_ne by congruence. apply IH. intros j Hj. apply Hl. lia.
Qed.

Lemma heap_elems_lookup j k :
  (j < k)%nat ->
  heap_elems su m g tr step n0 hp k !! body_addr n0 j = Some (OBody (elem_body su m g step n0 j)) /\
  heap_elems su m g tr step n0 hp k !! motion_addr n0 j = Some (OMotionState tr) /\
  heap_elems su m g tr step n0 hp k !! shape_addr n0 j = Some (OShape (BT_CSfromMesh (mesh_at m j))).
Proof.
  induction k as [|k IH]; intros Hj; [lia|]. simpl.
  unfold body_addr, motion_addr, shape_addr in *.
  destruct (decide (j = k)) as [->|Hne].
  - rewrite lookup_insert_eq, lookup_insert_ne, lookup_insert_eq, lookup_insert_ne, lookup_insert_ne,
      lookup_insert_eq by lia. auto.
  - rewrite !lookup_insert_ne by lia. apply IH. lia.
Qed.

(** The fields of a created body. *)
Lemma created_body_fields cw mesh ms sh :
  let b := created_body su g step cw mesh ms sh in
  rb_mass b = cw - step /\ rb_motion_state b = ms /\ rb_shape b = sh /\
  rb_local_inertia b = calculateLocalInertia (BT_CSfromMesh mesh) (cw * hair_inertia su) /\
  rb_lin_damping b = (hair_damping su).1 /\ rb_ang_damping b = (hair_damping su).2 /\
  rb_restitution b = hair_restitution su /\ rb_friction b = hair_friction su /\
  rb_activation b = DISABLE_DEACTIVATION /\ rb_static b = Qeq_bool (cw - step) 0 /\
  rb_gravity b = (if Qeq_bool (cw - step) 0 then g *v (1 # 10) else g).
Proof.
  cbv zeta. unfold created_body. cbv zeta.
  set (B := forceActivationState _ _).
  assert (HS : rb_static B = Qeq_bool (cw - step) 0) by reflexivity.
  rewrite HS. destruct (Qeq_bool (cw - step) 0) eqn:E; repeat split; exact HS.
Qed.
End Lookups.

Section Created.
Context `{Collaborators}.
Variables (su : hair_setup_t) (p : nat) (ent : entity) (ob : nat) (m : skeletal_model)
          (btl bt0 : ss_bone_tag) (hp : gmap nat heap_obj) (n0 : nat)
          (wb : list (nat * collision_group * collision_mask)) (wc : list (nat * bool))
          (g : btVector3) (en : gmap nat entity) (md : gmap Z skeletal_model) (h0 : hair_t).
Hypothesis Hlen : length (mesh_tree m) = mesh_count m.

Let N := mesh_count m.
Let cs := created_state su p ent ob m btl bt0 hp n0 wb wc g en md h0.
Let step := weight_step su m.
Let tr := start_transform ent bt0.

Lemma created_hr :
  hr cs = Some (hair_set_joints (hair_set_elements (created_hair_init su p ent m btl n0 h0)
                                   (elems_list m n0 N)) (N * jpb su)%nat (joint_slots su m n0 (N * jpb su)%nat)).
Proof. reflexivity. Qed.

Lemma created_heap_elems_lookup l :
  (l < S n0 + 3 * N)%nat -> heap (eng cs) !! l = created_heap_elems su ent m bt0 hp n0 g !! l.
Proof.
  intros Hl. apply heap_joints_lookup_other. intros k _. unfold joint_addr. fold N. lia.
Qed.

Lemma created_body_at i :
  (i < N)%nat -> heap_body (eng cs) (body_addr n0 i) = Some (elem_body su m g step n0 i).
Proof.
  intros Hi. unfold heap_body. rewrite created_heap_elems_lookup by (unfold body_addr; lia).
  unfold created_heap_elems. rewrite (proj1 (heap_elems_lookup _ _ _ _ _ _ _ i _ Hi)). reflexivity.
Qed.

(** Element [i] of the created hair points to the body [elem_body i]. *)
Lemma created_hair_body i :
  (i < N)%nat -> hair_body cs i = Some (elem_body su m g step n0 i).
Proof.
  intros Hi. destruct (lookup_lt_is_Some_2 (mesh_tree m) i) as [mt Hmt]; [lia|].
  unfold hair_body. rewrite created_hr. cbn [elements hair_set_joints hair_set_elements].
  rewrite (elems_list_lookup _ _ N i mt Hmt Hi). apply created_body_at, Hi.
Qed.

Lemma created_hair_motion i :
  (i < N)%nat -> hair_motion cs i = Some tr.
Proof.
  intros Hi. unfold hair_motion. rewrite created_hair_body by exact Hi.
  unfold elem_body. rewrite (proj1 (proj2 (created_body_fields _ _ _ _ _ _ _))).
  unfold heap_motion. rewrite created_heap_elems_lookup by (unfold motion_addr; lia).
  unfold created_heap_elems. rewrite (proj1 (proj2 (heap_elems_lookup _ _ _ _ _ _ _ i _ Hi))). reflexivity.
Qed.

(** Joint slot [k] of the created hair points to [joint_obj k], its stop
    parameters set exactly when [k < N]. *)
Lemma created_hair_joint k :
  (k < N * jpb su)%nat -> hair_joint cs k = Some (joint_obj su m n0 ob k (k <? N)%nat).
Proof.
  intros Hk. unfold hair_joint. rewrite created_hr. cbn [joints hair_set_joints].
  rewrite joint_slots_lookup by exact Hk. destruct (Nat.ltb_spec k (N * jpb su)); [|lia].
  unfold heap_joint. cbn [cs created_state joints_state mkst eng heap].
  rewrite heap_joints_lookup by exact Hk. unfold psij.
  fold N. destruct (k <? N)%nat, (k =? N)%nat; reflexivity.
Qed.
(** Below the first free address, the created heap is the old one. *)
Lemma created_heap_low l : (l < n0)%nat -> heap (eng cs) !! l = hp !! l.
Proof.
  intros Hl. rewrite created_heap_elems_lookup by lia.
  unfold created_heap_elems. rewrite heap_elems_lookup_other.
  - apply lookup_insert_ne. lia.
  - intros j _. unfold shape_addr, motion_addr, body_addr. lia.
Qed.

(** The container allocated first stays at [n0]. *)
Lemma created_heap_container : heap (eng cs) !! n0 = Some (OContainer hair_container).
Proof.
  rewrite created_heap_elems_lookup by lia. unfold created_heap_elems. rewrite heap_elems_lookup_other.
  - apply lookup_insert_eq.
  - intros j _. unfold shape_addr, motion_addr, body_addr. lia.
Qed.

End Created.

(** ** More than 255 meshes: the body loop never ends *)

Section ElementsDiverge.
Context `{Collaborators}.
Variables (su : hair_setup_t) (m : skeletal_model) (p : nat) (ent : entity) (bt0 : ss_bone_tag)
          (h1 : hair_t) (step : Q) (g : btVector3) (en : gmap nat entity) (md : gmap Z skeletal_model).
Hypothesis Hent : en !! p = Some ent.
Hypothesis Hbt0 : e_bone_tags ent !! 0%nat = Some bt0.
Hypothesis Howner : owner_char h1 = Some p.
Hypothesis Hroot : root_index h1 = 0%nat.
Hypothesis Hlen : length (mesh_tree m) = mesh_count m.
Hypothesis Hcount : element_count h1 = mesh_count m.
Hypothesis Hbig : (256 <= mesh_count m)%nat.

(** The states the body loop passes through: the hair is [h1] with some
    element array of the model's length. *)
Definition elems_shape (_ : Q) (s : st) : Prop :=
  exists hp na wb wc L, s = mkst hp na wb wc g en md (Some (hair_set_elements h1 L)) /\
                        length L = mesh_count m.

Lemma elems_shape_step k cw s :
  (0 <= k < 2 ^ 8)%Z -> elems_shape cw s ->
  exists cw' s', Hair_Create_element su m step k cw s = Returns (cw', s') /\ elems_shape cw' s'.
Proof.
  intros Hk (hp & na & wb & wc & L & -> & HL).
  destruct (lookup_lt_is_Some_2 (mesh_tree m) (Z.to_nat k)) as [mt Hmt]; [simpl in Hk; lia|].
  destruct (lookup_lt_is_Some_2 L (Z.to_nat k)) as [el Hel]; [simpl in Hk; lia|].
  eassert (HW : wp (Hair_Create_element su m step k cw) _ (mkst hp na wb wc g en md (Some (hair_set_elements h1 L))))
    by (eapply element_run with (p := p); eauto).
  destruct (wp_run _ _ _ HW) as (cw' & s' & Hr & _ & ->).
  exists cw'. eexists. split; [exact Hr|]. do 5 eexists. split; [reflexivity|].
  rewrite length_insert. exact HL.
Qed.

Lemma elements_diverge hp na wb wc L :
  length L = mesh_count m ->
  Hair_Create_elements su m step (mkst hp na wb wc g en md (Some (hair_set_elements h1 L))) = Diverges.
Proof.
  intros HL. unfold Hair_Create_elements. rewrite (Mbind_Returns _ _ _ _ _ (get_hair_run (mkst hp na wb wc g en md (Some (hair_set_elements h1 L))) _ eq_refl)).
  cbn [element_count hair_set_elements]. rewrite Hcount.
  apply (for_loop_diverges _ _ _ elems_shape); [lia | simpl; lia | exact elems_shape_step | simpl; lia |].
  do 5 eexists. split; [reflexivity | exact HL].
Qed.
End ElementsDiverge.
