(* ===== verification/Scenario.v ===== *)
(** * A concrete scene

    The inputs the witnesses evaluate the theorems on: collaborators with
    rational stand-ins for [cos] and [sin], an owner entity with two bones
    (the anchor bone 1 is translated, bone 0 is not, so the two start
    transforms differ), a three-mesh hair model and a 256-mesh one, and a
    setup with two joints per body, so that the joint array has slots past
    [element_count]. *)

From S2P Require Import Prelude Vector Engine Hair.

(** The side conditions of a theorem applied to the scene, closed by
    evaluation. *)
Ltac discharge_scene :=
  first [ reflexivity | split; discharge_scene | simpl; lia | vm_compute; lia
        | eexists; reflexivity | apply (bool_decide_eq_true_1 _); vm_compute; reflexivity ].

Definition demo : Collaborators :=
  {| M_PI := 355 # 113; M_PI_pos := eq_refl;
     btCos := fun x => 1 - x * x / 2; btSin := fun x => x;
     calculateLocalInertia := fun _ m => Vec3 m m m;
     Room_FindPosCogerrence := fun _ r => r |}.

Definition idm : mat4 := [1;0;0;0; 0;1;0;0; 0;0;1;0; 0;0;0;1].

(** The identity moved by [(0, 5, 0)]: column-major, the origin at 12..14. *)
Definition head_tr : mat4 := [1;0;0;0; 0;1;0;0; 0;0;1;0; 0;5;0;1].

Definition mk_mesh (n : nat) : base_mesh :=
  {| mesh_id := n; bb_min := Vec3 0 0 0; bb_max := Vec3 2 4 1; bm_after_bb_max := 0 |}.

Definition mk_model (n : nat) : skeletal_model :=
  {| mesh_count := n; mesh_tree := map (fun k => {| mesh_base := mk_mesh k |}) (seq 0 n) |}.

Definition lara : entity :=
  {| e_transform := idm;
     e_bone_tags := [ {| full_transform := idm |}; {| full_transform := head_tr |} ];
     e_bt_body := [Some 0%nat; Some 0%nat] |}.

Definition owner_rb : btRigidBody := new_btRigidBody 1 0 0 vzero.

Definition hp0 : gmap nat heap_obj := <[0%nat := OBody owner_rb]> ∅.
Definition en0 : gmap nat entity := <[7%nat := lara]> ∅.
Definition md0 : gmap Z skeletal_model := <[5%Z := mk_model 3]> (<[6%Z := mk_model 256]> ∅).
Definition g0 : btVector3 := Vec3 0 (-10) 0.

Definition setup0 : hair_setup_t :=
  {| model := 5; link_body := 1; vertex_map_count := 0; root_weight := 1; tail_weight := 1 # 10;
     hair_damping := (1 # 2, 1 # 2); hair_inertia := 1; hair_friction := 1 # 4;
     hair_restitution := 0; joints_per_body := 2; joint_overlap := 1; joint_radius := 1;
     joint_cfm := 1 # 10; joint_erp := 1 # 5; head_offset := vzero; root_angle := vzero;
     head_vertex_map := ∅ |}.

(** The same setup on the 256-mesh model. *)
Definition setup_big : hair_setup_t :=
  {| model := 6; link_body := 1; vertex_map_count := 0; root_weight := 1; tail_weight := 1 # 10;
     hair_damping := (1 # 2, 1 # 2); hair_inertia := 1; hair_friction := 1 # 4;
     hair_restitution := 0; joints_per_body := 2; joint_overlap := 1; joint_radius := 1;
     joint_cfm := 1 # 10; joint_erp := 1 # 5; head_offset := vzero; root_angle := vzero;
     head_vertex_map := ∅ |}.

Definition s0 : st := mkst hp0 1 [] [] g0 en0 md0 (Some hair_zero).

(** The same setup anchored at bone 2, past [lara]'s two bones. *)
Definition setup_far : hair_setup_t :=
  {| model := 5; link_body := 2; vertex_map_count := 0; root_weight := 1; tail_weight := 1 # 10;
     hair_damping := (1 # 2, 1 # 2); hair_inertia := 1; hair_friction := 1 # 4;
     hair_restitution := 0; joints_per_body := 2; joint_overlap := 1; joint_radius := 1;
     joint_cfm := 1 # 10; joint_erp := 1 # 5; head_offset := vzero; root_angle := vzero;
     head_vertex_map := ∅ |}.

(** A one-element hair without joints: its shape at 1, its body at 2
    (with its motion state at 4), its container at 3. *)
Definition cut_hair : hair_t :=
  {| container := Some 3%nat; owner_char := Some 7%nat; owner_body := 1;
     owner_char_pos := vzero; owner_char_ang := vzero; owner_body_pos := vzero; owner_body_ang := vzero;
     root_index := 0; tail_index := 0; element_count := 1;
     elements := [ {| he_mesh := Some (mk_mesh 0); he_shape := Some 1%nat; he_body := Some 2%nat |} ];
     joint_count := 0; joints := [] |}.

Definition cut_hp : gmap nat heap_obj :=
  <[3%nat := OContainer Container_Create_obj]> (<[2%nat := OBody (new_btRigidBody 1 4 1 vzero)]>
    (<[1%nat := OShape (BT_CSfromMesh (mk_mesh 0))]> (<[4%nat := OMotionState idm]> hp0))).

(** An owner with fifteen bone tags: bone 14 is moved by [(0, 5, 0)],
    the others are not; every bone carries the owner's body at 0. *)
Definition lara15 : entity :=
  {| e_transform := idm;
     e_bone_tags := replicate 14 {| full_transform := idm |} ++ [ {| full_transform := head_tr |} ];
     e_bt_body := replicate 15 (Some 0%nat) |}.

Definition en1 : gmap nat entity := <[8%nat := lara15]> en0.

(** [cut_hair] owned by [lara15] and linked to its bone 14. *)
Definition fly_hair : hair_t :=
  {| container := Some 3%nat; owner_char := Some 8%nat; owner_body := 14;
     owner_char_pos := vzero; owner_char_ang := vzero; owner_body_pos := vzero; owner_body_ang := vzero;
     root_index := 0; tail_index := 0; element_count := 1;
     elements := [ {| he_mesh := Some (mk_mesh 0); he_shape := Some 1%nat; he_body := Some 2%nat |} ];
     joint_count := 0; joints := [] |}.

(** [setup0] without joints. *)
Definition setup_nj : hair_setup_t :=
  {| model := 5; link_body := 1; vertex_map_count := 0; root_weight := 1; tail_weight := 1 # 10;
     hair_damping := (1 # 2, 1 # 2); hair_inertia := 1; hair_friction := 1 # 4;
     hair_restitution := 0; joints_per_body := 0; joint_overlap := 1; joint_radius := 1;
     joint_cfm := 1 # 10; joint_erp := 1 # 5; head_offset := vzero; root_angle := vzero;
     head_vertex_map := ∅ |}.
