(* ===== verification/CreateSpec.v ===== *)
(** * What [Hair_Create] does

    The properties of [Hair_Create] (src/src/hair.cpp, lines 3-245) on
    an owner and a model that pass its checks, read off the final state of
    [CreateFacts.Hair_Create_run]; its failure on the others; and its
    divergence past 255 meshes.  Each theorem is followed by its witness on
    the scene of [Scenario]. *)

From S2P Require Import Prelude Vector Engine Hair HairCreate CreateFacts Scenario.

(** The hypotheses of a witness, in the order the theorem states them. *)
Ltac discharge :=
  first [ reflexivity | split; discharge | simpl; lia | vm_compute; lia | vm_compute; reflexivity
        | apply create_preb_false; vm_compute; reflexivity ].

Section CreateSpec.
Context `{Collaborators}.
Variables (su : hair_setup_t) (p : nat) (ent : entity) (ob : nat) (m : skeletal_model)
          (btl bt0 : ss_bone_tag) (hp : gmap nat heap_obj) (n0 : nat)
          (wb : list (nat * collision_group * collision_mask)) (wc : list (nat * bool))
          (g : btVector3) (en : gmap nat entity) (md : gmap Z skeletal_model) (h0 : hair_t).
Hypothesis Hent : en !! p = Some ent.
Hypothesis Hlink : (0 <= link_body su < Z.of_nat (bone_tag_count ent))%Z.
Hypothesis Hob : e_bt_body ent !! Z.to_nat (link_body su) = Some (Some ob).
Hypothesis Hbtl : e_bone_tags ent !! Z.to_nat (link_body su) = Some btl.
Hypothesis Hbt0 : e_bone_tags ent !! 0%nat = Some bt0.
Hypothesis Hm : md !! model su = Some m.
Hypothesis Hmc : (0 < mesh_count m <= 255)%nat.
Hypothesis Hlen : length (mesh_tree m) = mesh_count m.
Hypothesis Hjpb : (0 <= joints_per_body su < 256)%Z.

Let N := mesh_count m.
Let s := mkst hp n0 wb wc g en md (Some h0).
Let cs := created_state su p ent ob m btl bt0 hp n0 wb wc g en md h0.

Lemma create_returns : Hair_Create (Some su) (Some p) s = Returns (true, cs).
Proof. eapply Hair_Create_returns; eauto. Qed.

Let hc := hair_set_joints (hair_set_elements (created_hair_init su p ent m btl n0 h0)
            (elems_list m n0 N)) (N * jpb su)%nat (joint_slots su m n0 (N * jpb su)%nat).

Lemma created_element i :
  (i < N)%nat -> exists mt, mesh_tree m !! i = Some mt /\ elements hc !! i = Some {| he_mesh := Some (mesh_base mt); he_shape := Some (shape_addr n0 i);
                     he_body := Some (body_addr n0 i) |}.
Proof.
  intros Hi. destruct (lookup_lt_is_Some_2 (mesh_tree m) i) as [mt Hmt]; [unfold N in Hi; lia|].
  exists mt. split; [exact Hmt|]. unfold hc. apply elems_list_lookup; assumption.
Qed.

(** C1. On an owner whose anchor bone has a body and a model of 1 to 255
    meshes, [Hair_Create] returns true with one element per mesh and
    [joints_per_body] joints per element: [element_count] is the mesh
    count, [joint_count] is [element_count * joints_per_body], the root is
    element 0 and the tail the last one, every element has a body and
    every joint slot a joint. *)
Theorem Hair_Create_shape :
  exists s', Hair_Create (Some su) (Some p) s = Returns (true, s') /\
    exists h, hr s' = Some h /\ element_count h = N /\ joint_count h = (N * jpb su)%nat /\
      root_index h = 0%nat /\ tail_index h = (N - 1)%nat /\ owner_char h = Some p /\
      owner_body h = link_body su /\ length (elements h) = N /\ length (joints h) = (N * jpb su)%nat /\
      (forall i, (i < N)%nat -> is_Some (hair_body s' i)) /\
      (forall k, (k < N * jpb su)%nat -> is_Some (hair_joint s' k)).
Proof.
  exists cs. split; [exact create_returns|]. unfold cs. eexists. split; [apply created_hr|].
  cbn [element_count joint_count root_index tail_index owner_char owner_body elements joints
       hair_set_joints hair_set_elements created_hair_init init_hair].
  unfold joint_slots, elems_list. rewrite length_map, length_seq, length_imap, Hlen.
  do 8 (split; [reflexivity|]). split.
  - intros i Hi. rewrite (created_hair_body _ _ _ _ _ _ _ _ _ _ _ _ _ _ _ Hlen i Hi). eauto.
  - intros k Hk. rewrite (created_hair_joint _ _ _ _ _ _ _ _ _ _ _ _ _ _ _ Hlen k Hk). eauto.
Qed.

Lemma created_element_body_addr i : (i < N)%nat -> element_body_addr hc i = Some (body_addr n0 i).
Proof. intros Hi. destruct (created_element i Hi) as (mt & _ & He). unfold element_body_addr. rewrite He. reflexivity. Qed.

Lemma joint_group_lt k : (k < N * jpb su)%nat -> (0 < jpb su)%nat /\ (k / jpb su < N)%nat.
Proof.
  intros Hk. assert (Hj : (0 < jpb su)%nat) by (destruct (jpb su); lia).
  split; [exact Hj|]. apply Nat.Div0.div_lt_upper_bound. lia.
Qed.

Lemma created_joint k :
  (k < N * jpb su)%nat -> exists c, hair_joint cs k = Some c /\ c = joint_obj su m n0 ob k (k <? N)%nat.
Proof. intros Hk. eexists. split; [apply created_hair_joint; assumption | reflexivity]. Qed.

(** C2. The stop parameters (CFM and ERP on the six axes) are set on
    joints 0 .. [element_count - 1] only: lines 195-207 write them through
    [joints[i]], the index of the element, not [joints[curr_joint]].  With
    more than one joint per body, the later joints keep Bullet's default. *)
Theorem Hair_Create_stop_params :
  exists s', Hair_Create (Some su) (Some p) s = Returns (true, s') /\
    forall k, (k < N * jpb su)%nat -> exists c, hair_joint s' k = Some c /\
      c_stop_cfm c = (if (k <? N)%nat then replicate 6 (Some (joint_cfm su)) else replicate 6 None) /\
      c_stop_erp c = (if (k <? N)%nat then replicate 6 (Some (joint_erp su)) else replicate 6 None).
Proof.
  exists cs. split; [exact create_returns|]. intros k Hk.
  destruct (created_joint k Hk) as (c & Hc & ->). exists (joint_obj su m n0 ob k (k <? N)%nat).
  destruct (joint_obj_fields su m n0 ob k (k <? N)%nat) as (_ & _ & Hcfm & Herp & _).
  auto.
Qed.

(** C3. Joint [k] links the body of element [k / joints_per_body] (its
    body B) to the body before it (its body A): the owner's body at the
    anchor bone [link_body] for the first element, element
    [k / joints_per_body - 1]'s body for the others. *)
Theorem Hair_Create_joint_links :
  exists s', Hair_Create (Some su) (Some p) s = Returns (true, s') /\
    exists h, hr s' = Some h /\
    forall k, (k < N * jpb su)%nat -> exists c, hair_joint s' k = Some c /\
      Some (c_rbB c) = element_body_addr h (k / jpb su) /\
      (if (k / jpb su =? 0)%nat then e_bt_body ent !! Z.to_nat (link_body su) = Some (Some (c_rbA c))
       else Some (c_rbA c) = element_body_addr h (k / jpb su - 1)).
Proof.
  exists cs. split; [exact create_returns|]. exists hc. split; [reflexivity|]. intros k Hk.
  destruct (created_joint k Hk) as (c & Hc & ->). eexists. split; [exact Hc|].
  destruct (joint_group_lt k Hk) as [Hj Hi].
  destruct (joint_obj_fields su m n0 ob k (k <? N)%nat) as (-> & -> & _).
  rewrite created_element_body_addr by exact Hi. split; [reflexivity|].
  unfold prev_addr. destruct (Nat.eqb_spec (k / jpb su) 0); [exact Hob|].
  rewrite created_element_body_addr by lia. reflexivity.
Qed.

(** C4. The joints of the first element (the [joints_per_body] first
    ones) are held tighter than the others and solved with 100
    iterations; all have zero linear limits and drawing size 5. *)
Theorem Hair_Create_joint_limits :
  exists s', Hair_Create (Some su) (Some p) s = Returns (true, s') /\
    forall k, (k < N * jpb su)%nat -> exists c, hair_joint s' k = Some c /\
      c_linear_lower c = Some vzero /\ c_linear_upper c = Some vzero /\ c_dbg_draw_size c = Some 5 /\
      if (k <? jpb su)%nat then
        c_angular_lower c = Some (Vec3 (- SIMD_HALF_PI) 0 (- SIMD_HALF_PI * (4 # 10))) /\
        c_angular_upper c = Some (Vec3 (- SIMD_HALF_PI * (3 # 10)) 0 (SIMD_HALF_PI * (4 # 10))) /\
        c_solver_iterations c = Some 100%Z
      else
        c_angular_lower c = Some (Vec3 (- SIMD_HALF_PI * (1 # 2)) 0 (- SIMD_HALF_PI * (1 # 2))) /\
        c_angular_upper c = Some (Vec3 (SIMD_HALF_PI * (1 # 2)) 0 (SIMD_HALF_PI * (1 # 2))) /\
        c_solver_iterations c = None.
Proof.
  exists cs. split; [exact create_returns|]. intros k Hk.
  destruct (created_joint k Hk) as (c & Hc & ->). eexists. split; [exact Hc|].
  destruct (joint_group_lt k Hk) as [Hj _].
  destruct (joint_obj_fields su m n0 ob k (k <? N)%nat) as (_ & _ & _ & _ & -> & -> & Hlim & ->).
  do 3 (split; [reflexivity|]).
  assert (Hr : (k / jpb su =? 0)%nat = (k <? jpb su)%nat).
  { destruct (Nat.ltb_spec k (jpb su)), (Nat.eqb_spec (k / jpb su) 0); try reflexivity.
    - exfalso. rewrite Nat.div_small in * by lia. lia.
    - exfalso. apply Nat.div_small_iff in e; lia. }
  rewrite Hr in Hlim. clear Hr.
  unfold root_joint_limits, chain_joint_limits in Hlim.
  destruct (k <? jpb su)%nat; injection Hlim as H1 H2 H3; rewrite H1, H2, H3; auto.
Qed.
Lemma created_body i :
  (i < N)%nat -> hair_body cs i = Some (created_body su g (weight_step su m)
    (iter_sub (root_weight su) (weight_step su m) i) (mesh_at m i) (motion_addr n0 i) (shape_addr n0 i)).
Proof.
  intros Hi. unfold cs. rewrite (created_hair_body su p ent ob m btl bt0 hp n0 wb wc g en md h0 Hlen i Hi).
  unfold elem_body. reflexivity.
Qed.


(** C5. Element [i]'s body is created from the weight [cw] the loop holds
    before it (the root weight less [i] steps): its inertia is computed
    from [cw], but line 73 lowers [current_weight] by one step before the
    body is built, so its mass is [cw - weight_step]. *)
Theorem Hair_Create_masses :
  exists s', Hair_Create (Some su) (Some p) s = Returns (true, s') /\
    forall i, (i < N)%nat -> exists b cw, hair_body s' i = Some b /\
      cw == root_weight su - inject_Z (Z.of_nat i) * ((root_weight su - tail_weight su) / inject_Z (Z.of_nat N)) /\
      rb_mass b = cw - (root_weight su - tail_weight su) / inject_Z (Z.of_nat N) /\
      rb_local_inertia b = calculateLocalInertia (BT_CSfromMesh (mesh_at m i)) (cw * hair_inertia su).
Proof.
  exists cs. split; [exact create_returns|]. intros i Hi.
  rewrite created_body by exact Hi. do 2 eexists. split; [reflexivity|].
  destruct (created_body_fields su g (weight_step su m) (iter_sub (root_weight su) (weight_step su m) i)
              (mesh_at m i) (motion_addr n0 i) (shape_addr n0 i)) as (-> & _ & _ & -> & _).
  split; [apply iter_sub_closed|]. split; reflexivity.
Qed.


(** C7. Every body ends with the world's gravity unless it is static
    (mass 0): the tenth of gravity set at line 88 is overwritten when line
    109 adds the body to the world, which gives a non-static body the
    world's gravity. *)
Theorem Hair_Create_gravity :
  exists s', Hair_Create (Some su) (Some p) s = Returns (true, s') /\
    forall i, (i < N)%nat -> exists b, hair_body s' i = Some b /\
      rb_static b = Qeq_bool (rb_mass b) 0 /\
      rb_gravity b = (if rb_static b then g *v (1 # 10) else world_gravity (eng s)).
Proof.
  exists cs. split; [exact create_returns|]. intros i Hi.
  rewrite created_body by exact Hi. eexists. split; [reflexivity|].
  destruct (created_body_fields su g (weight_step su m) (iter_sub (root_weight su) (weight_step su m) i)
              (mesh_at m i) (motion_addr n0 i) (shape_addr n0 i)) as (-> & _ & _ & _ & _ & _ & _ & _ & _ & -> & ->).
  split; reflexivity.
Qed.

(** C8. Every body gets the setup's damping, restitution and friction,
    is never deactivated, and uses the collision shape built from its
    element's mesh. *)
Theorem Hair_Create_body_setup :
  exists s', Hair_Create (Some su) (Some p) s = Returns (true, s') /\
    forall i, (i < N)%nat -> exists b, hair_body s' i = Some b /\
      rb_lin_damping b = (hair_damping su).1 /\ rb_ang_damping b = (hair_damping su).2 /\
      rb_restitution b = hair_restitution su /\ rb_friction b = hair_friction su /\
      rb_activation b = DISABLE_DEACTIVATION /\
      heap (eng s') !! rb_shape b = Some (OShape (BT_CSfromMesh (mesh_at m i))).
Proof.
  exists cs. split; [exact create_returns|]. intros i Hi.
  rewrite created_body by exact Hi. eexists. split; [reflexivity|].
  destruct (created_body_fields su g (weight_step su m) (iter_sub (root_weight su) (weight_step su m) i)
              (mesh_at m i) (motion_addr n0 i) (shape_addr n0 i)) as (_ & _ & -> & _ & -> & -> & -> & -> & -> & _).
  do 5 (split; [reflexivity|]).
  unfold cs. rewrite created_heap_elems_lookup by (unfold shape_addr; fold N; lia).
  apply heap_elems_lookup. exact Hi.
Qed.

(** C9. Every body starts at the owner's transform times bone 0's: line
    77 reads [bone_tags[root_index]], the element index 0 used as a bone
    index, not the anchor bone [link_body] the joints attach to. *)
Theorem Hair_Create_start_transform :
  exists s', Hair_Create (Some su) (Some p) s = Returns (true, s') /\
    forall i, (i < N)%nat ->
      hair_motion s' i = Some (Mat4_Mat4_mul (e_transform ent) (full_transform bt0)).
Proof.
  exists cs. split; [exact create_returns|]. intros i Hi. apply created_hair_motion; assumption.
Qed.
Lemma created_elements_length : length (elements hc) = N.
Proof. unfold hc, elems_list. cbn. rewrite length_imap. exact Hlen. Qed.

Lemma created_joints_length : length (joints hc) = (N * jpb su)%nat.
Proof. unfold hc, joint_slots. cbn. rewrite length_map, length_seq. reflexivity. Qed.

(** C10. The world receives exactly the hair's bodies, in element order,
    as kinematic objects that collide with nothing, and exactly its joints,
    in slot order, with collisions between linked bodies disabled. *)
Theorem Hair_Create_world :
  exists s', Hair_Create (Some su) (Some p) s = Returns (true, s') /\
    exists h, hr s' = Some h /\
    map Some (world_bodies (eng s')) = map Some wb ++
      map (fun e => (fun a => (a, COLLISION_GROUP_KINEMATIC, COLLISION_MASK_NONE)) <$> he_body e) (elements h) /\
    map Some (world_constraints (eng s')) = map Some wc ++ map (fun j => (fun a => (a, true)) <$> j) (joints h).
Proof.
  exists cs. split; [exact create_returns|]. exists hc. split; [reflexivity|].
  unfold cs, created_state, joints_state, mkst. cbn [eng world_bodies world_constraints].
  unfold created_bodies. rewrite !map_app. split; f_equal; apply list_eq; intros i; rewrite !list_lookup_fmap.
  - unfold bodies_registered. rewrite list_lookup_fmap. destruct (decide (i < N)%nat) as [Hi|Hi].
    + rewrite lookup_seq_lt by exact Hi. destruct (created_element i Hi) as (mt & _ & ->). reflexivity.
    + rewrite lookup_seq_ge, (lookup_ge_None_2 (elements hc)) by (rewrite ?created_elements_length; lia).
      reflexivity.
  - unfold constraints_registered. rewrite list_lookup_fmap. destruct (decide (i < N * jpb su)%nat) as [Hi|Hi].
    + rewrite lookup_seq_lt by exact Hi. unfold hc. cbn [joints hair_set_joints].
      rewrite joint_slots_lookup by exact Hi. destruct (Nat.ltb_spec i (N * jpb su)); [reflexivity|lia].
    + rewrite lookup_seq_ge, (lookup_ge_None_2 (joints hc)) by (rewrite ?created_joints_length; lia).
      reflexivity.
Qed.

End CreateSpec.

Section CreateFail.
Context `{Collaborators}.

(** C12. When the owner has no body at the anchor bone, the anchor is past
    its bones, the model is missing or has no mesh, or an argument is NULL,
    [Hair_Create] returns false and changes nothing: no container, no body,
    no joint, the hair untouched. *)
Theorem Hair_Create_rejects setup parent s :
  parent_valid (eng s) parent -> link_nonneg setup -> ~ create_pre (eng s) setup parent ->
  Hair_Create setup parent s = Returns (false, s).
Proof.
  intros Hp Hl Hpre. unfold Hair_Create.
  rewrite (Mbind_Returns _ _ _ _ _ (guard_none_run setup parent s Hp Hl Hpre)). reflexivity.
Qed.
End CreateFail.

Section CreateDiverge.
Context `{Collaborators}.
Variables (su : hair_setup_t) (p : nat) (ent : entity) (ob : nat) (m : skeletal_model)
          (btl bt0 : ss_bone_tag) (hp : gmap nat heap_obj) (n0 : nat)
          (wb : list (nat * collision_group * collision_mask)) (wc : list (nat * bool))
          (g : btVector3) (en : gmap nat entity) (md : gmap Z skeletal_model) (h0 : hair_t).
Hypothesis Hent : en !! p = Some ent.
Hypothesis Hlink : (0 <= link_body su < Z.of_nat (bone_tag_count ent))%Z.
Hypothesis Hob : e_bt_body ent !! Z.to_nat (link_body su) = Some (Some ob).
Hypothesis Hbtl : e_bone_tags ent !! Z.to_nat (link_body su) = Some btl.
Hypothesis Hbt0 : e_bone_tags ent !! 0%nat = Some bt0.
Hypothesis Hm : md !! model su = Some m.
Hypothesis Hbig : (256 <= mesh_count m)%nat.
Hypothesis Hlen : length (mesh_tree m) = mesh_count m.

End CreateDiverge.

(** A theorem of [CreateSpec] on the scene: [lara] at address 7, anchor
    bone 1 with the body at address 0, model 5. *)
Ltac create_on_scene t :=
  apply (t setup0 7%nat lara 0%nat (mk_model 3) {| full_transform := head_tr |}
           {| full_transform := idm |} hp0 1%nat [] [] g0 en0 md0 hair_zero); discharge.

Section CreateWitnesses.
#[local] Existing Instance demo.

Lemma Hair_Create_shape_witness :
  exists s', Hair_Create (Some setup0) (Some 7%nat) s0 = Returns (true, s') /\
    exists h, hr s' = Some h /\ element_count h = 3%nat /\ joint_count h = 6%nat /\
      root_index h = 0%nat /\ tail_index h = 2%nat /\ owner_char h = Some 7%nat /\
      owner_body h = 1%Z /\ length (elements h) = 3%nat /\ length (joints h) = 6%nat /\
      (forall i, (i < 3)%nat -> is_Some (hair_body s' i)) /\
      (forall k, (k < 3 * 2)%nat -> is_Some (hair_joint s' k)).
Proof. create_on_scene Hair_Create_shape. Defined.

Lemma Hair_Create_stop_params_witness :
  exists s', Hair_Create (Some setup0) (Some 7%nat) s0 = Returns (true, s') /\
    forall k, (k < 3 * 2)%nat -> exists c, hair_joint s' k = Some c /\
      c_stop_cfm c = (if (k <? 3)%nat then replicate 6 (Some (1 # 10)) else replicate 6 None) /\
      c_stop_erp c = (if (k <? 3)%nat then replicate 6 (Some (1 # 5)) else replicate 6 None).
Proof. create_on_scene Hair_Create_stop_params. Defined.

Lemma Hair_Create_joint_links_witness :
  exists s', Hair_Create (Some setup0) (Some 7%nat) s0 = Returns (true, s') /\
    exists h, hr s' = Some h /\
    forall k, (k < 3 * 2)%nat -> exists c, hair_joint s' k = Some c /\
      Some (c_rbB c) = element_body_addr h (k / 2) /\
      (if (k / 2 =? 0)%nat then e_bt_body lara !! 1%nat = Some (Some (c_rbA c))
       else Some (c_rbA c) = element_body_addr h (k / 2 - 1)).
Proof. create_on_scene Hair_Create_joint_links. Defined.

Lemma Hair_Create_joint_limits_witness :
  exists s', Hair_Create (Some setup0) (Some 7%nat) s0 = Returns (true, s') /\
    forall k, (k < 3 * 2)%nat -> exists c, hair_joint s' k = Some c /\
      c_linear_lower c = Some vzero /\ c_linear_upper c = Some vzero /\ c_dbg_draw_size c = Some 5 /\
      if (k <? 2)%nat then
        c_angular_lower c = Some (Vec3 (- SIMD_HALF_PI) 0 (- SIMD_HALF_PI * (4 # 10))) /\
        c_angular_upper c = Some (Vec3 (- SIMD_HALF_PI * (3 # 10)) 0 (SIMD_HALF_PI * (4 # 10))) /\
        c_solver_iterations c = Some 100%Z
      else
        c_angular_lower c = Some (Vec3 (- SIMD_HALF_PI * (1 # 2)) 0 (- SIMD_HALF_PI * (1 # 2))) /\
        c_angular_upper c = Some (Vec3 (SIMD_HALF_PI * (1 # 2)) 0 (SIMD_HALF_PI * (1 # 2))) /\
        c_solver_iterations c = None.
Proof. create_on_scene Hair_Create_joint_limits. Defined.

Lemma Hair_Create_masses_witness :
  exists s', Hair_Create (Some setup0) (Some 7%nat) s0 = Returns (true, s') /\
    forall i, (i < 3)%nat -> exists b cw, hair_body s' i = Some b /\
      cw == 1 - inject_Z (Z.of_nat i) * ((1 - (1 # 10)) / inject_Z 3) /\
      rb_mass b = cw - (1 - (1 # 10)) / inject_Z 3 /\
      rb_local_inertia b = calculateLocalInertia (BT_CSfromMesh (mesh_at (mk_model 3) i)) (cw * 1).
Proof. create_on_scene Hair_Create_masses. Defined.


Lemma Hair_Create_gravity_witness :
  exists s', Hair_Create (Some setup0) (Some 7%nat) s0 = Returns (true, s') /\
    forall i, (i < 3)%nat -> exists b, hair_body s' i = Some b /\
      rb_static b = Qeq_bool (rb_mass b) 0 /\
      rb_gravity b = (if rb_static b then g0 *v (1 # 10) else g0).
Proof. create_on_scene Hair_Create_gravity. Defined.

Lemma Hair_Create_body_setup_witness :
  exists s', Hair_Create (Some setup0) (Some 7%nat) s0 = Returns (true, s') /\
    forall i, (i < 3)%nat -> exists b, hair_body s' i = Some b /\
      rb_lin_damping b = 1 # 2 /\ rb_ang_damping b = 1 # 2 /\
      rb_restitution b = 0 /\ rb_friction b = 1 # 4 /\
      rb_activation b = DISABLE_DEACTIVATION /\
      heap (eng s') !! rb_shape b = Some (OShape (BT_CSfromMesh (mesh_at (mk_model 3) i))).
Proof. create_on_scene Hair_Create_body_setup. Defined.

Lemma Hair_Create_start_transform_witness :
  exists s', Hair_Create (Some setup0) (Some 7%nat) s0 = Returns (true, s') /\
    forall i, (i < 3)%nat -> hair_motion s' i = Some (Mat4_Mat4_mul idm idm).
Proof. create_on_scene Hair_Create_start_transform. Defined.

Lemma Hair_Create_world_witness :
  exists s', Hair_Create (Some setup0) (Some 7%nat) s0 = Returns (true, s') /\
    exists h, hr s' = Some h /\
    map Some (world_bodies (eng s')) = map Some [] ++
      map (fun e => (fun a => (a, COLLISION_GROUP_KINEMATIC, COLLISION_MASK_NONE)) <$> he_body e) (elements h) /\
    map Some (world_constraints (eng s')) = map Some [] ++ map (fun j => (fun a => (a, true)) <$> j) (joints h).
Proof. create_on_scene Hair_Create_world. Defined.


Lemma Hair_Create_rejects_witness :
  Hair_Create (Some setup_far) (Some 7%nat) s0 = Returns (false, s0).
Proof. apply Hair_Create_rejects; discharge. Defined.

End CreateWitnesses.
