(* ===== verification/ClearFacts.v ===== *)
(** * The run of [Hair_Clear]

    The pointers the teardown releases, and the state after each loop of
    [HairClear.Hair_Clear]: the element loop releases, in order, each
    element's body and shape and takes the bodies out of the world; the
    joint loop releases each constraint and takes it out of the world.
    The loops are run with the invariant rule [wp_iter_range]. *)

From S2P Require Import Prelude Vector Engine Hair HairClear.

(** ** The pointers the teardown releases *)

Definition element_ptrs (el : hair_element_t) : list nat := opt_list (he_body el) ++ opt_list (he_shape el).
Definition elems_ptrs (L : list hair_element_t) : list nat := concat (map element_ptrs L).
Definition elems_bodies (L : list hair_element_t) : list nat := concat (map (fun el => opt_list (he_body el)) L).
Definition joints_ptrs (J : list (option nat)) : list nat := concat (map opt_list J).

Lemma elems_ptrs_snoc L el : elems_ptrs (L ++ [el]) = elems_ptrs L ++ element_ptrs el.
Proof. unfold elems_ptrs. rewrite map_app, concat_app. simpl. rewrite app_nil_r. reflexivity. Qed.

Lemma elems_bodies_snoc L el : elems_bodies (L ++ [el]) = elems_bodies L ++ opt_list (he_body el).
Proof. unfold elems_bodies. rewrite map_app, concat_app. simpl. rewrite app_nil_r. reflexivity. Qed.

Lemma joints_ptrs_snoc J j : joints_ptrs (J ++ [j]) = joints_ptrs J ++ opt_list j.
Proof. unfold joints_ptrs. rewrite map_app, concat_app. simpl. rewrite app_nil_r. reflexivity. Qed.

(** A prefix of the released pointers, then the next element's, then the
    rest. *)
Lemma ptrs_split {A} (f : A -> list nat) (L : list A) n k x :
  (k < n)%nat -> L !! k = Some x ->
  exists rest, concat (map f (take n L)) = concat (map f (take k L)) ++ f x ++ rest.
Proof.
  intros Hk Hx. exists (concat (map f (drop (S k) (take n L)))).
  rewrite <- (take_drop (S k) (take n L)) at 1. rewrite take_take, Nat.min_l by lia.
  rewrite (take_S_r _ _ _ Hx), !map_app, !concat_app. simpl. rewrite app_nil_r, app_assoc. reflexivity.
Qed.

(** The next pointer to release is neither released yet nor released
    later, and is allocated, when the whole list has no duplicate and is
    allocated. *)
Lemma split_facts {V} (hp : gmap nat V) (P F R : list nat) l :
  NoDup (P ++ F ++ R) -> Forall (fun l => is_Some (hp !! l)) (P ++ F ++ R) -> l ∈ F ->
  (l ∉ P) /\ is_Some (hp !! l).
Proof.
  intros Hnd Hal Hl. split.
  - intros HP. apply NoDup_app in Hnd as (_ & Hd & _). apply (Hd l HP). set_solver.
  - rewrite Forall_forall in Hal. apply Hal. set_solver.
Qed.

(** ** The element loop *)

Definition element_cleared (el : hair_element_t) : hair_element_t :=
  element_drop_shape (element_drop_body el).

Section ClearElements.
Variables (h0 : hair_t) (L : list hair_element_t) (hp : gmap nat heap_obj) (na : nat)
          (wb : list (nat * collision_group * collision_mask)) (wc : list (nat * bool))
          (g : btVector3) (en : gmap nat entity) (md : gmap Z skeletal_model).
Variable n : nat.
Hypothesis Hn : (n <= length L)%nat.
Hypothesis Hnodup : NoDup (elems_ptrs (take n L)).
Hypothesis Halloc : Forall (fun l => is_Some (hp !! l)) (elems_ptrs (take n L)).

Definition cleared_elems (k : nat) : list hair_element_t :=
  map element_cleared (take k L) ++ drop k L.

(** The state after [k] iterations. *)
Definition clear_elems_state (k : nat) : st :=
  mkst (free_all (elems_ptrs (take k L)) hp) na
       (List.filter (fun x => not_in (elems_bodies (take k L)) x.1.1) wb) wc g en md
       (Some (hair_set_elements h0 (cleared_elems k))).

Lemma cleared_elems_lookup k el : L !! k = Some el -> cleared_elems k !! k = Some el.
Proof.
  intros Hk. assert (Hkl : (k < length L)%nat) by (eapply lookup_lt_Some; eauto).
  unfold cleared_elems. rewrite lookup_app_r by (rewrite length_map, length_take; lia).
  rewrite length_map, length_take, lookup_drop.
  replace (k + (k - k `min` length L))%nat with k by lia. exact Hk.
Qed.

Lemma cleared_elems_step k el :
  L !! k = Some el -> <[k := element_cleared el]> (cleared_elems k) = cleared_elems (S k).
Proof.
  intros Hk. assert (Hkl : (k < length L)%nat) by (eapply lookup_lt_Some; eauto).
  unfold cleared_elems. rewrite (take_S_r _ _ _ Hk), map_app, <- app_assoc.
  rewrite insert_app_r_alt by (rewrite length_map, length_take; lia).
  rewrite length_map, length_take, Nat.min_l, Nat.sub_diag by lia.
  rewrite (drop_S _ _ _ Hk). reflexivity.
Qed.

Lemma element_drop_body_none el : he_body el = None -> element_drop_body el = el.
Proof. destruct el; simpl; intros ->; reflexivity. Qed.

Lemma element_drop_shape_none el : he_shape el = None -> element_drop_shape el = el.
Proof. destruct el; simpl; intros ->; reflexivity. Qed.

(** The state between the body and the shape of element [k]. *)
Definition clear_mid_state (k : nat) (el : hair_element_t) : st :=
  mkst (free_all (elems_ptrs (take k L) ++ opt_list (he_body el)) hp) na
       (List.filter (fun x => not_in (elems_bodies (take k L) ++ opt_list (he_body el)) x.1.1) wb) wc g en md
       (Some (hair_set_elements h0 (<[k := element_drop_body el]> (cleared_elems k)))).

Lemma clear_body_run k el :
  (k < n)%nat -> L !! k = Some el ->
  wp (match he_body el with
      | Some b => modify_eng (fun e => removeRigidBody e b) ;; delete_obj b ;;
                  set_element k element_drop_body
      | None => Mret tt
      end) (fun _ s => s = clear_mid_state k el) (clear_elems_state k).
Proof.
  intros Hk Hel. destruct (ptrs_split element_ptrs L n k el Hk Hel) as [R HR].
  unfold clear_mid_state, clear_elems_state. destruct (he_body el) as [b|] eqn:Hb.
  - destruct (split_facts hp (elems_ptrs (take k L)) (element_ptrs el) R b) as [Hfree [o Ho]];
      [unfold elems_ptrs in *; rewrite <- HR; assumption.. | unfold element_ptrs; rewrite Hb; set_solver |].
    repeat hstep. apply wp_removeRigidBody. hstep. eapply wp_delete_obj.
    { rewrite free_all_lookup, decide_False by exact Hfree. exact Ho. }
    eapply wp_set_element; [apply cleared_elems_lookup, Hel|].
    simpl. rewrite filter_not_in_snoc, free_all_app. reflexivity.
  - apply wp_ret. rewrite !app_nil_r, element_drop_body_none by exact Hb.
    rewrite list_insert_id by (apply cleared_elems_lookup, Hel). reflexivity.
Qed.

Lemma clear_shape_run k el :
  (k < n)%nat -> L !! k = Some el ->
  wp (do h <- get_hair; do el' <- element_at h k;
      match he_shape el' with
      | Some sh => delete_obj sh ;; set_element k element_drop_shape
      | None => Mret tt
      end) (fun _ s => s = clear_elems_state (S k)) (clear_mid_state k el).
Proof.
  intros Hk Hel. destruct (ptrs_split element_ptrs L n k el Hk Hel) as [R HR].
  assert (Hkl : (k < length L)%nat) by (eapply lookup_lt_Some; eauto).
  unfold clear_mid_state. repeat hstep. eapply wp_element_at.
  { cbn [elements hair_set_elements]. apply list_lookup_insert_eq.
    unfold cleared_elems; rewrite length_app, length_map, length_take, length_drop. lia. }
  unfold clear_elems_state. rewrite (take_S_r _ _ _ Hel), elems_ptrs_snoc, elems_bodies_snoc.
  rewrite <- (cleared_elems_step k el Hel). unfold element_cleared.
  unfold element_ptrs. rewrite app_assoc. cbn [he_shape element_drop_body].
  destruct (he_shape el) as [sh|] eqn:Hs.
  - destruct (split_facts hp (elems_ptrs (take k L)) (element_ptrs el) R sh) as [Hfree [o Ho]];
      [unfold elems_ptrs in *; rewrite <- HR; assumption.. | unfold element_ptrs; rewrite Hs; set_solver |].
    assert (Hsb : sh ∉ opt_list (he_body el)).
    { unfold elems_ptrs in Hnodup. rewrite HR in Hnodup. apply NoDup_app in Hnodup as (_ & _ & Hnd).
      apply NoDup_app in Hnd as (Hnd & _). unfold element_ptrs in Hnd. rewrite Hs in Hnd.
      apply NoDup_app in Hnd as (_ & Hd & _). intros Hin. apply (Hd sh Hin). set_solver. }
    hstep. eapply wp_delete_obj.
    { rewrite free_all_lookup, decide_False by set_solver. exact Ho. }
    eapply wp_set_element; [apply list_lookup_insert_eq; unfold cleared_elems; rewrite length_app, length_map, length_take, length_drop; lia|].
    rewrite list_insert_insert_eq, !free_all_app. reflexivity.
  - apply wp_ret. rewrite !app_nil_r. rewrite (element_drop_shape_none (element_drop_body el)) by exact Hs.
    reflexivity.
Qed.

Lemma clear_element_step k :
  (k < n)%nat -> wp (Hair_Clear_element (0 + Z.of_nat k) tt) (fun _ s => s = clear_elems_state (S k))
                  (clear_elems_state k).
Proof.
  intros Hk. destruct (lookup_lt_is_Some_2 L k) as [el Hel]; [lia|].
  unfold Hair_Clear_element. replace (Z.to_nat (0 + Z.of_nat k)) with k by lia.
  unfold clear_elems_state at 2. repeat hstep. eapply wp_element_at.
  { cbn [elements hair_set_elements]. apply cleared_elems_lookup, Hel. }
  apply wp_bind. eapply wp_mono; [apply clear_body_run; assumption|]. intros [] s ->.
  apply clear_shape_run; assumption.
Qed.

(** The element loop releases every body and shape of the first [n]
    elements and takes the bodies out of the world. *)
Lemma clear_elements_run :
  wp (iter_range Hair_Clear_element n 0 tt) (fun _ s => s = clear_elems_state n) (clear_elems_state 0).
Proof.
  eapply wp_mono; [apply (wp_iter_range _ (fun k _ s => s = clear_elems_state k)); [|reflexivity]|].
  - intros k [] s Hk ->. apply clear_element_step, Hk.
  - intros [] s ->. reflexivity.
Qed.
End ClearElements.

(** ** The joint loop *)

Section ClearJoints.
Variables (h0 : hair_t) (jc : nat) (J : list (option nat)) (hp : gmap nat heap_obj) (na : nat)
          (wb : list (nat * collision_group * collision_mask)) (wc : list (nat * bool))
          (g : btVector3) (en : gmap nat entity) (md : gmap Z skeletal_model).
Variable m : nat.
Hypothesis Hm : (m <= length J)%nat.
Hypothesis Hnodup : NoDup (joints_ptrs (take m J)).
(** Each joint to release is a constraint whose two bodies are bodies of
    the heap. *)
Hypothesis Hjoints : Forall (fun l => exists c ba bb, hp !! l = Some (OJoint c) /\
                        hp !! c_rbA c = Some (OBody ba) /\ hp !! c_rbB c = Some (OBody bb))
                       (joints_ptrs (take m J)).

Definition cleared_joints (k : nat) : list (option nat) := replicate k None ++ drop k J.

Definition clear_joints_state (k : nat) : st :=
  mkst (free_all (joints_ptrs (take k J)) hp) na wb
       (List.filter (fun x => not_in (joints_ptrs (take k J)) x.1) wc) g en md
       (Some (hair_set_joints h0 jc (cleared_joints k))).

Lemma cleared_joints_lookup k j : J !! k = Some j -> cleared_joints k !! k = Some j.
Proof.
  intros Hk. assert (Hkl : (k < length J)%nat) by (eapply lookup_lt_Some; eauto).
  unfold cleared_joints. rewrite lookup_app_r by (rewrite length_replicate; lia).
  rewrite length_replicate, Nat.sub_diag, lookup_drop, Nat.add_0_r. exact Hk.
Qed.

Lemma cleared_joints_step k j :
  J !! k = Some j -> <[k := None]> (cleared_joints k) = cleared_joints (S k).
Proof.
  intros Hk. assert (Hkl : (k < length J)%nat) by (eapply lookup_lt_Some; eauto).
  unfold cleared_joints. rewrite insert_app_r_alt by (rewrite length_replicate; lia).
  rewrite length_replicate, Nat.sub_diag, (drop_S _ _ _ Hk), replicate_S_end, <- app_assoc. reflexivity.
Qed.

(** A body of the heap is not released by the joint loop: only
    constraints are. *)
Lemma body_not_joint_ptr k l b :
  hp !! l = Some (OBody b) -> (k <= m)%nat -> l ∉ joints_ptrs (take k J).
Proof.
  intros Hl Hk Hin. pose proof Hjoints as Hjf. rewrite Forall_forall in Hjf.
  assert (Hin' : l ∈ joints_ptrs (take m J)).
  { rewrite <- (take_drop k (take m J)), take_take, Nat.min_l by lia.
    unfold joints_ptrs in *. rewrite map_app, concat_app. set_solver. }
  destruct (Hjf l Hin') as (c & _ & _ & Hc & _). congruence.
Qed.

Lemma clear_joint_step k :
  (k < m)%nat -> wp (Hair_Clear_joint (0 + Z.of_nat k) tt) (fun _ s => s = clear_joints_state (S k))
                  (clear_joints_state k).
Proof.
  intros Hk. destruct (lookup_lt_is_Some_2 J k) as [j Hj]; [lia|].
  unfold Hair_Clear_joint. replace (Z.to_nat (0 + Z.of_nat k)) with k by lia.
  unfold clear_joints_state at 2. repeat hstep. eapply wp_joint_at.
  { cbn [joints hair_set_joints]. apply cleared_joints_lookup, Hj. }
  unfold clear_joints_state. rewrite (take_S_r _ _ _ Hj), joints_ptrs_snoc.
  rewrite <- (cleared_joints_step k j Hj). destruct j as [c|].
  - destruct (ptrs_split opt_list J m k (Some c) Hk Hj) as [R HR].
    assert (Hcin : c ∈ joints_ptrs (take m J)) by (unfold joints_ptrs; rewrite HR; set_solver).
    pose proof Hjoints as Hjf. rewrite Forall_forall in Hjf. destruct (Hjf c Hcin) as (co & ba & bb & Hc & Ha & Hb).
    assert (Hfree : c ∉ joints_ptrs (take k J)).
    { unfold joints_ptrs in Hnodup |- *. rewrite HR in Hnodup.
      apply NoDup_app in Hnodup as (_ & Hd & _). intros Hin. apply (Hd c Hin). set_solver. }
    hstep. eapply wp_world_removeConstraint.
    { rewrite free_all_lookup, decide_False by exact Hfree. exact Hc. }
    { rewrite free_all_lookup, decide_False by (apply (body_not_joint_ptr _ _ ba Ha); lia). exact Ha. }
    { rewrite free_all_lookup, decide_False by (apply (body_not_joint_ptr _ _ bb Hb); lia). exact Hb. }
    hstep. eapply wp_delete_obj.
    { rewrite free_all_lookup, decide_False by exact Hfree. exact Hc. }
    eapply wp_set_joint; [apply cleared_joints_lookup, Hj|].
    simpl. rewrite (filter_not_in_snoc (fun x : nat * bool => x.1)), free_all_app. reflexivity.
  - apply wp_ret. rewrite !app_nil_r. rewrite list_insert_id by (apply cleared_joints_lookup, Hj).
    reflexivity.
Qed.

Lemma clear_joints_run :
  wp (iter_range Hair_Clear_joint m 0 tt) (fun _ s => s = clear_joints_state m) (clear_joints_state 0).
Proof.
  eapply wp_mono; [apply (wp_iter_range _ (fun k _ s => s = clear_joints_state k)); [|reflexivity]|].
  - intros k [] s Hk ->. apply clear_joint_step, Hk.
  - intros [] s ->. reflexivity.
Qed.
End ClearJoints.

(** ** The whole teardown *)

Section ClearRun.
Variables (h : hair_t) (hp : gmap nat heap_obj) (na : nat)
          (wb : list (nat * collision_group * collision_mask)) (wc : list (nat * bool))
          (g : btVector3) (en : gmap nat entity) (md : gmap Z skeletal_model).

(** The pointers [Hair_Clear] releases: the bodies and shapes of the
    first [element_count] elements, the first [joint_count] joints, the
    container. *)
Definition clear_elem_ptrs : list nat := elems_ptrs (take (element_count h) (elements h)).
Definition clear_joint_ptrs : list nat := joints_ptrs (take (joint_count h) (joints h)).
Definition clear_ptrs : list nat := clear_elem_ptrs ++ clear_joint_ptrs ++ opt_list (container h).

(** The teardown is defined on a hair whose counts fit its arrays, whose
    pointers are distinct and allocated, and whose joints are constraints
    between bodies that the element loop does not release. *)
Definition clear_pre : Prop :=
  (element_count h <= length (elements h))%nat /\ (joint_count h <= length (joints h))%nat /\
  NoDup clear_ptrs /\ Forall (fun l => is_Some (hp !! l)) (clear_elem_ptrs ++ opt_list (container h)) /\
  Forall (fun l => exists c ba bb, hp !! l = Some (OJoint c) /\
            hp !! c_rbA c = Some (OBody ba) /\ hp !! c_rbB c = Some (OBody bb) /\
            c_rbA c ∉ clear_elem_ptrs /\ c_rbB c ∉ clear_elem_ptrs) clear_joint_ptrs.

Definition cleared_state : st :=
  mkst (free_all clear_ptrs hp) na
       (List.filter (fun x => not_in (elems_bodies (take (element_count h) (elements h))) x.1.1) wb)
       (List.filter (fun x => not_in clear_joint_ptrs x.1) wc) g en md (Some hair_zero).

Lemma hair_set_joints_eta h' : hair_set_joints h' (joint_count h') (joints h') = h'.
Proof. destruct h'; reflexivity. Qed.

Lemma Hair_Clear_run : clear_pre -> wp Hair_Clear (fun _ s => s = cleared_state) (mkst hp na wb wc g en md (Some h)).
Proof.
  intros (Hn & Hm & Hnd & Hal & Hj). unfold clear_ptrs in Hnd.
  pose proof Hnd as Hnd'. apply NoDup_app in Hnd' as (HndE & HdE & HndR). apply NoDup_app in HndR as (HndJ & HdJ & _).
  unfold Hair_Clear. repeat hstep.
  replace (mkst hp na wb wc g en md (Some h)) with
    (clear_elems_state h (elements h) hp na wb wc g en md 0)
    by (unfold clear_elems_state, cleared_elems; simpl; rewrite filter_not_in_nil, hair_set_elements_eta; reflexivity).
  eapply wp_mono; [apply clear_elements_run; [exact Hn|exact HndE|apply Forall_app in Hal as [HalE _]; exact HalE]|].
  intros [] s ->. unfold clear_elems_state. repeat hstep.
  set (h1 := hair_drop_elements _).
  replace (mkst _ na _ wc g en md (Some h1)) with
    (clear_joints_state h1 (joint_count h) (joints h) (free_all clear_elem_ptrs hp) na
       (List.filter (fun x => not_in (elems_bodies (take (element_count h) (elements h))) x.1.1) wb) wc g en md 0)
    by (unfold clear_joints_state, cleared_joints; simpl; rewrite filter_not_in_nil;
        change (joint_count h) with (joint_count h1); change (joints h) with (joints h1);
        rewrite hair_set_joints_eta; reflexivity).
  eapply wp_mono; [apply clear_joints_run; [exact Hm|exact HndJ|]|].
  { rewrite Forall_forall in Hj |- *. intros l Hl. destruct (Hj l Hl) as (c & ba & bb & Hc & Ha & Hb & HA & HB).
    exists c, ba, bb. rewrite !free_all_lookup, !decide_False by (try exact HA; try exact HB; intros Hin; apply (HdE l Hin); set_solver).
    auto. }
  intros [] s ->. unfold clear_joints_state. repeat hstep.
  cbn [container hair_set_joints h1 hair_drop_elements hair_set_elements].
  destruct (container h) as [c|] eqn:Hc; cbn [free_ptr].
  - assert (Hcs : is_Some (hp !! c)) by (rewrite Forall_forall in Hal; apply Hal; set_solver).
    destruct Hcs as [o Ho]. eapply wp_delete_obj.
    { rewrite !free_all_lookup, !decide_False; [exact Ho| |].
      - intros Hin. apply (HdE c); set_solver.
      - intros Hin. apply (HdJ c Hin). set_solver. }
    repeat hstep. unfold cleared_state, clear_ptrs. rewrite Hc, !free_all_app. reflexivity.
  - repeat hstep. unfold cleared_state, clear_ptrs. rewrite Hc, app_nil_r, free_all_app. reflexivity.
Qed.
End ClearRun.

(** [clear_pre] as a test. *)
Definition joint_releasable (hp : gmap nat heap_obj) (E : list nat) (l : nat) : bool :=
  match hp !! l with
  | Some (OJoint c) =>
      match hp !! c_rbA c, hp !! c_rbB c with
      | Some (OBody _), Some (OBody _) => not_in E (c_rbA c) && not_in E (c_rbB c)
      | _, _ => false
      end
  | _ => false
  end.

Definition clear_preb (h : hair_t) (hp : gmap nat heap_obj) : bool :=
  bool_decide (element_count h <= length (elements h))%nat &&
  bool_decide (joint_count h <= length (joints h))%nat &&
  bool_decide (NoDup (clear_ptrs h)) &&
  forallb (fun l => bool_decide (is_Some (hp !! l))) (clear_elem_ptrs h ++ opt_list (container h)) &&
  forallb (joint_releasable hp (clear_elem_ptrs h)) (clear_joint_ptrs h).

Lemma joint_releasable_spec hp E l :
  joint_releasable hp E l = true -> exists c ba bb, hp !! l = Some (OJoint c) /\
    hp !! c_rbA c = Some (OBody ba) /\ hp !! c_rbB c = Some (OBody bb) /\ c_rbA c ∉ E /\ c_rbB c ∉ E.
Proof.
  unfold joint_releasable, not_in. destruct (hp !! l) as [[| | |c|]|]; try discriminate.
  destruct (hp !! c_rbA c) as [[ba| | | |]|] eqn:Ha; try discriminate.
  destruct (hp !! c_rbB c) as [[bb| | | |]|] eqn:Hb; try discriminate.
  intros [HA HB]%andb_true_iff. apply negb_true_iff, bool_decide_eq_false in HA, HB. eauto 10.
Qed.

Lemma clear_preb_sound h hp : clear_preb h hp = true -> clear_pre h hp.
Proof.
  unfold clear_preb. intros H. repeat rewrite andb_true_iff in H.
  destruct H as ((((Hn & Hm) & Hnd) & Hal) & Hj).
  apply bool_decide_eq_true in Hn, Hm, Hnd. rewrite forallb_forall in Hal, Hj.
  repeat split; try assumption; apply Forall_forall.
  - intros l Hl. apply (bool_decide_eq_true_1 (is_Some (hp !! l))), Hal, list_elem_of_In, Hl.
  - intros l Hl. apply joint_releasable_spec, Hj, list_elem_of_In, Hl.
Qed.
