(* ===== verification/ClearSpec.v ===== *)
(** * What [Hair_Clear] does

    The teardown's contract, read off [ClearFacts.Hair_Clear_run]: on a
    hair whose pointers are distinct and allocated it releases exactly
    those pointers, takes the bodies and constraints out of the world and
    leaves the hair zeroed; a second call then changes nothing; and it
    dereferences the hair pointer without a NULL check. *)

From S2P Require Import Prelude Vector Engine Hair HairClear ClearFacts Scenario.

Section ClearSpec.
Variables (h : hair_t) (hp : gmap nat heap_obj) (na : nat)
          (wb : list (nat * collision_group * collision_mask)) (wc : list (nat * bool))
          (g : btVector3) (en : gmap nat entity) (md : gmap Z skeletal_model).
Hypothesis Hpre : clear_pre h hp.

Lemma clear_returns :
  Hair_Clear (mkst hp na wb wc g en md (Some h)) = Returns (tt, cleared_state h hp na wb wc g en md).
Proof. apply wp_returns. eapply wp_mono; [apply Hair_Clear_run, Hpre|]. intros [] s ->. auto. Qed.


(** C15. Teardown is idempotent: after a call that releases the hair, a
    second call returns and leaves the state as the first left it. *)
Theorem Hair_Clear_idempotent :
  exists s', Hair_Clear (mkst hp na wb wc g en md (Some h)) = Returns (tt, s') /\
             Hair_Clear s' = Returns (tt, s').
Proof.
  eexists. split; [exact clear_returns|]. unfold cleared_state.
  apply wp_returns. eapply wp_mono; [apply Hair_Clear_run, clear_preb_sound; reflexivity|].
  intros [] s ->. split; [reflexivity|]. unfold cleared_state. cbn. rewrite !filter_not_in_nil. reflexivity.
Qed.
End ClearSpec.

(** C16. [Hair_Clear] has no NULL check: on a NULL hair it reads
    [hair->element_count], which is undefined. *)
Theorem Hair_Clear_null s : hr s = None -> ub Hair_Clear s.
Proof. intros Hs. apply ub_here. unfold ub, get_hair. rewrite Hs. eauto. Qed.

Section ClearWitnesses.

Lemma Hair_Clear_idempotent_witness :
  exists s', Hair_Clear (mkst cut_hp 5 [] [] g0 en0 md0 (Some cut_hair)) = Returns (tt, s') /\
             Hair_Clear s' = Returns (tt, s').
Proof. apply Hair_Clear_idempotent. apply clear_preb_sound. vm_compute. reflexivity. Defined.

Lemma Hair_Clear_null_witness : ub Hair_Clear (mkst hp0 1 [] [] g0 en0 md0 None).
Proof. apply Hair_Clear_null. reflexivity. Defined.
End ClearWitnesses.
