(* ===== verification/CreateClear.v ===== *)
(** * Teardown of a built rig

    [Hair_Clear] run on the state [Hair_Create] leaves
    ([CreateFacts.created_state]).  The element loop of the teardown goes
    through: the created bodies and shapes are distinct and allocated.  What
    follows depends on the joints:
    - with joints, the joint loop calls Bullet's [removeConstraint] on a
      constraint whose body B (and, past the first group, body A) the
      element loop has already deleted: undefined behaviour;
    - with [joints_per_body = 0] (no joints) the teardown returns, puts the
      world back as it was, and leaves every motion state of the rig in the
      heap with nothing pointing to it. *)

From S2P Require Import Prelude Vector Engine Hair HairCreate HairClear CreateFacts ClearFacts Scenario.

(** The element pointers of the created hair, element by element. *)
Definition created_ptrs (n0 k : nat) : list nat :=
  concat (map (fun i => [body_addr n0 i; shape_addr n0 i]) (seq 0 k)).

Lemma created_ptrs_S n0 k : created_ptrs n0 (S k) = created_ptrs n0 k ++ [body_addr n0 k; shape_addr n0 k].
Proof. unfold created_ptrs. rewrite seq_S, map_app, concat_app. simpl. rewrite ?app_nil_r. reflexivity. Qed.

Lemma created_ptrs_range n0 k l : l ∈ created_ptrs n0 k -> (S n0 <= l < S n0 + 3 * k)%nat.
Proof.
  induction k as [|k IH]; [unfold created_ptrs; simpl; set_solver|].
  rewrite created_ptrs_S, elem_of_app. intros [Hl|Hl]; [specialize (IH Hl); lia|].
  unfold body_addr, shape_addr in Hl. set_solver by lia.
Qed.

Lemma created_ptrs_NoDup n0 k : NoDup (created_ptrs n0 k).
Proof.
  induction k as [|k IH]; [constructor|]. rewrite created_ptrs_S. apply NoDup_app. split; [exact IH|]. split.
  - intros x Hx. apply created_ptrs_range in Hx. unfold body_addr, shape_addr. set_solver by lia.
  - unfold body_addr, shape_addr. repeat constructor; set_solver by lia.
Qed.

Lemma created_ptrs_elem n0 k l :
  l ∈ created_ptrs n0 k -> exists j, (j < k)%nat /\ (l = body_addr n0 j \/ l = shape_addr n0 j).
Proof.
  induction k as [|k IH]; [unfold created_ptrs; simpl; set_solver|].
  rewrite created_ptrs_S, elem_of_app. intros [Hl|Hl].
  - destruct (IH Hl) as (j & Hj & Hl'). exists j. split; [lia|exact Hl'].
  - exists k. split; [lia|]. set_solver.
Qed.

Lemma created_ptrs_body n0 k j : (j < k)%nat -> body_addr n0 j ∈ created_ptrs n0 k.
Proof.
  induction k as [|k IH]; intros Hj; [lia|]. rewrite created_ptrs_S, elem_of_app.
  destruct (decide (j = k)) as [->|Hne]; [right; set_solver|left; apply IH; lia].
Qed.

Lemma created_ptrs_not_motion n0 k i : motion_addr n0 i ∉ created_ptrs n0 k.
Proof.
  induction k as [|k IH]; [unfold created_ptrs; simpl; set_solver|].
  rewrite created_ptrs_S, elem_of_app. unfold motion_addr, body_addr, shape_addr. set_solver by lia.
Qed.

Section CreatedClear.
Context `{Collaborators}.
Variables (su : hair_setup_t) (p : nat) (ent : entity) (ob : nat) (m : skeletal_model)
          (btl bt0 : ss_bone_tag) (hp : gmap nat heap_obj) (n0 : nat)
          (wb : list (nat * collision_group * collision_mask)) (wc : list (nat * bool))
          (g : btVector3) (en : gmap nat entity) (md : gmap Z skeletal_model) (h0 : hair_t).
Hypothesis Hlen : length (mesh_tree m) = mesh_count m.

Let N := mesh_count m.
Let cs := created_state su p ent ob m btl bt0 hp n0 wb wc g en md h0.
Let hc := hair_set_joints (hair_set_elements (created_hair_init su p ent m btl n0 h0)
            (elems_list m n0 N)) (N * jpb su)%nat (joint_slots su m n0 (N * jpb su)%nat).

Lemma created_elems_ptrs : elems_ptrs (take N (elements hc)) = created_ptrs n0 N.
Proof.
  cbn [elements hc hair_set_joints hair_set_elements]. rewrite take_ge.
  2:{ unfold elems_list. rewrite length_imap, Hlen. reflexivity. }
  unfold elems_ptrs, created_ptrs. f_equal. apply list_eq. intros i. rewrite !list_lookup_fmap.
  destruct (decide (i < N)%nat) as [Hi|Hi].
  - destruct (lookup_lt_is_Some_2 (mesh_tree m) i) as [mt Hmt]; [unfold N in Hi; lia|].
    rewrite (elems_list_lookup _ _ _ _ _ Hmt Hi), lookup_seq_lt by exact Hi. reflexivity.
  - rewrite lookup_seq_ge by lia. rewrite lookup_ge_None_2; [reflexivity|].
    unfold elems_list. rewrite length_imap. unfold N in Hi. lia.
Qed.

Lemma created_elems_bodies : elems_bodies (take N (elements hc)) = map (body_addr n0) (seq 0 N).
Proof.
  cbn [elements hc hair_set_joints hair_set_elements]. rewrite take_ge.
  2:{ unfold elems_list. rewrite length_imap, Hlen. reflexivity. }
  unfold elems_bodies. transitivity (concat (map (fun i => [body_addr n0 i]) (seq 0 N))).
  - f_equal. apply list_eq. intros i. rewrite !list_lookup_fmap.
    destruct (decide (i < N)%nat) as [Hi|Hi].
    + destruct (lookup_lt_is_Some_2 (mesh_tree m) i) as [mt Hmt]; [unfold N in Hi; lia|].
      rewrite (elems_list_lookup _ _ _ _ _ Hmt Hi), lookup_seq_lt by exact Hi. reflexivity.
    + rewrite lookup_seq_ge by lia. rewrite lookup_ge_None_2; [reflexivity|].
      unfold elems_list. rewrite length_imap. unfold N in Hi. lia.
  - induction (seq 0 N) as [|x xs IH]; simpl; [reflexivity|]. rewrite IH. reflexivity.
Qed.

(** The created bodies, shapes and container are allocated. *)
Lemma created_allocated l :
  l ∈ created_ptrs n0 N ++ [n0] -> is_Some (heap (eng cs) !! l).
Proof.
  intros Hl. apply elem_of_app in Hl as [Hl|Hl].
  - pose proof (created_ptrs_range _ _ _ Hl) as Hr. destruct (created_ptrs_elem _ _ _ Hl) as (j & Hj & Hl').
    unfold cs. rewrite created_heap_elems_lookup by (fold N; lia). unfold created_heap_elems.
    destruct (heap_elems_lookup su m g (start_transform ent bt0) (weight_step su m) n0
                (<[n0 := OContainer hair_container]> hp) j (mesh_count m) Hj) as (Hb & _ & Hs).
    destruct Hl' as [->| ->]; [rewrite Hb | rewrite Hs]; eauto.
  - apply list_elem_of_singleton in Hl as ->. unfold cs.
    rewrite created_heap_elems_lookup by lia. unfold created_heap_elems.
    rewrite heap_elems_lookup_other by (intros j _; unfold shape_addr, motion_addr, body_addr; lia).
    rewrite lookup_insert_eq. eauto.
Qed.
End CreatedClear.

Section CreateThenClear.
Context `{Collaborators}.
Variables (su : hair_setup_t) (p : nat) (ent : entity) (ob : nat) (m : skeletal_model)
          (btl bt0 : ss_bone_tag) (hp : gmap nat heap_obj) (n0 : nat)
          (wb : list (nat * collision_group * collision_mask)) (wc : list (nat * bool))
          (g : btVector3) (en : gmap nat entity) (md : gmap Z skeletal_model) (h0 : hair_t).
Hypothesis Hent : en !! p = Some ent.
Hypothesis Hlink : (0 <= link_body su < Z.of_nat (bone_tag_count ent))%Z.
Hypothesis Hob : e_bt_body ent !! Z.to_nat (link_body su) = Some (Some ob).
Hypothesis Hbtl : e_bone_tags ent !! Z.to_nat (link_body su) = Some btl.
Hypothesis Hbt0 : e_bone_tags ent !! 0%nat = Some bt0.
Hypothesis Hm : md !! model su = Some m.
Hypothesis Hmc : (0 < mesh_count m <= 255)%nat.
Hypothesis Hlen : length (mesh_tree m) = mesh_count m.
Hypothesis Hjpb : (0 <= joints_per_body su < 256)%Z.
(** [n0] is the allocator's next address: nothing is allocated from it on. *)
Hypothesis Hfresh : map_Forall (fun l _ => (l < n0)%nat) hp.

Lemma fresh_none l : (n0 <= l)%nat -> hp !! l = None.
Proof. intros Hl. destruct (hp !! l) eqn:E; [|reflexivity]. apply Hfresh in E. lia. Qed.

Let s := mkst hp n0 wb wc g en md (Some h0).
Let cs := created_state su p ent ob m btl bt0 hp n0 wb wc g en md h0.
Let hc := hair_set_joints (hair_set_elements (created_hair_init su p ent m btl n0 h0)
            (elems_list m n0 (mesh_count m))) ((mesh_count m) * jpb su)%nat (joint_slots su m n0 ((mesh_count m) * jpb su)%nat).

Lemma created_run : Hair_Create (Some su) (Some p) s = Returns (true, cs).
Proof. eapply Hair_Create_returns; eauto. Qed.

Lemma created_hc_counts :
  element_count hc = (mesh_count m) /\ elements hc = elems_list m n0 (mesh_count m) /\ joint_count hc = ((mesh_count m) * jpb su)%nat /\
  container hc = Some n0.
Proof. repeat split. Qed.

Lemma created_elems_length : length (elements hc) = (mesh_count m).
Proof. cbn. unfold elems_list. rewrite length_imap. exact Hlen. Qed.
Lemma created_clear_start :
  cs = clear_elems_state hc (elements hc) (heap (eng cs)) (next_addr (eng cs)) (world_bodies (eng cs))
         (world_constraints (eng cs)) g en md 0.
Proof.
  unfold clear_elems_state, cleared_elems. cbn [take map app drop free_all].
  rewrite filter_not_in_nil, hair_set_elements_eta. reflexivity.
Qed.

(** The element loop of the teardown on the created rig. *)
Lemma created_clear_elements :
  wp (iter_range Hair_Clear_element (mesh_count m) 0 tt)
     (fun _ s' => s' = clear_elems_state hc (elements hc) (heap (eng cs)) (next_addr (eng cs))
                         (world_bodies (eng cs)) (world_constraints (eng cs)) g en md (mesh_count m))
     (clear_elems_state hc (elements hc) (heap (eng cs)) (next_addr (eng cs)) (world_bodies (eng cs))
         (world_constraints (eng cs)) g en md 0).
Proof.
  apply clear_elements_run.
  - rewrite created_elems_length. lia.
  - unfold hc. rewrite created_elems_ptrs by exact Hlen. apply created_ptrs_NoDup.
  - unfold hc. rewrite created_elems_ptrs by exact Hlen. apply Forall_forall. intros l Hl.
    eapply created_allocated; [exact Hlen|]. set_solver.
Qed.
Lemma created_heap_joint0 :
  (0 < (mesh_count m) * jpb su)%nat ->
  heap (eng cs) !! joint_addr n0 (mesh_count m) 0 = Some (OJoint (joint_obj su m n0 ob 0 true)).
Proof.
  intros Hpos. unfold cs, created_state, joints_state, mkst. cbn [eng heap].
  rewrite heap_joints_lookup by exact Hpos. unfold psij. destruct (mesh_count m) eqn:EN; [lia|reflexivity].
Qed.

(** C17. Tearing down a rig that has joints is undefined: [Hair_Clear]
    deletes every body (lines 249-262) before it removes the constraints
    (lines 267-275), and Bullet's [removeConstraint] reaches both bodies of
    the constraint it removes, the first of which is already deleted. *)
Theorem Hair_Clear_after_Create_ub :
  (1 <= joints_per_body su)%Z -> (exists bo, hp !! ob = Some (OBody bo)) ->
  ub (do _ <- Hair_Create (Some su) (Some p); Hair_Clear) s.
Proof.
  intros Hj1 [bo Hbo]. assert (Hpos : (0 < (mesh_count m) * jpb su)%nat) by (unfold jpb; nia).
  assert (Hob0 : (ob < n0)%nat) by (destruct (Nat.lt_ge_cases ob n0) as [|Hge]; [done|rewrite fresh_none in Hbo; done]).
  apply ub_after. eapply wp_intro; [exact created_run|]. cbv beta.
  rewrite created_clear_start. unfold Hair_Clear. apply ub_after.
  unfold clear_elems_state at 1. apply wp_get_hair. apply ub_after.
  cbn [element_count hair_set_elements]. change (element_count hc) with (mesh_count m).
  eapply wp_mono; [apply created_clear_elements|]. intros [] s1 ->. unfold clear_elems_state.
  apply ub_after. apply wp_get_hair. apply ub_after. apply wp_put_hair. apply ub_after. apply wp_get_hair.
  cbn [joint_count hair_drop_elements hair_set_elements joints].
  change (joint_count hc) with ((mesh_count m) * jpb su)%nat.
  apply ub_iter_range_first; [exact Hpos|].
  unfold Hair_Clear_joint. apply ub_after. apply wp_get_hair. apply ub_after.
  eapply wp_joint_at.
  { cbn [joints hair_drop_elements hair_set_elements]. unfold hc. cbn [joints hair_set_joints].
    rewrite joint_slots_lookup by (simpl; lia). destruct (Nat.ltb_spec (Z.to_nat 0) (mesh_count m * jpb su)); [reflexivity|lia]. }
  apply ub_here. eapply ub_world_removeConstraint_B.
  - rewrite free_all_lookup, decide_False.
    + apply created_heap_joint0. lia.
    + unfold hc. rewrite created_elems_ptrs by exact Hlen. intros Hin.
      apply created_ptrs_range in Hin. unfold joint_addr in Hin. lia.
  - destruct (joint_obj_fields su m n0 ob 0 true) as (_ & -> & _). rewrite Nat.Div0.div_0_l.
    rewrite free_all_lookup, decide_True; [reflexivity|].
    unfold hc. rewrite created_elems_ptrs by exact Hlen. apply created_ptrs_body. lia.
  - destruct (joint_obj_fields su m n0 ob 0 true) as (-> & _). rewrite Nat.Div0.div_0_l.
    exists bo. unfold prev_addr. cbn [Nat.eqb]. rewrite free_all_lookup, decide_False.
    + change (heap (eng cs) !! ob = Some (OBody bo)). unfold cs. erewrite created_heap_low; eauto.
    + unfold hc. rewrite created_elems_ptrs by exact Hlen. intros Hin.
      apply created_ptrs_range in Hin. lia.
Qed.

Lemma created_hc_ptrs : elems_ptrs (take (mesh_count m) (elements hc)) = created_ptrs n0 (mesh_count m).
Proof. unfold hc. apply created_elems_ptrs, Hlen. Qed.

(** Without joints, the created rig meets the preconditions of the teardown. *)
Lemma created_clear_pre : (joints_per_body su = 0)%Z -> clear_pre hc (heap (eng cs)).
Proof.
  intros Hj0. assert (HJ : jpb su = 0%nat) by (unfold jpb; rewrite Hj0; reflexivity).
  pose proof created_hc_ptrs as HE. unfold clear_pre, clear_ptrs, clear_elem_ptrs, clear_joint_ptrs.
  change (element_count hc) with (mesh_count m). change (joint_count hc) with (mesh_count m * jpb su)%nat.
  change (container hc) with (Some n0). rewrite HJ, Nat.mul_0_r.
  rewrite HE. cbn [take joints_ptrs opt_list concat map app].
  rewrite ?app_nil_r. split; [rewrite created_elems_length; lia|]. split; [lia|]. split.
  - apply NoDup_app. split; [apply created_ptrs_NoDup|]. split; [|apply NoDup_singleton].
    intros x Hx%created_ptrs_range Hn. set_solver by lia.
  - split; [|constructor]. apply Forall_forall. intros l Hl. eapply created_allocated; [exact Hlen|]. exact Hl.
Qed.

(** C28. A rig without joints is created and torn down, and every
    motion state [Hair_Create] allocated (line 79) is still in the heap,
    at the owner's start transform: [Hair_Clear] deletes bodies and
    shapes but never a motion state, and the cleared hair no longer
    points to them. *)
Theorem Hair_Clear_after_Create_leaks :
  (joints_per_body su = 0)%Z ->
  exists s1 s2, Hair_Create (Some su) (Some p) s = Returns (true, s1) /\ Hair_Clear s1 = Returns (tt, s2) /\
    hr s2 = Some hair_zero /\
    forall i, (i < mesh_count m)%nat ->
      heap (eng s2) !! motion_addr n0 i = Some (OMotionState (start_transform ent bt0)).
Proof.
  intros Hj0.
  destruct (wp_run _ _ _ (Hair_Clear_run hc (heap (eng cs)) (next_addr (eng cs)) (world_bodies (eng cs))
              (world_constraints (eng cs)) g en md (created_clear_pre Hj0))) as ([] & s2 & Hr & ->).
  exists cs. eexists. split; [exact created_run|]. split; [exact Hr|]. split; [reflexivity|].
  intros i Hi. cbn [cleared_state mkst eng heap]. rewrite free_all_lookup, decide_False.
  - unfold cs. rewrite created_heap_elems_lookup by (exact Hlen || (unfold motion_addr; lia)).
    unfold created_heap_elems. apply (heap_elems_lookup _ _ _ _ _ _ _ i (mesh_count m) Hi).
  - unfold clear_ptrs, clear_elem_ptrs. change (element_count hc) with (mesh_count m).
    rewrite created_hc_ptrs. rewrite !elem_of_app. intros [Hin|[Hin|Hin]].
    + exact (created_ptrs_not_motion _ _ _ Hin).
    + unfold clear_joint_ptrs in Hin. change (joint_count hc) with (mesh_count m * jpb su)%nat in Hin.
      unfold jpb in Hin. rewrite Hj0, Nat.mul_0_r in Hin. cbn in Hin. set_solver.
    + cbn in Hin. apply list_elem_of_singleton in Hin. unfold motion_addr in Hin. lia.
Qed.
End CreateThenClear.

Section CreateClearWitnesses.
#[local] Existing Instance demo.

Lemma Hair_Clear_after_Create_ub_witness :
  ub (do _ <- Hair_Create (Some setup0) (Some 7%nat); Hair_Clear) s0.
Proof.
  apply (Hair_Clear_after_Create_ub setup0 7%nat lara 0%nat (mk_model 3) {| full_transform := head_tr |}
           {| full_transform := idm |} hp0 1%nat [] [] g0 en0 md0 hair_zero); discharge_scene.
Defined.

Lemma Hair_Clear_after_Create_leaks_witness :
  exists s1 s2, Hair_Create (Some setup_nj) (Some 7%nat) s0 = Returns (true, s1) /\ Hair_Clear s1 = Returns (tt, s2) /\
    hr s2 = Some hair_zero /\
    forall i, (i < 3)%nat ->
      heap (eng s2) !! motion_addr 1 i = Some (OMotionState (start_transform lara {| full_transform := idm |})).
Proof.
  apply (Hair_Clear_after_Create_leaks setup_nj 7%nat lara 0%nat (mk_model 3) {| full_transform := head_tr |}
           {| full_transform := idm |} hp0 1%nat [] [] g0 en0 md0 hair_zero); discharge_scene.
Defined.
End CreateClearWitnesses.
