(* ===== verification/UpdateSpec.v ===== *)
(** * What [Hair_Update] does

    The run of [Hair_Update] on a hair whose pointers are all valid
    ([Hair_Update_run]): the stored pose becomes the owner's new pose, the
    root body and the owner's body receive the mixed velocity, the
    container's room is looked up again, and nothing else changes.  From
    it: the early return of line 297, the frame in which nothing moved, two
    frames in a row, and the read of bone tag 14 on a smaller skeleton. *)

From S2P Require Import Prelude Vector Engine Hair HairUpdate Scenario.

(** [body->setLinearVelocity(v)] on the heap, when [l] holds a body. *)
Definition set_vel (v : btVector3) (l : nat) (hp : gmap nat heap_obj) : gmap nat heap_obj :=
  match hp !! l with Some (OBody b) => <[l := OBody (setLinearVelocity b v)]> hp | _ => hp end.

Lemma set_vel_write v l b hp :
  hp !! l = Some (OBody b) -> <[l := OBody (setLinearVelocity b v)]> hp = set_vel v l hp.
Proof. unfold set_vel. intros ->. reflexivity. Qed.

Lemma set_vel_eq v l b hp :
  hp !! l = Some (OBody b) -> set_vel v l hp !! l = Some (OBody (setLinearVelocity b v)).
Proof. unfold set_vel. intros ->. apply lookup_insert_eq. Qed.

Lemma set_vel_ne v l l' hp : l <> l' -> set_vel v l hp !! l' = hp !! l'.
Proof. unfold set_vel. intros Hne. destruct (hp !! l) as [[]|]; try reflexivity. by apply lookup_insert_ne. Qed.

(** A body stays a body, whatever else the heap holds stays as it is. *)
Lemma set_vel_body v l l' b hp : hp !! l' = Some (OBody b) -> exists b', set_vel v l hp !! l' = Some (OBody b').
Proof.
  intros Hb. destruct (decide (l = l')) as [<-|Hne].
  - eexists. by apply set_vel_eq.
  - exists b. by rewrite set_vel_ne.
Qed.

Lemma set_vel_container v l l' c hp :
  hp !! l' = Some (OContainer c) -> set_vel v l hp !! l' = Some (OContainer c).
Proof.
  intros Hc. destruct (decide (l = l')) as [<-|Hne].
  - unfold set_vel. by rewrite Hc.
  - by rewrite set_vel_ne.
Qed.

Lemma setLinearVelocity_vel b v : rb_lin_vel (setLinearVelocity b v) = v.
Proof. reflexivity. Qed.

#[export] Hint Resolve set_vel_eq set_vel_container : hair.
#[export] Hint Rewrite setLinearVelocity_vel : hair_rw.

(** Past the guard of line 297, the frame is [Hair_Update_body]. *)
Lemma Hair_Update_past_guard `{Collaborators} s h :
  hr s = Some h -> (0 < element_count h)%nat -> Hair_Update s = Hair_Update_body h s.
Proof. intros Hh Hc. unfold Hair_Update. rewrite Hh. by replace (element_count h <? 1)%nat with false by (symmetry; apply Nat.ltb_ge; lia). Qed.

(** The pointers [Hair_Update] follows, all valid: the owner entity
    [ent], its bone tag 14 [bt], the root element's body [b] at [rb], the
    owner's body [bo] at [ob] and the container [ct] at [c]. *)
Definition update_pre (en : gmap nat entity) (hp : gmap nat heap_obj) (h : hair_t) (ent : entity)
    (bt : ss_bone_tag) (rb ob c : nat) (b bo : btRigidBody) (ct : engine_container) : Prop :=
  (0 < element_count h)%nat /\
  (exists p, owner_char h = Some p /\ en !! p = Some ent) /\
  e_bone_tags ent !! 14%nat = Some bt /\
  (exists el, elements h !! root_index h = Some el /\ he_body el = Some rb) /\
  hp !! rb = Some (OBody b) /\
  (0 <= owner_body h)%Z /\ e_bt_body ent !! Z.to_nat (owner_body h) = Some (Some ob) /\
  hp !! ob = Some (OBody bo) /\
  container h = Some c /\ hp !! c = Some (OContainer ct).

Section UpdateDefs.
Context `{Collaborators}.

(** The pose [Hair_Update] samples from the owner and bone tag [bt]. *)
Definition updated_hair (h : hair_t) (ent : entity) (bt : ss_bone_tag) : hair_t :=
  hair_set_pose h (mat_origin (e_transform ent)) (mat_ang (e_transform ent))
    (mat_origin (full_transform bt)) (mat_ang (full_transform bt)).

Definition update_vel (h : hair_t) (ent : entity) (bt : ss_bone_tag) : btVector3 :=
  mix_vel h (mat_origin (e_transform ent)) (mat_origin (full_transform bt)).

Definition updated_heap (hp : gmap nat heap_obj) (h : hair_t) (ent : entity) (bt : ss_bone_tag)
    (rb ob c : nat) (ct : engine_container) : gmap nat heap_obj :=
  <[c := OContainer (set_room (mat_origin (e_transform ent)) ct)]>
    (set_vel (update_vel h ent bt) ob (set_vel (update_vel h ent bt) rb hp)).

(** A second frame samples the pose the first one stored. *)
Lemma update_vel_again h ent bt : update_vel (updated_hair h ent bt) ent bt =v= vzero.
Proof. unfold update_vel, mix_vel, updated_hair, hair_set_pose. vec_ring. Qed.
End UpdateDefs.

Section UpdateRun.
Context `{Collaborators}.
Variables (hp : gmap nat heap_obj) (na : nat) (wb : list (nat * collision_group * collision_mask))
          (wc : list (nat * bool)) (g : btVector3) (en : gmap nat entity) (md : gmap Z skeletal_model)
          (h : hair_t) (ent : entity) (bt : ss_bone_tag) (rb ob c : nat) (b bo : btRigidBody)
          (ct : engine_container).
Hypothesis Hpre : update_pre en hp h ent bt rb ob c b bo ct.

Let v := update_vel h ent bt.
Let hp' := updated_heap hp h ent bt rb ob c ct.

Lemma Hair_Update_run :
  Hair_Update (mkst hp na wb wc g en md (Some h)) =
  Returns (tt, mkst hp' na wb wc g en md (Some (updated_hair h ent bt))).
Proof.
  destruct Hpre as (Hcount & (p & Hown & Hent) & Hbt & (el & Hel & Hrb) & Hb & Hob0 & Hob & Hbo & Hc & Hct).
  rewrite (Hair_Update_past_guard _ h) by done.
  apply wp_returns. unfold Hair_Update_body.
  apply wp_bind. eapply wp_get_owner; [exact Hown|exact Hent|].
  apply wp_bind. eapply wp_deref; [exact Hbt|].
  repeat hstep. eapply wp_element_at; [exact Hel|].
  hstep. eapply wp_deref; [exact Hrb|].
  hstep. eapply wp_update_body; [exact Hb|]. cbv beta. rewrite set_vel_write by exact Hb.
  hstep. eapply wp_deref; [rewrite (proj2 (Z.leb_le _ _) Hob0); exact Hob|].
  hstep. eapply wp_deref; [reflexivity|].
  destruct (set_vel_body v rb ob bo hp Hbo) as [b' Hb'].
  hstep. eapply wp_update_body; [exact Hb'|]. cbv beta. rewrite set_vel_write by exact Hb'.
  hstep. eapply wp_deref; [exact Hc|].
  eapply wp_update_container; [by do 2 apply set_vel_container|]. split; reflexivity.
Qed.

Lemma updated_container_ne : c <> rb /\ c <> ob.
Proof. destruct Hpre as (_ & _ & _ & _ & Hb & _ & _ & Hbo & _ & Hct). split; intros ->; congruence. Qed.

Lemma updated_heap_rb : hp' !! rb = Some (OBody (setLinearVelocity b v)).
Proof.
  destruct Hpre as (_ & _ & _ & _ & Hb & _ & _ & Hbo & _). unfold hp', updated_heap.
  rewrite lookup_insert_ne by (pose proof updated_container_ne; intuition congruence).
  destruct (decide (ob = rb)) as [->|Hne].
  - rewrite Hb in Hbo. injection Hbo as <-. erewrite set_vel_eq; [|by apply set_vel_eq]. reflexivity.
  - rewrite set_vel_ne by exact Hne. by apply set_vel_eq.
Qed.

Lemma updated_heap_ob : hp' !! ob = Some (OBody (setLinearVelocity bo v)).
Proof.
  destruct Hpre as (_ & _ & _ & _ & Hb & _ & _ & Hbo & _). unfold hp', updated_heap.
  rewrite lookup_insert_ne by (pose proof updated_container_ne; intuition congruence).
  destruct (decide (rb = ob)) as [->|Hne].
  - rewrite Hb in Hbo. injection Hbo as ->. erewrite set_vel_eq; [|by apply set_vel_eq]. reflexivity.
  - apply set_vel_eq. by rewrite set_vel_ne.
Qed.


(** The preconditions hold again after a frame, on the updated objects. *)
Lemma update_pre_updated :
  update_pre en hp' (updated_hair h ent bt) ent bt rb ob c (setLinearVelocity b v) (setLinearVelocity bo v)
    (set_room (mat_origin (e_transform ent)) ct).
Proof.
  pose proof Hpre as (Hcount & Hown & Hbt & Hel & _ & Hob0 & Hob & _ & Hc & _).
  do 3 (split; [assumption|]). split; [exact Hel|]. split; [apply updated_heap_rb|].
  do 2 (split; [assumption|]). split; [apply updated_heap_ob|]. split; [assumption|].
  apply lookup_insert_eq.
Qed.
End UpdateRun.

Section UpdateSpec.
Context `{Collaborators}.
Variables (hp : gmap nat heap_obj) (na : nat) (wb : list (nat * collision_group * collision_mask))
          (wc : list (nat * bool)) (g : btVector3) (en : gmap nat entity) (md : gmap Z skeletal_model)
          (h : hair_t) (ent : entity) (bt : ss_bone_tag) (rb ob c : nat) (b bo : btRigidBody)
          (ct : engine_container).
Hypothesis Hpre : update_pre en hp h ent bt rb ob c b bo ct.

(** The root element of an updated hair still points to [rb]. *)
Lemma updated_hair_body X h' :
  elements h' = elements h -> root_index h' = root_index h ->
  hair_body (mkst X na wb wc g en md (Some h')) (root_index h) = heap_body (eng (mkst X na wb wc g en md (Some h'))) rb.
Proof.
  destruct Hpre as (_ & _ & _ & (el & Hel & Hrb) & _). intros He _.
  unfold hair_body. cbn [hr mkst]. rewrite He, Hel. destruct el as [? ? [|]]; cbn in Hrb; congruence.
Qed.


(** C19. Two frames in a row with the owner at rest: the second frame
    gives the root body and the owner's body a zero linear velocity,
    because the first stored exactly the pose the second samples. *)
Theorem Hair_Update_twice :
  exists s1 s2, Hair_Update (mkst hp na wb wc g en md (Some h)) = Returns (tt, s1) /\
    Hair_Update s1 = Returns (tt, s2) /\
    exists b2 bo2, hair_body s2 (root_index h) = Some b2 /\ heap_body (eng s2) ob = Some bo2 /\
      rb_lin_vel b2 =v= vzero /\ rb_lin_vel bo2 =v= vzero.
Proof.
  pose proof (update_pre_updated _ _ _ _ _ _ _ _ _ _ _ Hpre) as Hpre'.
  do 2 eexists. split; [eapply Hair_Update_run; exact Hpre|].
  split; [eapply Hair_Update_run; exact Hpre'|].
  do 2 eexists. rewrite updated_hair_body by reflexivity. unfold heap_body. cbn [eng mkst heap].
  rewrite (updated_heap_rb _ _ _ _ _ _ _ _ _ _ _ Hpre'), (updated_heap_ob _ _ _ _ _ _ _ _ _ _ _ Hpre').
  split; [reflexivity|]. split; [reflexivity|]. rewrite !setLinearVelocity_vel.
  split; apply update_vel_again.
Qed.
End UpdateSpec.

(** C20. Line 297: a NULL hair, or a hair without elements, is left as
    it is and nothing else changes. *)
Theorem Hair_Update_guard `{Collaborators} (s : st) :
  hr s = None \/ (exists h, hr s = Some h /\ element_count h = 0%nat) -> Hair_Update s = Returns (tt, s).
Proof. unfold Hair_Update. intros [-> | (h & -> & ->)]; reflexivity. Qed.

(** C21. Lines 303 and 306 read bone tag 14 whatever bone the hair is
    linked to ([owner_body]): on an owner with at most 14 bone tags, a
    frame of a hair with elements reads past the bone array. *)
Theorem Hair_Update_bone14_ub `{Collaborators} hp na wb wc g en md h p ent :
  (0 < element_count h)%nat -> owner_char h = Some p -> en !! p = Some ent ->
  (bone_tag_count ent <= 14)%nat ->
  ub Hair_Update (mkst hp na wb wc g en md (Some h)).
Proof.
  intros Hcount Hown Hent Hbones. unfold ub. rewrite (Hair_Update_past_guard _ h) by done.
  fold (ub (Hair_Update_body h) (mkst hp na wb wc g en md (Some h))). unfold Hair_Update_body. apply ub_after. eapply wp_get_owner; [exact Hown|exact Hent|].
  apply ub_here. exists "bone_tags[14]"%string. unfold deref. by rewrite lookup_ge_None_2.
Qed.

Ltac update_on_scene :=
  repeat (apply conj || eexists); first [reflexivity | simpl; lia | lia].

Section UpdateWitnesses.
#[local] Existing Instance demo.


Lemma Hair_Update_twice_witness :
  exists s1 s2, Hair_Update (mkst cut_hp 5 [] [] g0 en1 md0 (Some fly_hair)) = Returns (tt, s1) /\
    Hair_Update s1 = Returns (tt, s2) /\
    exists b2 bo2, hair_body s2 0 = Some b2 /\ heap_body (eng s2) 0 = Some bo2 /\
      rb_lin_vel b2 =v= vzero /\ rb_lin_vel bo2 =v= vzero.
Proof.
  apply (Hair_Update_twice cut_hp 5 [] [] g0 en1 md0 fly_hair lara15 {| full_transform := head_tr |}
           2 0 3 (new_btRigidBody 1 4 1 vzero) owner_rb Container_Create_obj); update_on_scene.
Defined.

Lemma Hair_Update_guard_witness : Hair_Update s0 = Returns (tt, s0).
Proof. apply Hair_Update_guard. right. eexists. split; reflexivity. Defined.

Lemma Hair_Update_bone14_ub_witness : ub Hair_Update (mkst cut_hp 5 [] [] g0 en0 md0 (Some cut_hair)).
Proof. apply (Hair_Update_bone14_ub cut_hp 5 [] [] g0 en0 md0 cut_hair 7 lara); first [reflexivity | simpl; lia | vm_compute; lia]. Defined.
End UpdateWitnesses.
