(* ===== verification/Lifecycle.v ===== *)
(** * A created hair's first frame

    [Hair_Create] stores the owner's pose from the bone it links the hair
    to ([link_body], lines 30-34), while [Hair_Update] compares it with
    bone tag 14 (lines 303 and 306).  When the two bones are not the same,
    the first frame after creation gives the hair a velocity although its
    owner has not moved: [-100] times the offset between the two bones. *)

From S2P Require Import Prelude Vector Engine Hair HairCreate HairUpdate CreateFacts UpdateSpec Scenario.

Section CreateThenUpdate.
Context `{Collaborators}.
Variables (su : hair_setup_t) (p : nat) (ent : entity) (ob : nat) (m : skeletal_model)
          (btl bt0 bt14 : ss_bone_tag) (hp : gmap nat heap_obj) (n0 : nat)
          (wb : list (nat * collision_group * collision_mask)) (wc : list (nat * bool))
          (g : btVector3) (en : gmap nat entity) (md : gmap Z skeletal_model) (h0 : hair_t)
          (bo : btRigidBody).
Hypothesis Hent : en !! p = Some ent.
Hypothesis Hlink : (0 <= link_body su < Z.of_nat (bone_tag_count ent))%Z.
Hypothesis Hob : e_bt_body ent !! Z.to_nat (link_body su) = Some (Some ob).
Hypothesis Hbtl : e_bone_tags ent !! Z.to_nat (link_body su) = Some btl.
Hypothesis Hbt0 : e_bone_tags ent !! 0%nat = Some bt0.
Hypothesis Hm : md !! model su = Some m.
Hypothesis Hmc : (0 < mesh_count m <= 255)%nat.
Hypothesis Hlen : length (mesh_tree m) = mesh_count m.
Hypothesis Hjpb : (0 <= joints_per_body su < 256)%Z.
Hypothesis Hbt14 : e_bone_tags ent !! 14%nat = Some bt14.
(** The owner's body lies below [n0], the allocator's next address. *)
Hypothesis Hbo : hp !! ob = Some (OBody bo).
Hypothesis Hob0 : (ob < n0)%nat.

Let cs := created_state su p ent ob m btl bt0 hp n0 wb wc g en md h0.
Let hc := hair_set_joints (hair_set_elements (created_hair_init su p ent m btl n0 h0)
            (elems_list m n0 (mesh_count m))) ((mesh_count m) * jpb su)%nat (joint_slots su m n0 ((mesh_count m) * jpb su)%nat).

(** The created state meets the preconditions of a frame. *)
Lemma created_update_pre :
  update_pre en (heap (eng cs)) hc ent bt14 (body_addr n0 0) ob n0
    (elem_body su m g (weight_step su m) n0 0) bo hair_container.
Proof.
  destruct (lookup_lt_is_Some_2 (mesh_tree m) 0) as [mt Hmt]; [lia|].
  split; [cbn; lia|]. split; [eexists; split; [reflexivity|exact Hent]|]. split; [exact Hbt14|].
  split; [eexists; split; [apply (elems_list_lookup _ _ _ _ _ Hmt); lia|reflexivity]|].
  split.
  { pose proof (created_body_at su p ent ob m btl bt0 hp n0 wb wc g en md h0 Hlen 0 ltac:(lia)) as Hb.
    unfold heap_body in Hb. fold cs in Hb.
    destruct (heap (eng cs) !! body_addr n0 0) as [[]|]; congruence. }
  split; [cbn; lia|]. split; [exact Hob|]. split; [unfold cs; rewrite created_heap_low; auto|].
  split; [reflexivity|]. apply created_heap_container, Hlen.
Qed.

(** C22. Right after [Hair_Create], with the owner where it was, the
    first [Hair_Update] gives the root body the velocity
    [-100 * (origin(bone link_body) - origin(bone 14))]: zero when the hair
    is linked to bone 14, a kick out of nothing otherwise. *)
Theorem Hair_Update_after_Create :
  exists s1 s2, Hair_Create (Some su) (Some p) (mkst hp n0 wb wc g en md (Some h0)) = Returns (true, s1) /\
    Hair_Update s1 = Returns (tt, s2) /\
    exists b2, hair_body s2 0 = Some b2 /\
      rb_lin_vel b2 =v= (mat_origin (full_transform btl) -v mat_origin (full_transform bt14)) *v (-100).
Proof.
  do 2 eexists. split; [eapply Hair_Create_returns; eauto|].
  change (created_state su p ent ob m btl bt0 hp n0 wb wc g en md h0) with cs.
  rewrite (st_eta cs). split; [eapply Hair_Update_run, created_update_pre|].
  eexists. split.
  - match goal with |- hair_body ?s 0 = ?r => change (hair_body s (root_index hc) = r) end.
    erewrite updated_hair_body; [|exact created_update_pre|reflexivity..].
    unfold heap_body. cbn [eng mkst heap]. by rewrite (updated_heap_rb _ _ _ _ _ _ _ _ _ _ _ created_update_pre).
  - rewrite setLinearVelocity_vel. unfold update_vel, mix_vel. cbn. vec_ring.
Qed.
End CreateThenUpdate.

Section LifecycleWitnesses.
#[local] Existing Instance demo.

(** Linked to bone 1 of [lara15], at rest: the root body is kicked by
    [-100 * (0, -5, 0)]. *)
Lemma Hair_Update_after_Create_witness :
  exists s1 s2, Hair_Create (Some setup0) (Some 8%nat) (mkst hp0 1 [] [] g0 en1 md0 (Some hair_zero)) = Returns (true, s1) /\
    Hair_Update s1 = Returns (tt, s2) /\
    exists b2, hair_body s2 0 = Some b2 /\
      rb_lin_vel b2 =v= (mat_origin idm -v mat_origin head_tr) *v (-100).
Proof.
  apply (Hair_Update_after_Create setup0 8%nat lara15 0%nat (mk_model 3) {| full_transform := idm |}
           {| full_transform := idm |} {| full_transform := head_tr |} hp0 1%nat [] [] g0 en1 md0 hair_zero owner_rb);
    discharge_scene.
Defined.
End LifecycleWitnesses.
