(* ===== verification/GetSetupSpec.v ===== *)
(** * What [Hair_GetSetup] reads

    A direct reading of the configuration table, without the Lua stack:
    [decode_setup T su0] is the setup the reader leaves when the script
    returns the table [T] over the caller's record [su0], with the
    conjunction of the blocks' results, or [None] where a conversion to an
    unsigned type is undefined.  [Hair_GetSetup_refines] shows that the
    stack-machine code of [HairSetup] computes it and leaves the Lua
    stack as it found it; the other theorems read it off. *)

From S2P Require Import Prelude Vector Engine Hair LuaApi HairSetup.

(** ** The direct reading *)

Definition num (T : list (lua_key * lua_value)) (k : string) : Q := lua_tonumber (rawget T (KStr k)).
Definition numi (T : list (lua_key * lua_value)) (i : Z) : Q := lua_tonumber (rawget T (KInt i)).

Definition table_at (T : list (lua_key * lua_value)) (k : string) : option (list (lua_key * lua_value)) :=
  match rawget T (KStr k) with LTable t => Some t | _ => None end.

Definition dec_ids T su : option hair_setup_t :=
  m ← float_to_uint_opt 32 (num T "model"); lb ← float_to_uint_opt 32 (num T "link_body");
  vc ← float_to_uint_opt 32 (num T "v_count"); Some (setup_set_ids su m lb vc).

Definition dec_damping T su : hair_setup_t :=
  match table_at T "hair_damping" with
  | Some D => setup_with su (numi D 1, numi D 2) (head_offset su) (root_angle su) (head_vertex_map su)
  | None => su
  end.

Definition dec_props T su : option (bool * hair_setup_t) :=
  match table_at T "props" with
  | Some P =>
      jpb ← float_to_uint_opt 8 (num P "joints_per_body");
      Some (true, dec_damping P (setup_set_props su (num P "root_weight") (num P "tail_weight")
                   (num P "hair_inertia") (num P "hair_friction") (num P "hair_bouncing")
                   (num P "joint_radius") (num P "joint_overlap") jpb (num P "joint_cfm") (num P "joint_erp")))
  | None => Some (false, su)
  end.

(** [n] entries of [v_index] from [V[i]], each into key [i - 1]. *)
Fixpoint dec_vmap (V : list (lua_key * lua_value)) (n : nat) (i : Z) (vm : gmap Z Z) : option (gmap Z Z) :=
  match n with
  | O => Some vm
  | S n => v ← float_to_uint_opt 32 (numi V i); dec_vmap V n (i + 1) (<[(i - 1)%Z := v]> vm)
  end.

Definition dec_vertex_map T su : option (bool * hair_setup_t) :=
  match table_at T "v_index" with
  | Some V =>
      if (2 ^ 31 <=? vertex_map_count su)%Z then None else
      vm ← dec_vmap V (Z.to_nat (vertex_map_count su)) 1 (head_vertex_map su);
      Some (true, setup_with su (hair_damping su) (head_offset su) (root_angle su) vm)
  | None => Some (false, su)
  end.

Definition dec_vec T (key : string) (store : hair_setup_t -> btVector3 -> hair_setup_t) su : bool * hair_setup_t :=
  match table_at T key with
  | Some V => (true, store su (Vec3 (numi V 1) (numi V 2) (numi V 3)))
  | None => (false, su)
  end.

Definition decode_setup T su : option (bool * hair_setup_t) :=
  su ← dec_ids T su;
  '(ok1, su) ← dec_props T su;
  '(ok2, su) ← dec_vertex_map T su;
  let '(ok3, su) := dec_vec T "offset" store_offset su in
  let '(ok4, su) := dec_vec T "root_angle" store_root_angle su in
  Some (ok1 && ok2 && ok3 && ok4, su).

(** The whole call: no function, a failed call or a result that is not a
    table is [false] with the record untouched. *)
Definition getsetup_spec (env : lua_env) (idx : Z) (su : hair_setup_t) : option (bool * hair_setup_t) :=
  match lua_global env "getHairSetup" with
  | LFunction f =>
      match lua_call env f [LNumber (inject_Z idx)] with
      | Some (LTable T) => decode_setup T su
      | _ => Some (false, su)
      end
  | _ => Some (false, su)
  end.

(** ** Runs that leave the stack as they found it *)

Notation G := (M (gs hair_setup_t)).

(** [m] run on [g] gives [o]'s result and record, with the stack of [g];
    [None] is undefined behaviour. *)
Definition neutral {A} (m : G A) (g : gs hair_setup_t) (o : option (A * hair_setup_t)) : Prop :=
  match o with
  | Some (a, su') => m g = Returns (a, mkgs (lua_stack g) su')
  | None => ub m g
  end.

Lemma neutral_bind {A B} (m : G A) (k : A -> G B) g o (ko : A -> hair_setup_t -> option (B * hair_setup_t)) :
  neutral m g o ->
  (forall a su', o = Some (a, su') -> neutral (k a) (mkgs (lua_stack g) su') (ko a su')) ->
  neutral (Mbind m k) g (o ≫= fun '(a, su') => ko a su').
Proof.
  unfold neutral. destruct o as [[a su']|]; simpl.
  - intros Hm Hk. specialize (Hk a su' eq_refl). destruct (ko a su') as [[b su'']|].
    + unfold Mbind. rewrite Hm. exact Hk.
    + apply ub_after. unfold wp. rewrite Hm. exact Hk.
  - intros Hm _. by apply ub_here.
Qed.

Lemma neutral_ret {A} (a : A) g : neutral (Mret a) g (Some (a, gs_out g)).
Proof. destruct g. reflexivity. Qed.

Lemma neutral_modify_out f g : neutral (modify_out f) g (Some (tt, f (gs_out g))).
Proof. reflexivity. Qed.

Lemma neutral_cast w x g : neutral (float_to_uint w x) g (z ← float_to_uint_opt w x; Some (z, gs_out g)).
Proof.
  unfold neutral, float_to_uint. destruct (float_to_uint_opt w x).
  - destruct g. reflexivity.
  - eexists. reflexivity.
Qed.

Lemma neutral_mono {A} (m : G A) g o o' : neutral m g o -> o = o' -> neutral m g o'.
Proof. by intros ? <-. Qed.

(** A block that returns, then the rest on the record it leaves. *)
Lemma neutral_seq {A B} (m : G A) (k : A -> G B) g a su' o :
  neutral m g (Some (a, su')) -> neutral (k a) (mkgs (lua_stack g) su') o -> neutral (Mbind m k) g o.
Proof.
  unfold neutral. intros Hm Hk. destruct o as [[b su'']|].
  - unfold Mbind. rewrite Hm. exact Hk.
  - destruct Hk as [w Hw]. exists w. unfold Mbind. rewrite Hm. exact Hw.
Qed.

(** A block that is undefined. *)
Lemma neutral_stop {A B} (m : G A) (k : A -> G B) g : neutral m g None -> neutral (Mbind m k) g None.
Proof. apply ub_here. Qed.

(** ** One statement on a known stack *)

Section Steps.
Context {B : Type}.
Implicit Types (kont : unit -> G B) (T : list (lua_key * lua_value)) (l : list lua_value) (su : hair_setup_t).

Lemma Mbind_scalar k (kq : Q -> G B) T l su :
  Mbind (lua_GetScalarField k) kq (mkgs (LTable T :: l) su) = kq (lua_tonumber (rawget T k)) (mkgs (LTable T :: l) su).
Proof. reflexivity. Qed.

Lemma Mbind_cast w x (kz : Z -> G B) g :
  Mbind (float_to_uint w x) kz g =
  match float_to_uint_opt w x with Some z => kz z g | None => Undefined "float to unsigned conversion out of range" end.
Proof. unfold float_to_uint. by destruct (float_to_uint_opt w x). Qed.

Lemma Mbind_modify_out f kont g : Mbind (modify_out f) kont g = kont tt (mkgs (lua_stack g) (f (gs_out g))).
Proof. reflexivity. Qed.

Lemma Mbind_getfield key kont T l su :
  Mbind (lua_getfield key) kont (mkgs (LTable T :: l) su) = kont tt (mkgs (rawget T (KStr key) :: LTable T :: l) su).
Proof. reflexivity. Qed.

Lemma Mbind_istable (kb : bool -> G B) v l su :
  Mbind lua_istable kb (mkgs (v :: l) su) = kb (match v with LTable _ => true | _ => false end) (mkgs (v :: l) su).
Proof. reflexivity. Qed.

Lemma Mbind_pop kont v l su : Mbind (lua_pop 1) kont (mkgs (v :: l) su) = kont tt (mkgs l su).
Proof. reflexivity. Qed.

Lemma Mbind_ret {A} (a : A) (ka : A -> G B) g : Mbind (Mret a) ka g = ka a g.
Proof. reflexivity. Qed.

Lemma Mbind_get_out (ks : hair_setup_t -> G B) g : Mbind get_out ks g = ks (gs_out g) g.
Proof. reflexivity. Qed.
End Steps.

(** Forward through a block: rewrite the statement at the head, and split
    on a conversion where one is made. *)
Ltac gs_step :=
  first [ rewrite Mbind_assoc | rewrite Mbind_scalar | rewrite Mbind_modify_out | rewrite Mbind_getfield
        | rewrite Mbind_istable | rewrite Mbind_pop | rewrite Mbind_ret | rewrite Mbind_get_out
        | rewrite Mbind_cast;
          lazymatch goal with
          | |- context [match float_to_uint_opt ?w ?x with Some _ => _ | None => _ end] =>
              destruct (float_to_uint_opt w x)
          end ]; cbv beta.

Ltac gs_close := cbn [mbind option_bind]; first [ reflexivity | eexists; reflexivity ].

(** ** The blocks, on the configuration table at the top of the stack *)

Section Blocks.
Variables (T : list (lua_key * lua_value)) (rest : list lua_value).

Lemma GetSetup_ids_run su :
  neutral GetSetup_ids (mkgs (LTable T :: rest) su) (su' ← dec_ids T su; Some (tt, su')).
Proof. unfold neutral, ub, GetSetup_ids, dec_ids, scalar, num. repeat gs_step; gs_close. Qed.

Lemma GetSetup_damping_run su :
  neutral GetSetup_damping (mkgs (LTable T :: rest) su) (Some (tt, dec_damping T su)).
Proof.
  unfold neutral, ub, GetSetup_damping, dec_damping, table_at, scalar_i, numi. repeat gs_step.
  destruct (rawget T (KStr "hair_damping")); cbv iota beta; repeat gs_step; gs_close.
Qed.
End Blocks.

Section PropsBlock.
Variables (T : list (lua_key * lua_value)) (rest : list lua_value).

Lemma GetSetup_props_run su :
  neutral GetSetup_props (mkgs (LTable T :: rest) su) (dec_props T su).
Proof.
  unfold neutral, ub, GetSetup_props, dec_props, table_at, scalar, num. repeat gs_step.
  destruct (rawget T (KStr "props")) as [| | | |P]; cbv iota beta; repeat gs_step; try gs_close.
  rewrite (Mbind_Returns _ _ _ _ _ (GetSetup_damping_run P (LTable T :: rest) _)).
  cbv beta. repeat gs_step. gs_close.
Qed.

Lemma GetSetup_vec_run key store su :
  neutral (GetSetup_vec key store) (mkgs (LTable T :: rest) su) (Some (dec_vec T key store su)).
Proof.
  unfold neutral, ub, GetSetup_vec, dec_vec, table_at, scalar_i, numi. repeat gs_step.
  destruct (rawget T (KStr key)); cbv iota beta; repeat gs_step; gs_close.
Qed.
End PropsBlock.

Lemma setup_with_eta su :
  setup_with su (hair_damping su) (head_offset su) (root_angle su) (head_vertex_map su) = su.
Proof. by destruct su. Qed.

(** Line 395, with the array [V] on the stack. *)
Lemma GetSetup_vertex_run V l i su :
  neutral (GetSetup_vertex i tt) (mkgs (LTable V :: l) su)
    (v ← float_to_uint_opt 32 (numi V i);
     Some (tt, setup_with su (hair_damping su) (head_offset su) (root_angle su)
                 (<[(i - 1)%Z := v]> (head_vertex_map su)))).
Proof. unfold neutral, ub, GetSetup_vertex, scalar_i, numi. repeat gs_step; gs_close. Qed.

(** The [v_index] loop, from counter [i], with the array [V] on the stack. *)
Lemma vertex_loop_run V l n : forall i su,
  neutral (iter_range GetSetup_vertex n i tt) (mkgs (LTable V :: l) su)
    (vm ← dec_vmap V n i (head_vertex_map su);
     Some (tt, setup_with su (hair_damping su) (head_offset su) (root_angle su) vm)).
Proof.
  induction n as [|n IH]; intros i su.
  - cbn. rewrite setup_with_eta. reflexivity.
  - cbn [iter_range dec_vmap]. eapply neutral_mono.
    { eapply (neutral_bind _ _ _ _ (fun _ su' => vm ← dec_vmap V n (i + 1) (head_vertex_map su');
               Some (tt, setup_with su' (hair_damping su') (head_offset su') (root_angle su') vm))).
      - apply GetSetup_vertex_run.
      - intros [] su' _. apply IH. }
    unfold numi. destruct (float_to_uint_opt 32 _); [|reflexivity]. cbn.
    destruct (dec_vmap V n _ _); reflexivity.
Qed.

Section VertexBlock.
Variables (T : list (lua_key * lua_value)) (rest : list lua_value).

Lemma GetSetup_vertex_map_run su :
  neutral GetSetup_vertex_map (mkgs (LTable T :: rest) su) (dec_vertex_map T su).
Proof.
  unfold neutral, ub, GetSetup_vertex_map, dec_vertex_map, table_at. repeat gs_step.
  destruct (rawget T (KStr "v_index")) as [| | | |V]; cbv iota beta; repeat gs_step; try gs_close.
  cbn [gs_out lua_stack]. destruct (2 ^ 31 <=? vertex_map_count su)%Z; [eexists; reflexivity|]. rewrite Mbind_assoc.
  pose proof (vertex_loop_run V (LTable T :: rest) (Z.to_nat (vertex_map_count su)) 1 su) as Hl.
  unfold neutral, ub in Hl. destruct (dec_vmap _ _ _ _) as [vm|]; cbn in Hl |- *.
  - rewrite (Mbind_Returns _ _ _ _ _ Hl). reflexivity.
  - destruct Hl as [w Hw]. exists w. unfold Mbind at 1. rewrite Hw. reflexivity.
Qed.

(** The whole table, block after block. *)
Lemma GetSetup_table_run su :
  neutral GetSetup_table (mkgs (LTable T :: rest) su) (decode_setup T su).
Proof.
  unfold decode_setup, GetSetup_table.
  pose proof (GetSetup_ids_run T rest su) as H1.
  destruct (dec_ids T su) as [su1|]; [|by apply neutral_stop]. cbv beta iota delta [mbind option_bind]. eapply neutral_seq; [exact H1|].
  pose proof (GetSetup_props_run T rest su1) as H2.
  destruct (dec_props T su1) as [[ok1 su2]|]; [|by apply neutral_stop]. cbv beta iota delta [mbind option_bind]. eapply neutral_seq; [exact H2|].
  pose proof (GetSetup_vertex_map_run su2) as H3.
  destruct (dec_vertex_map T su2) as [[ok2 su3]|]; [|by apply neutral_stop]. cbv beta iota delta [mbind option_bind]. eapply neutral_seq; [exact H3|].
  pose proof (GetSetup_vec_run T rest "offset" store_offset su3) as H4.
  destruct (dec_vec T "offset" store_offset su3) as [ok3 su4]. cbv beta iota zeta. eapply neutral_seq; [exact H4|].
  pose proof (GetSetup_vec_run T rest "root_angle" store_root_angle su4) as H5.
  destruct (dec_vec T "root_angle" store_root_angle su4) as [ok4 su5]. cbv beta iota zeta. eapply neutral_seq; [exact H5|].
  apply neutral_ret.
Qed.
End VertexBlock.

(** ** The whole call *)

Section Call.
Context {B : Type}.

Lemma Mbind_gettop (kn : nat -> G B) g : Mbind lua_gettop kn g = kn (length (lua_stack g)) g.
Proof. reflexivity. Qed.

Lemma Mbind_push (kont : unit -> G B) v l su : Mbind (lua_push v) kont (mkgs l su) = kont tt (mkgs (v :: l) su).
Proof. reflexivity. Qed.

Lemma Mbind_isfunction (kb : bool -> G B) v l su :
  Mbind lua_isfunction kb (mkgs (v :: l) su) = kb (match v with LFunction _ => true | _ => false end) (mkgs (v :: l) su).
Proof. reflexivity. Qed.

Lemma Mbind_call env (kb : bool -> G B) a f l su :
  Mbind (lua_CallAndLog env 1) kb (mkgs (a :: LFunction f :: l) su) =
  match lua_call env f [a] with Some v => kb true (mkgs (v :: l) su) | None => kb false (mkgs l su) end.
Proof. unfold Mbind, lua_CallAndLog. cbn. by destruct (lua_call env f [a]). Qed.

Lemma settop_push (kont : unit -> G B) v l su :
  Mbind (lua_settop (length l)) kont (mkgs (v :: l) su) = kont tt (mkgs l su).
Proof.
  unfold Mbind, lua_settop, mmodify. cbn [lua_stack gs_out length].
  rewrite (proj2 (Nat.leb_le _ _)) by lia. by replace (S (length l) - length l)%nat with 1%nat by lia.
Qed.

Lemma settop_same (kont : unit -> G B) l su :
  Mbind (lua_settop (length l)) kont (mkgs l su) = kont tt (mkgs l su).
Proof.
  unfold Mbind, lua_settop, mmodify. cbn [lua_stack gs_out].
  rewrite Nat.leb_refl, Nat.sub_diag. reflexivity.
Qed.
End Call.

(** The call up to the test of line 351, and after the call of line 354. *)
Ltac call_prefix Hf :=
  unfold neutral, ub, Hair_GetSetup, lua_getglobal, lua_pushinteger;
  rewrite Mbind_gettop; cbn [lua_stack]; rewrite Mbind_push, Mbind_isfunction, Hf; cbv iota beta.
Ltac call_made HT :=
  rewrite Mbind_assoc, Mbind_push, Mbind_assoc, Mbind_call, HT; cbv iota beta.

(** The call when the script's [getHairSetup] returns a table. *)
Lemma GetSetup_call_table env idx l su f T :
  lua_global env "getHairSetup" = LFunction f -> lua_call env f [LNumber (inject_Z idx)] = Some (LTable T) ->
  neutral (Hair_GetSetup env idx) (mkgs l su) (decode_setup T su).
Proof.
  intros Hf HT. call_prefix Hf. call_made HT. rewrite Mbind_assoc, Mbind_istable. cbv iota beta.
  pose proof (GetSetup_table_run T l su) as H. unfold neutral, ub in H.
  destruct (decode_setup T su) as [[b su']|]; cbn [lua_stack] in H.
  - rewrite (Mbind_Returns _ _ _ _ _ H), settop_push. reflexivity.
  - destruct H as [w Hw]. exists w. unfold Mbind at 1. rewrite Hw. reflexivity.
Qed.

(** C23. [Hair_GetSetup] computes [getsetup_spec]: when the script's
    [getHairSetup] returns a table, the record the direct reading
    [decode_setup] gives and the conjunction of the blocks' results
    (false when one of [props], [v_index], [offset], [root_angle] is not a
    table); [false] and the record untouched when there is no such
    function, the call fails or its result is not a table; undefined
    exactly where a conversion to [uint32_t]/[uint8_t] is out of range or
    the [v_index] counter would overflow.  On every return the Lua stack
    is the one it found. *)
Theorem Hair_GetSetup_refines env idx l su :
  neutral (Hair_GetSetup env idx) (mkgs l su) (getsetup_spec env idx su).
Proof.
  unfold getsetup_spec. destruct (lua_global env "getHairSetup") as [| | |f|] eqn:Hf;
    try (call_prefix Hf; rewrite Mbind_ret, settop_push; reflexivity).
  destruct (lua_call env f [LNumber (inject_Z idx)]) as [[| | | |T]|] eqn:HT;
    try (call_prefix Hf; call_made HT; rewrite Mbind_assoc, Mbind_istable; cbv iota beta;
         rewrite Mbind_ret, settop_push; reflexivity).
  - exact (GetSetup_call_table env idx l su f T Hf HT).
  - call_prefix Hf. call_made HT. rewrite Mbind_ret, settop_same. reflexivity.
Qed.
