(* ===== verification/SetupRoundtrip.v ===== *)
(** * A configuration written by a script and read back

    [setup_table su] is the table a script returns for the setup [su], in
    the shape [Hair_GetSetup] expects (the [props] sub-table with or
    without its [hair_damping] pair, the [v_index] array of
    [vertex_map_count] entries, the [offset] and [root_angle] triples);
    [setup_script T] is a script whose [getHairSetup] returns [T].  The
    theorems read a setup back through [Hair_GetSetup]. *)

From S2P Require Import Prelude Vector Engine Hair LuaApi HairSetup GetSetupSpec Scenario.

Definition vnum (z : Z) : lua_value := LNumber (inject_Z z).

Definition vec_table (v : btVector3) : lua_value :=
  LTable [(KInt 1, LNumber (vx v)); (KInt 2, LNumber (vy v)); (KInt 3, LNumber (vz v))].

Definition vmap_entries (vm : gmap Z Z) (n : nat) : list (lua_key * lua_value) :=
  map (fun k => (KInt (Z.of_nat k + 1)%Z, vnum (default 0%Z (vm !! Z.of_nat k)))) (seq 0 n).

Definition props_table (with_damping : bool) (su : hair_setup_t) : list (lua_key * lua_value) :=
  [(KStr "root_weight", LNumber (root_weight su)); (KStr "tail_weight", LNumber (tail_weight su));
   (KStr "hair_inertia", LNumber (hair_inertia su)); (KStr "hair_friction", LNumber (hair_friction su));
   (KStr "hair_bouncing", LNumber (hair_restitution su)); (KStr "joint_radius", LNumber (joint_radius su));
   (KStr "joint_overlap", LNumber (joint_overlap su)); (KStr "joints_per_body", vnum (joints_per_body su));
   (KStr "joint_cfm", LNumber (joint_cfm su)); (KStr "joint_erp", LNumber (joint_erp su))] ++
  (if with_damping
   then [(KStr "hair_damping", LTable [(KInt 1, LNumber (hair_damping su).1); (KInt 2, LNumber (hair_damping su).2)])]
   else []).

Definition setup_table (with_damping : bool) (su : hair_setup_t) : list (lua_key * lua_value) :=
  [(KStr "model", vnum (model su)); (KStr "link_body", vnum (link_body su));
   (KStr "v_count", vnum (vertex_map_count su));
   (KStr "props", LTable (props_table with_damping su));
   (KStr "v_index", LTable (vmap_entries (head_vertex_map su) (Z.to_nat (vertex_map_count su))));
   (KStr "offset", vec_table (head_offset su)); (KStr "root_angle", vec_table (root_angle su))].

Definition setup_script (T : list (lua_key * lua_value)) : lua_env :=
  {| lua_global := fun name => if bool_decide (name = "getHairSetup"%string) then LFunction 0 else LNil;
     lua_call := fun _ _ => Some (LTable T) |}.

Definition in_u32 (z : Z) : bool := ((0 <=? z) && (z <? 2 ^ 32))%Z.

(** The integer fields fit the types [Hair_GetSetup] converts them to,
    and the vertex map has a 32-bit entry below [vertex_map_count]. *)
Definition setup_encodable (su : hair_setup_t) : bool :=
  in_u32 (model su) && in_u32 (link_body su) &&
  ((0 <=? vertex_map_count su) && (vertex_map_count su <? 2 ^ 31))%Z &&
  ((0 <=? joints_per_body su) && (joints_per_body su <? 256))%Z &&
  forallb (fun k => match head_vertex_map su !! Z.of_nat k with Some v => in_u32 v | None => false end)
    (seq 0 (Z.to_nat (vertex_map_count su))).

(** ** Reading numbers back *)

Lemma float_to_uint_opt_inject w z :
  ((0 <=? z) && (z <? 2 ^ w))%Z = true -> float_to_uint_opt w (inject_Z z) = Some z.
Proof. unfold float_to_uint_opt. cbn [Qnum Qden inject_Z]. rewrite Z.quot_1_r. by intros ->. Qed.

Lemma float_to_uint_opt_inject_out w z :
  ((0 <=? z) && (z <? 2 ^ w))%Z = false -> float_to_uint_opt w (inject_Z z) = None.
Proof. unfold float_to_uint_opt. cbn [Qnum Qden inject_Z]. rewrite Z.quot_1_r. by intros ->. Qed.

(** Entry [k] of an array written from index [a], at Lua index [k + 1]. *)
Lemma rawget_seq_entries (f : nat -> lua_value) a N k :
  (a <= k < a + N)%nat ->
  rawget (map (fun k => (KInt (Z.of_nat k + 1)%Z, f k)) (seq a N)) (KInt (Z.of_nat k + 1)%Z) = f k.
Proof.
  unfold rawget. revert a. induction N as [|N IH]; intros a Hk; [lia|]. cbn [seq map List.find fst].
  destruct (decide (k = a)) as [->|Hne].
  - by rewrite bool_decide_eq_true_2.
  - rewrite bool_decide_eq_false_2 by (intros [=]; lia). apply IH. lia.
Qed.

Lemma rawget_vmap_entries vm N k :
  (k < N)%nat -> rawget (vmap_entries vm N) (KInt (Z.of_nat k + 1)%Z) = vnum (default 0%Z (vm !! Z.of_nat k)).
Proof. intros Hk. apply rawget_seq_entries. lia. Qed.

(** The [v_index] loop over such an array, from entry [s]: entries [s] to
    [s + n - 1] are copied, the other keys keep their value. *)
Lemma dec_vmap_entries vm0 N n s vm :
  (s + n <= N)%nat ->
  (forall k, (s <= k < s + n)%nat -> exists v, vm0 !! Z.of_nat k = Some v /\ in_u32 v = true) ->
  exists vm', dec_vmap (vmap_entries vm0 N) n (Z.of_nat s + 1) vm = Some vm' /\
    forall j, vm' !! j = if bool_decide (Z.of_nat s <= j < Z.of_nat (s + n))%Z then vm0 !! j else vm !! j.
Proof.
  revert s vm. induction n as [|n IH]; intros s vm HN Hv.
  - exists vm. split; [reflexivity|]. intros j. rewrite bool_decide_eq_false_2 by lia. reflexivity.
  - destruct (Hv s ltac:(lia)) as (v & Hs & Hr).
    cbn [dec_vmap]. unfold numi. rewrite rawget_vmap_entries, Hs by lia.
    cbn [default vnum lua_tonumber]. rewrite float_to_uint_opt_inject by exact Hr.
    replace (Z.of_nat s + 1 + 1)%Z with (Z.of_nat (S s) + 1)%Z by lia.
    replace (Z.of_nat s + 1 - 1)%Z with (Z.of_nat s) by lia.
    destruct (IH (S s) (<[Z.of_nat s := v]> vm)) as (vm' & Hd & Hl); [lia|intros k Hk; apply Hv; lia|].
    exists vm'. split; [exact Hd|]. intros j. rewrite Hl.
    destruct (decide (j = Z.of_nat s)) as [->|Hne].
    + rewrite bool_decide_eq_false_2, bool_decide_eq_true_2 by lia. by rewrite lookup_insert_eq.
    + rewrite lookup_insert_ne by congruence. repeat case_bool_decide; done || lia.
Qed.

(** Reading [setup_table d su] over the record [su0]: every field of
    [su] comes back, the damping pair only when the table has one, and
    the vertex map keeps [su0]'s keys from [vertex_map_count] on. *)
Lemma decode_setup_table d su su0 :
  setup_encodable su = true ->
  exists vm, decode_setup (setup_table d su) su0 =
    Some (true, setup_with su (if d then hair_damping su else hair_damping su0) (head_offset su) (root_angle su) vm) /\
    forall j, vm !! j = if bool_decide (0 <= j < vertex_map_count su)%Z then head_vertex_map su !! j
                        else head_vertex_map su0 !! j.
Proof.
  intros He. destruct su as [m lb vc rw tw [d0 d1] hi hf hr jpb jo jr cfm erp [ox oy oz] [ax ay az] vmap].
  destruct su0 as [m0 lb0 vc0 rw0 tw0 dmp0 hi0 hf0 hr0 jpb0 jo0 jr0 cfm0 erp0 off0 ang0 vmap0].
  unfold setup_encodable in He. cbn [model link_body vertex_map_count joints_per_body head_vertex_map] in *.
  rewrite !andb_true_iff, forallb_forall in He. destruct He as ((((Hm & Hl) & Hv) & Hj) & Hall).
  destruct Hv as [Hv0%Z.leb_le Hv1%Z.ltb_lt].
  destruct (dec_vmap_entries vmap (Z.to_nat vc) (Z.to_nat vc) 0 vmap0) as (vm & Hd & Hvm); [lia| |].
  { intros k Hk. specialize (Hall k (proj2 (in_seq (Z.to_nat vc) 0 k) ltac:(lia))).
    destruct (vmap !! Z.of_nat k) as [v|]; [eexists; split; [reflexivity|exact Hall]|done]. }
  change (Z.of_nat 0 + 1)%Z with 1%Z in Hd. exists vm. split.
  - unfold decode_setup. destruct d; cbv -[float_to_uint_opt dec_vmap vmap_entries inject_Z Z.leb Z.pow Z.to_nat];
    rewrite (float_to_uint_opt_inject 32 m Hm), (float_to_uint_opt_inject 32 lb Hl),
      (float_to_uint_opt_inject 32 vc) by (apply andb_true_iff; split; [apply Z.leb_le|apply Z.ltb_lt]; lia);
    rewrite (float_to_uint_opt_inject 8 jpb) by (apply andb_true_iff; exact Hj);
    rewrite (proj2 (Z.leb_gt (2 ^ 31) vc)) by lia; rewrite Hd; reflexivity.
  - intros j. rewrite Hvm. cbn [vertex_map_count head_vertex_map].
    replace (Z.of_nat (0 + Z.to_nat vc)) with vc by lia. reflexivity.
Qed.





(** [Hair_GetSetup] on a script returning the table [T]. *)
Lemma setup_script_call T idx l su :
  neutral (Hair_GetSetup (setup_script T) idx) (mkgs l su) (decode_setup T su).
Proof. by eapply GetSetup_call_table. Qed.

(** C24. A setup whose integer fields fit their types, written by a
    script as the table [Hair_GetSetup] expects, is read back: the call
    returns true, every field of the setup comes back, and the vertex map
    agrees with it on its [vertex_map_count] entries; the Lua stack is
    left as it was. *)
Theorem Hair_GetSetup_roundtrip su su0 idx l :
  setup_encodable su = true ->
  exists su', Hair_GetSetup (setup_script (setup_table true su)) idx (mkgs l su0) = Returns (true, mkgs l su') /\
    setup_with su' (hair_damping su') (head_offset su') (root_angle su') (head_vertex_map su) = su /\
    forall j, (0 <= j < vertex_map_count su)%Z -> head_vertex_map su' !! j = head_vertex_map su !! j.
Proof.
  intros He. destruct (decode_setup_table true su su0 He) as (vm & Hd & Hvm).
  pose proof (setup_script_call (setup_table true su) idx l su0) as H. unfold neutral in H. rewrite Hd in H.
  eexists. split; [exact H|]. split; [by destruct su|].
  intros j Hj. cbn [head_vertex_map setup_with]. rewrite Hvm. by rewrite bool_decide_eq_true_2.
Qed.

(** C25. A [props] table without [hair_damping] is not reported: the
    call still returns true, and the damping pair is whatever the caller's
    record held before the call (lines 376-382 have no [else]). *)
Theorem Hair_GetSetup_missing_damping su su0 idx l :
  setup_encodable su = true ->
  exists su', Hair_GetSetup (setup_script (setup_table false su)) idx (mkgs l su0) = Returns (true, mkgs l su') /\
    hair_damping su' = hair_damping su0.
Proof.
  intros He. destruct (decode_setup_table false su su0 He) as (vm & Hd & _).
  pose proof (setup_script_call (setup_table false su) idx l su0) as H. unfold neutral in H. rewrite Hd in H.
  eexists. split; [exact H|]. reflexivity.
Qed.


(** C27. [joints_per_body] is converted with [(uint8_t)] (line 372): a
    script value of 256 or more is a conversion out of range, undefined
    behaviour, whatever the other fields. *)
Theorem Hair_GetSetup_jpb_ub d su su0 idx l :
  (256 <= joints_per_body su)%Z -> ub (Hair_GetSetup (setup_script (setup_table d su)) idx) (mkgs l su0).
Proof.
  intros Hj. pose proof (setup_script_call (setup_table d su) idx l su0) as H.
  enough (Hd : decode_setup (setup_table d su) su0 = None) by (unfold neutral in H; by rewrite Hd in H).
  unfold decode_setup. destruct (dec_ids _ _) as [su1|]; [|reflexivity]. cbv beta iota delta [mbind option_bind].
  unfold dec_props. change (table_at (setup_table d su) "props") with (Some (props_table d su)). cbv iota.
  change (num (props_table d su) "joints_per_body") with (inject_Z (joints_per_body su)).
  rewrite float_to_uint_opt_inject_out; [reflexivity|]. apply andb_false_iff. right. apply Z.ltb_ge. exact Hj.
Qed.

(** ** On a concrete script *)

(** [setup0] with model 5, link body 1 and a two-entry vertex map. *)
Definition setup_vm : hair_setup_t :=
  setup_with (setup_set_ids setup0 5 1 2) (hair_damping setup0) (head_offset setup0) (root_angle setup0)
    (<[0%Z := 11%Z]> (<[1%Z := 12%Z]> ∅)).

(** [setup0] with 256 joints per body. *)
Definition setup_jpb256 : hair_setup_t :=
  setup_set_props setup0 1 (1 # 10) 1 (1 # 4) 0 1 1 256 (1 # 10) (1 # 5).


Lemma Hair_GetSetup_roundtrip_witness :
  exists su', Hair_GetSetup (setup_script (setup_table true setup_vm)) 3 (mkgs [] setup0) = Returns (true, mkgs [] su') /\
    setup_with su' (hair_damping su') (head_offset su') (root_angle su') (head_vertex_map setup_vm) = setup_vm /\
    forall j, (0 <= j < vertex_map_count setup_vm)%Z -> head_vertex_map su' !! j = head_vertex_map setup_vm !! j.
Proof. apply Hair_GetSetup_roundtrip. vm_compute. reflexivity. Defined.

Lemma Hair_GetSetup_missing_damping_witness :
  exists su', Hair_GetSetup (setup_script (setup_table false setup_vm)) 3 (mkgs [] setup0) = Returns (true, mkgs [] su') /\
    hair_damping su' = hair_damping setup0.
Proof. apply Hair_GetSetup_missing_damping. vm_compute. reflexivity. Defined.


Lemma Hair_GetSetup_jpb_ub_witness : ub (Hair_GetSetup (setup_script (setup_table true setup_jpb256)) 3) (mkgs [] setup0).
Proof. apply Hair_GetSetup_jpb_ub. simpl. lia. Defined.
